(** * TameioJoin: cash-drawer reconciliation (script.js)

    A shallow embedding of the reconciliation and envelope-breakdown logic of
    [script.js]: the denomination registry, the amount/count mode converter
    ([toggleInputMode]), the field validation ([validateInput]), the derived
    totals ([updateTotals]), the adjustment ("exoda") list
    ([createExodaFields]) and the two greedy allocations ([calculateFakelos],
    [showStelno]); then the filter of typed text ([handleCommaInput]), the
    saved values ([saveAllValues], [restoreAllValues], [resetAll], the
    theme), the delayed calls ([debounce]) and, of the version with
    description inputs, the date field and its calendar ([formatDateDMY],
    [initCalendar], [renderCalendar]).

    JavaScript numbers.  The program computes on IEEE-754 doubles.  The
    functions below are written once, over an interface [JsNumber] of the
    arithmetic the script uses, and the interface has two instances:
    - [Binary64.b64]: binary64 exactly as specified by [SpecFloat]
      (round-to-nearest-even), on which the script's behaviour is evaluated;
    - [Exact.exact]: exact decimal arithmetic on rationals, the idealisation
      in which amounts are whole cents.
    Integral quantities (the results of [Math.floor] and [Math.round], the
    piece counts) are integers [Z]; a double holds them exactly up to 2^53,
    and what the script computes from two counts ([leftOf]) is computed on
    the numbers that hold them.  The section on rounding measures the
    doubles in rationals: the result of an operation is within 2^-53 of the
    exact one, relatively ([roundoff]), and exact on whole numbers below
    2^53.

    Input fields.  A field's text is kept as what [parseFloat] makes of it:
    empty, not a number, or a number ([inputValue]); writing a number into a
    field and parsing it again gives the number back, negative zero as zero
    ([written]).  [Math.floor] and [Math.round] of a double that is not
    finite have no integer value; the binary64 instance returns 0 there, a
    case the script reaches only when an amount overflows. *)

From Stdlib Require Import ZArith QArith Qround Qpower Lia Lqa List Bool.
From Stdlib Require Import Ascii String DecimalString DecimalZ.
From Stdlib Require Import SpecFloat.
From stdpp Require Import gmap strings functions.

Local Open Scope Z_scope.

(* ===================================================================== *)
(** ** The arithmetic of the script *)
(* ===================================================================== *)

Class JsNumber (num : Type) := {
  (** the decimal literal [m * 10^-k] as a number: [literal 5 2] is [0.05] *)
  literal : Z -> nat -> num;
  num_add : num -> num -> num;
  num_sub : num -> num -> num;
  num_mul : num -> num -> num;
  num_div : num -> num -> num;
  (** [x % y] *)
  num_rem : num -> num -> num;
  (** [x <= y], [x < y], [x === y] *)
  num_leb : num -> num -> bool;
  num_ltb : num -> num -> bool;
  num_eqb : num -> num -> bool;
  (** [Math.floor(x)], [Math.round(x)], [Number.isInteger(x)] *)
  Math_floor : num -> Z;
  Math_round : num -> Z;
  Number_isInteger : num -> bool;
  (** [parseFloat(x.toFixed(2))]: the number read back from the two-decimal
      text of [x] *)
  toFixed2 : num -> num
}.

Declare Scope js_scope.
Delimit Scope js_scope with js.
Notation "x + y" := (num_add x y) : js_scope.
Notation "x - y" := (num_sub x y) : js_scope.
Notation "x * y" := (num_mul x y) : js_scope.
Notation "x / y" := (num_div x y) : js_scope.
Notation "x 'mod' y" := (num_rem x y) : js_scope.
Notation "x <=? y" := (num_leb x y) : js_scope.
Notation "x <? y" := (num_ltb x y) : js_scope.
Notation "x =? y" := (num_eqb x y) : js_scope.

(** An integer as a number. *)
Definition ofZ {num} `{JsNumber num} (z : Z) : num := literal z 0.

(* --------------------------------------------------------------------- *)
(** *** Exact decimal arithmetic *)
(* --------------------------------------------------------------------- *)

Module Exact.

(** Numbers are rationals, kept in lowest terms so that equal numbers are
    equal terms. *)
Abbreviation exact := Q (only parsing).

Definition pow10 (k : nat) : positive := Z.to_pos (10 ^ Z.of_nat k).

Definition lit (m : Z) (k : nat) : Q := Qred (m # pow10 k).

(** truncation toward zero, as [%] uses it *)
Definition trunc (x : Q) : Z :=
  if Qle_bool 0 x then Qfloor x else Qceiling x.

Definition rem (x y : Q) : Q :=
  Qred (x - y * inject_Z (trunc (x / y))).

Definition ltb (x y : Q) : bool := negb (Qle_bool y x).

(** [Math.round] rounds halves up. *)
Definition round (x : Q) : Z := Qfloor (x + (1 # 2)).

Definition isInteger (x : Q) : bool := Qeq_bool x (inject_Z (Qfloor x)).

(** [toFixed(2)] takes the integer [n] nearest to [|x| * 100], the larger
    one on a tie, and prints [n / 100] with the sign of [x]. *)
Definition fixed2 (x : Q) : Q :=
  if Qle_bool 0 x
  then Qred (round (x * 100) # 100)
  else Qred (- round (- x * 100) # 100).

#[global] Instance exact_number : JsNumber exact := {|
  literal := lit;
  num_add x y := Qred (x + y);
  num_sub x y := Qred (x - y);
  num_mul x y := Qred (x * y);
  num_div x y := Qred (x / y);
  num_rem := rem;
  num_leb := Qle_bool;
  num_ltb := ltb;
  num_eqb := Qeq_bool;
  Math_floor := Qfloor;
  Math_round := round;
  Number_isInteger := isInteger;
  toFixed2 := fixed2
|}.

End Exact.

(* --------------------------------------------------------------------- *)
(** *** IEEE-754 binary64 *)
(* --------------------------------------------------------------------- *)

Module Binary64.

Definition prec : Z := 53.
Definition emax : Z := 1024.

Abbreviation b64 := spec_float (only parsing).

(** The double nearest to [m / 10^k] (ties to even): the quotient of the
    two integers with the position of the remainder, rounded once. *)
Definition lit (m : Z) (k : nat) : b64 :=
  match m with
  | Z0 => S754_zero false
  | _ =>
      let '(q, e, l) :=
        SFdiv_core_binary prec emax (Z.abs m) 0 (10 ^ Z.of_nat k) 0 in
      binary_round_aux prec emax (m <? 0) q e l
  end.

(** [floor (M * 2^e + 1/2)] *)
Definition round_half_up (M e : Z) : Z :=
  if 0 <=? e then M * 2 ^ e else (M + 2 ^ (- e - 1)) / 2 ^ (- e).

(** [Math.floor] and [Math.round] of a finite double are integers; on NaN
    and the infinities, which the script meets only past 1.7e308, they are
    not, and 0 stands for them here. *)
Definition floor (x : b64) : Z :=
  match x with
  | S754_finite s m e => Z.shiftl (cond_Zopp s (Zpos m)) e
  | _ => 0
  end.

Definition round (x : b64) : Z :=
  match x with
  | S754_finite s m e => round_half_up (cond_Zopp s (Zpos m)) e
  | _ => 0
  end.

Definition isInteger (x : b64) : bool :=
  match x with
  | S754_zero _ => true
  | S754_finite _ m e => (0 <=? e) || (Zpos m mod 2 ^ (- e) =? 0)
  | _ => false
  end.

(** [x % y] is exact: the remainder of the truncated division, with the
    sign of [x]. *)
Definition rem (x y : b64) : b64 :=
  match x, y with
  | S754_nan, _ | _, S754_nan => S754_nan
  | S754_infinity _, _ => S754_nan
  | _, S754_zero _ => S754_nan
  | _, S754_infinity _ => x
  | S754_zero _, _ => x
  | S754_finite sx mx ex, S754_finite sy my ey =>
      let e := Z.min ex ey in
      let r := Z.rem (Zpos mx * 2 ^ (ex - e)) (Zpos my * 2 ^ (ey - e)) in
      binary_normalize prec emax (cond_Zopp sx r) e sx
  end.

(** [x.toFixed(2)] prints the exact value of [x] rounded to the nearest
    hundredth (halves away from zero), or [String(x)] from 1e21 on;
    [parseFloat] then takes the nearest double. *)
Definition fixed2 (x : b64) : b64 :=
  match x with
  | S754_zero _ => S754_zero false
  | S754_finite s m e =>
      if SFleb (lit (10 ^ 21) 0) (SFabs x) then x
      else
        let n := round_half_up (100 * Zpos m) e in
        if n =? 0 then S754_zero s else lit (cond_Zopp s n) 2
  | _ => x
  end.

(** [x] is a zero, a finite number or an infinity of sign [s]. *)
Definition signed (s : bool) (x : b64) : Prop :=
  match x with
  | S754_zero s' | S754_infinity s' | S754_finite s' _ _ => s' = s
  | S754_nan => False
  end.

(** [x] is a zero, a negative number or minus infinity. *)
Definition nonpositive (x : b64) : Prop :=
  match x with
  | S754_zero _ => True
  | S754_infinity s | S754_finite s _ _ => s = true
  | S754_nan => False
  end.

#[global] Instance b64_number : JsNumber b64 := {|
  literal := lit;
  num_add := SFadd prec emax;
  num_sub := SFsub prec emax;
  num_mul := SFmul prec emax;
  num_div := SFdiv prec emax;
  num_rem := rem;
  num_leb := SFleb;
  num_ltb := SFltb;
  num_eqb := SFeqb;
  Math_floor := floor;
  Math_round := round;
  Number_isInteger := isInteger;
  toFixed2 := fixed2
|}.

End Binary64.

(* ===================================================================== *)
(** ** The script *)
(* ===================================================================== *)

(** The eleven denomination fields, ['bill-100'] to ['coin-0-05'].  The
    script also uses a denomination's face value as a key (of [billCounts],
    [usedBills], ...); face values are distinct, and [denom] stands for
    both. *)
Inductive denom :=
  | bill_100 | bill_50 | bill_20 | bill_10 | bill_5
  | coin_2 | coin_1 | coin_0_5 | coin_0_2 | coin_0_1 | coin_0_05.

(** The fields of [denominations.other]. *)
Inductive other := kermata | wolt | efood | mypos | eurobank.

(** A field id: one of the sixteen fixed fields, or [`exoda-${i}`]. *)
Inductive field :=
  | Denomination (id : denom)
  | Other (id : other)
  | Exoda (i : nat).

#[global] Instance denom_eq_dec : EqDecision denom.
Proof. solve_decision. Defined.

#[global] Instance other_eq_dec : EqDecision other.
Proof. solve_decision. Defined.

#[global] Instance field_eq_dec : EqDecision field.
Proof. solve_decision. Defined.

Definition denom_index (d : denom) : nat :=
  match d with
  | bill_100 => 0 | bill_50 => 1 | bill_20 => 2 | bill_10 => 3 | bill_5 => 4
  | coin_2 => 5 | coin_1 => 6 | coin_0_5 => 7 | coin_0_2 => 8
  | coin_0_1 => 9 | coin_0_05 => 10
  end%nat.

Definition denom_of_index (n : nat) : denom :=
  match n with
  | 0 => bill_100 | 1 => bill_50 | 2 => bill_20 | 3 => bill_10 | 4 => bill_5
  | 5 => coin_2 | 6 => coin_1 | 7 => coin_0_5 | 8 => coin_0_2
  | 9 => coin_0_1 | _ => coin_0_05
  end%nat.

#[global] Instance denom_countable : Countable denom.
Proof.
  apply (inj_countable' denom_index denom_of_index).
  intros []; reflexivity.
Defined.

(** const denominations = { bills: [...], coins: [...], other: [...] } *)
Definition denominations_bills : list denom :=
  [bill_100; bill_50; bill_20; bill_10; bill_5].
Definition denominations_coins : list denom :=
  [coin_2; coin_1; coin_0_5; coin_0_2; coin_0_1; coin_0_05].
Definition denominations_other : list other :=
  [kermata; wolt; efood; mypos; eurobank].

(** const denominationFields = [...denominations.bills, ...denominations.coins] *)
Definition denominationFields : list denom :=
  denominations_bills ++ denominations_coins.

(** [...denominations.bills, ...denominations.coins, ...denominations.other] *)
Definition allFields : list field :=
  (Denomination <$> denominations_bills)
  ++ (Denomination <$> denominations_coins)
  ++ (Other <$> denominations_other).

(** The loop [for (let i = 1; i <= n; i++)]. *)
Definition from1 (n : nat) : list nat := seq 1 n.

Section Script.

Context {num : Type} `{JsNumber num}.

Local Open Scope js_scope.

(** *** Denomination registry *)

(** const denominationValues = { 'bill-100': 100, ..., 'coin-0-05': 0.05 } *)
Definition denominationValues (id : denom) : num :=
  match id with
  | bill_100 => literal 100 0
  | bill_50 => literal 50 0
  | bill_20 => literal 20 0
  | bill_10 => literal 10 0
  | bill_5 => literal 5 0
  | coin_2 => literal 2 0
  | coin_1 => literal 1 0
  | coin_0_5 => literal 5 1
  | coin_0_2 => literal 2 1
  | coin_0_1 => literal 1 1
  | coin_0_05 => literal 5 2
  end.

(** denominationValues.hasOwnProperty(id) *)
Definition hasDenomination (id : field) : option denom :=
  match id with
  | Denomination d => Some d
  | _ => None
  end.

(** *** Field value store *)

(** The text of an input: [""], or a text that [parseFloat] reads as NaN
    ([Text None]) or as a number. *)
Inductive inputValue :=
  | Blank
  | Text (parsed : option num).

(** [parseFloat(input.value)]; [None] is NaN. *)
Definition parseFloat (v : inputValue) : option num :=
  match v with
  | Blank => None
  | Text parsed => parsed
  end.

(** [!input.value] *)
Definition isBlank (v : inputValue) : bool :=
  match v with
  | Blank => true
  | Text _ => false
  end.

(** [x || 0] for a number [x] that may be NaN *)
Definition orZero (x : option num) : num :=
  match x with
  | None => literal 0 0
  | Some v => if v =? literal 0 0 then literal 0 0 else v
  end.

(** The number read back from a field it was written to: [String(x)]
    parsed again is [x], except that negative zero prints as ["0"]. *)
Definition written (x : num) : num :=
  if x =? literal 0 0 then literal 0 0 else x.

(** [n || 0] for an integer that may be undefined *)
Definition orZeroZ (n : option Z) : Z :=
  match n with
  | None => 0
  | Some v => if (v =? 0)%Z then 0 else v
  end.

(** The script's globals: the mode flag, the number of exoda fields and
    the cached inputs.  The sixteen fixed inputs are cached once by [init]
    and always present, and [cachedInputs] is read at those ids only; the
    exoda inputs, [cachedInputs[`exoda-${i}`]] and (in the version with
    descriptions) [cachedInputs[`exoda-desc-${i}`]], come and go and are
    kept in [exodaInputs] and [exodaDescInputs]. *)
Record state := {
  isCountMode : bool;
  currentExodaCount : nat;
  cachedInputs : field -> inputValue;
  exodaInputs : gmap nat inputValue;
  exodaDescInputs : gmap nat string
}.

(** *** Mode converter: toggleInputMode *)

(** The body of [denominationFields.forEach(id => ...)], as the new value
    of the input. *)
Definition convertField (countMode : bool) (id : denom) (value : inputValue)
  : inputValue :=
  if isBlank value then value
  else
    match parseFloat value with
    | None => value
    | Some val =>
        if val =? literal 0 0 then value
        else
          let denom := denominationValues id in
          if countMode then
            (* Amount -> Count: divide by denomination *)
            let count := Math_round (val / denom) in
            Text (Some (ofZ count))
          else
            (* Count -> Amount: multiply by denomination *)
            let amount := val * denom in
            Text (Some (written (toFixed2 amount)))
    end.

Definition toggleInputMode (countMode : bool) (s : state) : state :=
  if Bool.eqb (isCountMode s) countMode then s
  else
    {| isCountMode := countMode;
       currentExodaCount := currentExodaCount s;
       cachedInputs :=
         foldl (fun inputs id =>
                  <[Denomination id :=
                      convertField countMode id (inputs (Denomination id))]>
                    inputs)
               (cachedInputs s) denominationFields;
       exodaInputs := exodaInputs s;
       exodaDescInputs := exodaDescInputs s |}.

(** *** Adjustment entries: createExodaFields *)

(** "Save existing values before clearing": the non-empty values of the
    inputs 1..currentExodaCount. *)
Definition existingValues (s : state) : gmap nat inputValue :=
  foldl (fun saved i =>
           match exodaInputs s !! i with
           | Some value => if isBlank value then saved else <[i := value]> saved
           | None => saved
           end)
        ∅ (from1 (currentExodaCount s)).

Definition existingDescs (s : state) : gmap nat string :=
  foldl (fun saved i =>
           match exodaDescInputs s !! i with
           | Some value => if String.eqb value "" then saved else <[i := value]> saved
           | None => saved
           end)
        ∅ (from1 (currentExodaCount s)).

(** "Clear container and remove old cached inputs" *)
Definition removeCached {A} (n : nat) (inputs : gmap nat A) : gmap nat A :=
  foldl (fun m i => delete i m) inputs (from1 n).

(** The new inputs 1..count, each with its saved value if there is one. *)
Definition createInputs {A} (blank : A) (saved : gmap nat A) (count : nat)
    (inputs : gmap nat A) : gmap nat A :=
  foldl (fun m i =>
           <[i := match saved !! i with Some value => value | None => blank end]> m)
        inputs (from1 count).

(** script.js, which has no description inputs *)
Definition createExodaFields (count : nat) (s : state) : state :=
  let saved := existingValues s in
  let cleared := removeCached (currentExodaCount s) (exodaInputs s) in
  {| isCountMode := isCountMode s;
     currentExodaCount := count;
     cachedInputs := cachedInputs s;
     exodaInputs := createInputs Blank saved count cleared;
     exodaDescInputs := exodaDescInputs s |}.

(** the version with a description input next to each amount *)
Definition createExodaFieldsDesc (count : nat) (s : state) : state :=
  let saved := existingValues s in
  let savedDesc := existingDescs s in
  let cleared := removeCached (currentExodaCount s) (exodaInputs s) in
  let clearedDesc := removeCached (currentExodaCount s) (exodaDescInputs s) in
  {| isCountMode := isCountMode s;
     currentExodaCount := count;
     cachedInputs := cachedInputs s;
     exodaInputs := createInputs Blank saved count cleared;
     exodaDescInputs := createInputs ""%string savedDesc count clearedDesc |}.

(** function getTotalExoda() *)
Definition getTotalExoda (s : state) : num :=
  foldl (fun total i =>
           match exodaInputs s !! i with
           | Some value => total + orZero (parseFloat value)
           | None => total
           end)
        (literal 0 0) (from1 (currentExodaCount s)).

(** *** Validation: validateInput *)

(** [validateInput(id)] for the input [cachedInputs[id]] holding [value];
    the result is [true] when the input ends up without the class
    ['invalid']. *)
Definition validateInput (countMode : bool) (id : field) (value : inputValue)
  : bool :=
  if isBlank value then true
  else
    match hasDenomination id with
    | Some d =>
        if countMode then
          (* !isNaN(value) && Number.isInteger(value) && value >= 0 *)
          match parseFloat value with
          | None => false
          | Some v => Number_isInteger v && (literal 0 0 <=? v)
          end
        else
          match parseFloat value with
          | None => true     (* !isNaN(value) && ... is false *)
          | Some v =>
              let denomination := denominationValues d in
              let epsilon := literal 1 3 in
              let remainder := v mod denomination in
              let isValidMultiple :=
                (remainder <? epsilon)
                || ((denomination - remainder) <? epsilon) in
              isValidMultiple
          end
    | None => true
    end.

(** *** Totals calculator: updateTotals *)

(** The body of [allFields.forEach(id => ...)]: the grand total after the
    field [id]. *)
Definition addField (s : state) (grandTotal : num) (id : field) : num :=
  let rawValue := orZero (parseFloat (cachedInputs s id)) in
  match hasDenomination id with
  | Some d =>
      if isCountMode s
      then grandTotal + rawValue * denominationValues d
      else grandTotal + rawValue
  | None => grandTotal + rawValue
  end.

(** const deductions = ['wolt', 'efood', 'mypos', 'eurobank'] *)
Definition deductions : list other := [wolt; efood; mypos; eurobank].

(** The locals of [updateTotals], in the order the function computes
    them. *)
Definition grandTotal (s : state) : num :=
  foldl (addField s) (literal 0 0) allFields + getTotalExoda s.

Definition deductionsTotal (s : state) : num :=
  foldl (fun deductionsTotal id =>
           let amount := orZero (parseFloat (cachedInputs s (Other id))) in
           deductionsTotal + amount)
        (literal 1000 0 + getTotalExoda s) deductions.

Definition cashTotal (s : state) : num :=
  grandTotal s - deductionsTotal s.

Definition cashLimTotal (s : state) : num :=
  cashTotal s + getTotalExoda s.

Definition incomeLimTotal (s : state) : num :=
  let myposAmount := orZero (parseFloat (cachedInputs s (Other mypos))) in
  let eurobankAmount := orZero (parseFloat (cachedInputs s (Other eurobank))) in
  cashTotal s + getTotalExoda s + myposAmount + eurobankAmount.

(** [formatCurrency(amount)] is [amount.toFixed(2) + '€']; the text is
    kept as the number it shows. *)
Definition formatCurrency (amount : num) : num := toFixed2 amount.

(** The text of the five output elements. *)
Record cachedOutputs := {
  grandTotalText : num;
  totalExodaText : num;
  cashTotalText : num;
  cashLimTotalText : num;
  incomeLimTotalText : num
}.

Definition updateTotals (s : state) : cachedOutputs :=
  {| grandTotalText := formatCurrency (grandTotal s);
     totalExodaText := formatCurrency (getTotalExoda s);
     cashTotalText := formatCurrency (cashTotal s);
     cashLimTotalText := formatCurrency (cashLimTotal s);
     incomeLimTotalText := formatCurrency (incomeLimTotal s) |}.

(** *** Available counts *)

(** isCountMode ? Math.round(rawValue) : Math.round(rawValue / denom) *)
Definition countOf (s : state) (id : denom) : Z :=
  let denom := denominationValues id in
  let rawValue := orZero (parseFloat (cachedInputs s (Denomination id))) in
  if isCountMode s then Math_round rawValue else Math_round (rawValue / denom).

(** The objects [billCounts] and [coinCounts], filled by
    [for (const id of denominations.bills)] and [... .coins]. *)
Definition getCounts (s : state) (ids : list denom) : gmap denom Z :=
  foldl (fun counts id => <[id := countOf s id]> counts) ∅ ids.

(** parseFloat(cachedOutputs.cashTotal.textContent.replace('€', '')) || 0:
    the text of NaN is read as NaN, the one number that is not equal to
    itself, and [NaN || 0] is 0. *)
Definition readCashTotal (out : cachedOutputs) : num :=
  let cashTotal := cashTotalText out in
  if cashTotal =? cashTotal then orZero (Some cashTotal) else literal 0 0.

(** Math.round(x * 100) / 100 *)
Definition round2 (x : num) : num :=
  ofZ (Math_round (x * literal 100 0)) / literal 100 0.

(** *** Allocation in calculateFakelos *)

(** const billDenominations = [100, 50, 20, 10, 5];
    const coinDenominations = [2, 1, 0.5, 0.2, 0.1, 0.05]; *)
Definition billDenominations : list denom :=
  [bill_100; bill_50; bill_20; bill_10; bill_5].
Definition coinDenominations : list denom :=
  [coin_2; coin_1; coin_0_5; coin_0_2; coin_0_1; coin_0_05].

(** "First, use bills": the loop over the rest [denoms] of
    [billDenominations], from the current [usedBills], [remaining] and
    [billsTotal].  [Math.min(needed, undefined)] is NaN and uses nothing. *)
Fixpoint fakelosBills (billCounts : gmap denom Z) (denoms : list denom)
    (usedBills : gmap denom Z) (remaining billsTotal : num)
  : gmap denom Z * num * num :=
  match denoms with
  | [] => (usedBills, remaining, billsTotal)
  | denom :: rest =>
      if remaining <=? literal 0 0 then (usedBills, remaining, billsTotal)
      else
        let needed := Math_floor (remaining / denominationValues denom) in
        match billCounts !! denom with
        | Some available =>
            let used := Z.min needed available in
            if (0 <? used)%Z then
              let amount := ofZ used * denominationValues denom in
              fakelosBills billCounts rest (<[denom := used]> usedBills)
                (round2 (remaining - amount)) (billsTotal + amount)
            else fakelosBills billCounts rest usedBills remaining billsTotal
        | None => fakelosBills billCounts rest usedBills remaining billsTotal
        end
  end.

(** "Then, use coins for the remainder" *)
Fixpoint fakelosCoins (coinCounts : gmap denom Z) (denoms : list denom)
    (usedCoins : gmap denom Z) (remaining coinsTotal : num)
  : gmap denom Z * num * num :=
  match denoms with
  | [] => (usedCoins, remaining, coinsTotal)
  | denom :: rest =>
      if remaining <=? literal 0 0 then (usedCoins, remaining, coinsTotal)
      else
        let needed :=
          Math_floor ((remaining + literal 1 3) / denominationValues denom) in
        match coinCounts !! denom with
        | Some available =>
            let used := Z.min needed available in
            if (0 <? used)%Z then
              let amount := ofZ used * denominationValues denom in
              fakelosCoins coinCounts rest (<[denom := used]> usedCoins)
                (round2 (remaining - amount)) (coinsTotal + amount)
            else fakelosCoins coinCounts rest usedCoins remaining coinsTotal
        | None => fakelosCoins coinCounts rest usedCoins remaining coinsTotal
        end
  end.

(** The variables of [calculateFakelos] after the two loops. *)
Record fakelosAllocation := {
  usedBills : gmap denom Z;
  usedCoins : gmap denom Z;
  remaining : num;
  billsTotal : num;
  coinsTotal : num
}.

Definition fakelosAllocate (billCounts coinCounts : gmap denom Z)
    (cashTotal : num) : fakelosAllocation :=
  let remaining := round2 cashTotal in
  let '(usedBills, remaining, billsTotal) :=
    fakelosBills billCounts billDenominations ∅ remaining (literal 0 0) in
  let '(usedCoins, remaining, coinsTotal) :=
    fakelosCoins coinCounts coinDenominations ∅ remaining (literal 0 0) in
  {| usedBills := usedBills; usedCoins := usedCoins; remaining := remaining;
     billsTotal := billsTotal; coinsTotal := coinsTotal |}.

(** Math.max(0, (counts[denom] || 0) - (used[denom] || 0)): the two counts
    are numbers of the script and are subtracted as such; the difference of
    two whole numbers is a whole number again, the one that [Math_floor]
    finds in it. *)
Definition leftOf (counts used : gmap denom Z) (denom : denom) : Z :=
  Z.max 0
    (Math_floor
       (ofZ (orZeroZ (counts !! denom)) - ofZ (orZeroZ (used !! denom)))).

(** The items of the section "ΒΑΖΕΙΣ": the denominations with
    [used[denom] && used[denom] > 0]. *)
Definition putItems (used : gmap denom Z) (denoms : list denom)
  : list (denom * Z) :=
  omap (fun denom =>
          match used !! denom with
          | Some n => if (0 <? n)%Z then Some (denom, n) else None
          | None => None
          end) denoms.

(** The items of the section "ΜΕΝΟΥΝ": every denomination with what is
    left of it. *)
Definition keepItems (counts used : gmap denom Z) (denoms : list denom)
  : list (denom * Z) :=
  (fun denom => (denom, leftOf counts used denom)) <$> denoms.

(** remainingTotal += left * denom *)
Definition addLeft (counts used : gmap denom Z) (remainingTotal : num)
    (denom : denom) : num :=
  remainingTotal + ofZ (leftOf counts used denom) * denominationValues denom.

(** What [calculateFakelos] renders. *)
Inductive fakelosView :=
  | NoCash
      (* "Δεν υπάρχουν μετρητά για φάκελο." *)
  | Breakdown
      (put : option (list (denom * Z) * num))
      (* ΒΑΖΕΙΣ: the items and their total, when something is used *)
      (keep : list (denom * Z)) (keepTotal : num)
      (* ΜΕΝΟΥΝ: what is left of every denomination, and its total *)
      (nothingAvailable : bool)
      (* "Δεν υπάρχουν διαθέσιμα χαρτονομίσματα ή κέρματα." *)
      (missing : option num).
      (* Λείπουν: the uncovered amount, when above 0.001 *)

Definition calculateFakelos (s : state) (out : cachedOutputs) : fakelosView :=
  let cashTotal := readCashTotal out in
  let billCounts := getCounts s denominations_bills in
  let coinCounts := getCounts s denominations_coins in
  let a := fakelosAllocate billCounts coinCounts cashTotal in
  let grandTotal := billsTotal a + coinsTotal a in
  if cashTotal <=? literal 0 0 then NoCash
  else
    let hasBills := negb (bool_decide (usedBills a = ∅)) in
    let hasCoins := negb (bool_decide (usedCoins a = ∅)) in
    let put :=
      if hasBills || hasCoins then
        Some (putItems (usedBills a) billDenominations
                ++ putItems (usedCoins a) coinDenominations,
              toFixed2 grandTotal)
      else None in
    let remainingTotal :=
      foldl (addLeft coinCounts (usedCoins a))
        (foldl (addLeft billCounts (usedBills a)) (literal 0 0)
           billDenominations)
        coinDenominations in
    Breakdown put
      (keepItems billCounts (usedBills a) billDenominations
         ++ keepItems coinCounts (usedCoins a) coinDenominations)
      (toFixed2 remainingTotal)
      (negb hasBills && negb hasCoins)
      (if literal 1 3 <? remaining a then Some (toFixed2 (remaining a))
       else None).

(** *** Allocation in showStelno *)

(** const billDenoms = [100, 50, 20, 10, 5];
    const coinDenoms = [2, 1, 0.5, 0.2, 0.1, 0.05]; *)
Definition billDenoms : list denom :=
  [bill_100; bill_50; bill_20; bill_10; bill_5].
Definition coinDenoms : list denom :=
  [coin_2; coin_1; coin_0_5; coin_0_2; coin_0_1; coin_0_05].

Fixpoint stelnoBills (billCounts : gmap denom Z) (denoms : list denom)
    (usedBills : gmap denom Z) (remaining : num) : gmap denom Z * num :=
  match denoms with
  | [] => (usedBills, remaining)
  | denom :: rest =>
      if remaining <=? literal 0 0 then (usedBills, remaining)
      else
        let needed := Math_floor (remaining / denominationValues denom) in
        let used := Z.min needed (orZeroZ (billCounts !! denom)) in
        if (0 <? used)%Z then
          stelnoBills billCounts rest (<[denom := used]> usedBills)
            (round2 (remaining - ofZ used * denominationValues denom))
        else stelnoBills billCounts rest usedBills remaining
  end.

Fixpoint stelnoCoins (coinCounts : gmap denom Z) (denoms : list denom)
    (usedCoins : gmap denom Z) (remaining : num) : gmap denom Z * num :=
  match denoms with
  | [] => (usedCoins, remaining)
  | denom :: rest =>
      if remaining <=? literal 0 0 then (usedCoins, remaining)
      else
        let needed :=
          Math_floor ((remaining + literal 1 3) / denominationValues denom) in
        let used := Z.min needed (orZeroZ (coinCounts !! denom)) in
        if (0 <? used)%Z then
          stelnoCoins coinCounts rest (<[denom := used]> usedCoins)
            (round2 (remaining - ofZ used * denominationValues denom))
        else stelnoCoins coinCounts rest usedCoins remaining
  end.

(** The variables of [showStelno] after its two loops. *)
Record stelnoAllocation := {
  stelnoUsedBills : gmap denom Z;
  stelnoUsedCoins : gmap denom Z;
  stelnoRemaining : num
}.

Definition stelnoAllocate (billCounts coinCounts : gmap denom Z)
    (cashTotal : num) : stelnoAllocation :=
  let remaining := round2 cashTotal in
  let '(usedBills, remaining) :=
    stelnoBills billCounts billDenoms ∅ remaining in
  let '(usedCoins, remaining) :=
    stelnoCoins coinCounts coinDenoms ∅ remaining in
  {| stelnoUsedBills := usedBills; stelnoUsedCoins := usedCoins;
     stelnoRemaining := remaining |}.

(** What [showStelno] puts in the popup: the three totals as displayed,
    what is left of every bill and coin, and the safe. *)
Record stelnoView := {
  tameioVal : num;
  cashVal : num;
  exodaVal : num;
  billsLeft : list (denom * Z);
  coinsLeft : list (denom * Z);
  kermataVal : num
}.

Definition showStelno (s : state) (out : cachedOutputs) : stelnoView :=
  let billCounts := getCounts s denominations_bills in
  let coinCounts := getCounts s denominations_coins in
  let a := stelnoAllocate billCounts coinCounts (readCashTotal out) in
  {| tameioVal := grandTotalText out;
     cashVal := cashTotalText out;
     exodaVal := totalExodaText out;
     billsLeft := keepItems billCounts (stelnoUsedBills a) billDenoms;
     coinsLeft := keepItems coinCounts (stelnoUsedCoins a) coinDenoms;
     kermataVal :=
       formatCurrency (orZero (parseFloat (cachedInputs s (Other kermata)))) |}.

End Script.

Arguments inputValue : clear implicits.
Arguments state : clear implicits.
Arguments cachedOutputs : clear implicits.
Arguments fakelosAllocation : clear implicits.
Arguments fakelosView : clear implicits.
Arguments stelnoAllocation : clear implicits.
Arguments stelnoView : clear implicits.

(* ===================================================================== *)
(** ** The allocation engine, as the specification words it *)
(* ===================================================================== *)

Inductive category := Bill | Coin.

(** Bills before coins, each by descending face value. *)
Definition priority : list (category * denom) :=
  [(Bill, bill_100); (Bill, bill_50); (Bill, bill_20); (Bill, bill_10);
   (Bill, bill_5);
   (Coin, coin_2); (Coin, coin_1); (Coin, coin_0_5); (Coin, coin_0_2);
   (Coin, coin_0_1); (Coin, coin_0_05)].

Definition isBill (d : denom) : bool :=
  match d with
  | bill_100 | bill_50 | bill_20 | bill_10 | bill_5 => true
  | _ => false
  end.

Section Allocate.

Context {num : Type} `{JsNumber num}.

Local Open Scope js_scope.

(** needed = floor(r / d) for bills, floor((r + 0.001) / d) for coins *)
Definition neededOf (c : category) (r d : num) : Z :=
  match c with
  | Bill => Math_floor (r / d)
  | Coin => Math_floor ((r + literal 1 3) / d)
  end.

(** One pass over the denominations [order] with the counts [available]:
    stop once [r <= 0]; otherwise use [min(needed, available[d])] pieces of
    [d] and, when that is positive, record it, subtract their amount and
    round the rest to two decimals. *)
Fixpoint allocate (available : denom -> Z) (order : list (category * denom))
    (used : gmap denom Z) (r : num) : gmap denom Z * num :=
  match order with
  | [] => (used, r)
  | (c, d) :: rest =>
      if r <=? literal 0 0 then (used, r)
      else
        let needed := neededOf c r (denominationValues d) in
        let n := Z.min needed (available d) in
        if (0 <? n)%Z then
          allocate available rest (<[d := n]> used)
            (round2 (r - ofZ n * denominationValues d))
        else allocate available rest used r
  end.

(** The count the script finds for a denomination in a counts object. *)
Definition availableIn (counts : gmap denom Z) (d : denom) : Z :=
  orZeroZ (counts !! d).

Definition availableOf (billCounts coinCounts : gmap denom Z) (d : denom) : Z :=
  if isBill d then availableIn billCounts d else availableIn coinCounts d.

End Allocate.

(* ===================================================================== *)
(** ** What the views report, and the laws of the arithmetic *)
(* ===================================================================== *)

(** The stock of two scenarios: five coins of 2, five of 1, two of 0.5 and
    one of 0.2, no bills; and one bill of 100 and one of 50, no coins. *)
Definition noBills : gmap denom Z :=
  list_to_map [(bill_100, 0); (bill_50, 0); (bill_20, 0); (bill_10, 0);
               (bill_5, 0)].
Definition noCoins : gmap denom Z :=
  list_to_map [(coin_2, 0); (coin_1, 0); (coin_0_5, 0); (coin_0_2, 0);
               (coin_0_1, 0); (coin_0_05, 0)].
Definition someCoins : gmap denom Z :=
  list_to_map [(coin_2, 5); (coin_1, 5); (coin_0_5, 2); (coin_0_2, 1);
               (coin_0_1, 0); (coin_0_05, 0)].
Definition twoBills : gmap denom Z :=
  list_to_map [(bill_100, 1); (bill_50, 1); (bill_20, 0); (bill_10, 0);
               (bill_5, 0)].

(** The same stocks as the counts typed into the fields. *)
Definition someCoinsTyped (d : denom) : Z :=
  match d with
  | coin_2 => 5 | coin_1 => 5 | coin_0_5 => 2 | coin_0_2 => 1
  | _ => 0
  end.

(** A denomination's face value in cents. *)
Definition faceCents (d : denom) : Z :=
  match d with
  | bill_100 => 10000 | bill_50 => 5000 | bill_20 => 2000 | bill_10 => 1000
  | bill_5 => 500
  | coin_2 => 200 | coin_1 => 100 | coin_0_5 => 50 | coin_0_2 => 20
  | coin_0_1 => 10 | coin_0_05 => 5
  end.

(** The pieces [used] of the denominations [denoms], in cents. *)
Definition usedCents (used : gmap denom Z) (denoms : list denom) : Z :=
  foldr (fun d acc => orZeroZ (used !! d) * faceCents d + acc) 0 denoms.

Section Reading.

Context {num : Type} `{JsNumber num}.

Local Open Scope js_scope.

(** The pieces listed under "ΒΑΖΕΙΣ". *)
Definition usedItems (v : fakelosView num) : list (denom * Z) :=
  match v with
  | Breakdown (Some (items, _)) _ _ _ _ => items
  | _ => []
  end.

(** The amount shown after "Λείπουν:", 0 when the warning is not shown. *)
Definition remainingUncovered (v : fakelosView num) : num :=
  match v with
  | Breakdown _ _ _ _ (Some r) => r
  | _ => literal 0 0
  end.

(** The amount of the pieces [used] of the denominations [denoms]:
    the sum of [used[d] * d]. *)
Definition usedAmount (used : gmap denom Z) (denoms : list denom) : num :=
  foldr (fun d acc => ofZ (orZeroZ (used !! d)) * denominationValues d + acc)
        (literal 0 0) denoms.

(** A deduction channel's amount: its field parsed as a plain value. *)
Definition deductionChannel (s : state num) (id : other) : num :=
  orZero (parseFloat (cachedInputs s (Other id))).

(** The state with the mode flag set to [countMode], all else the same. *)
Definition withMode (countMode : bool) (s : state num) : state num :=
  {| isCountMode := countMode;
     currentExodaCount := currentExodaCount s;
     cachedInputs := cachedInputs s;
     exodaInputs := exodaInputs s;
     exodaDescInputs := exodaDescInputs s |}.

(** A fresh page: amount mode, one empty exoda field, every input empty. *)
Definition blankState : state num :=
  {| isCountMode := false;
     currentExodaCount := 1;
     cachedInputs := fun _ => Blank;
     exodaInputs := {[ 1%nat := Blank ]};
     exodaDescInputs := ∅ |}.

(** Count mode, with the piece counts [counts] typed into the denomination
    fields and everything else empty. *)
Definition countState (counts : denom -> Z) : state num :=
  {| isCountMode := true;
     currentExodaCount := 1;
     cachedInputs := fun id =>
       match id with
       | Denomination d => Text (Some (ofZ (counts d)))
       | _ => Blank
       end;
     exodaInputs := {[ 1%nat := Blank ]};
     exodaDescInputs := ∅ |}.

(** Outputs showing [cash] as the cash total and 0 elsewhere. *)
Definition outputsWithCash (cash : num) : cachedOutputs num :=
  {| grandTotalText := literal 0 0;
     totalExodaText := literal 0 0;
     cashTotalText := cash;
     cashLimTotalText := literal 0 0;
     incomeLimTotalText := literal 0 0 |}.

(** Count to amount and back, on one input. *)
Definition roundTrip (d : denom) (value : inputValue num) : inputValue num :=
  convertField true d (convertField false d value).

(** [x] is within [eps] of [y]. *)
Definition within (eps x y : num) : bool :=
  ((x - y) <? eps) && ((y - x) <? eps).

(** The validation predicate as the specification words it: empty input is
    valid; a denomination field in count mode is valid iff the parsed value
    is a non-negative integer, in amount mode iff the parsed value modulo the
    face value is within 0.001 of 0 or of the face value; any other field is
    valid. *)
Definition specValid (countMode : bool) (id : field) (value : inputValue num)
  : bool :=
  if isBlank value then true
  else
    match hasDenomination id with
    | Some d =>
        match parseFloat value with
        | None => false
        | Some v =>
            if countMode then Number_isInteger v && (literal 0 0 <=? v)
            else
              let remainder := v mod denominationValues d in
              within (literal 1 3) remainder (literal 0 0)
              || within (literal 1 3) remainder (denominationValues d)
        end
    | None => true
    end.

(** Three exoda fields holding 10, 20 and 30, each with a description. *)
Definition threeExoda : state num :=
  {| isCountMode := false;
     currentExodaCount := 3;
     cachedInputs := fun _ => Blank;
     exodaInputs :=
       {[ 1%nat := Text (Some (literal 10 0));
          2%nat := Text (Some (literal 20 0));
          3%nat := Text (Some (literal 30 0)) ]};
     exodaDescInputs :=
       {[ 1%nat := "rent"%string; 2%nat := "fuel"%string;
          3%nat := "bread"%string ]} |}.

End Reading.

(** What the proofs about a non-positive target need of the order: a
    non-positive amount stays non-positive through
    [Math.round(x * 100) / 100], and is not above 0.001. *)
Class JsNumberLaws (num : Type) `{JsNumber num} : Prop := {
  round2_nonpos : forall x : num,
    (x <=? literal 0 0)%js = true -> (round2 x <=? literal 0 0)%js = true;
  nonpos_not_above : forall x : num,
    (x <=? literal 0 0)%js = true -> (literal 1 3 <? x)%js = false
}.

(* ===================================================================== *)
(** ** Typed text: handleCommaInput *)
(* ===================================================================== *)

(** The text of an input while it is typed, as the list of its characters.
    The script tells the digits, the comma, the dot and the minus sign from
    everything else; any other character is one the filter removes. *)
Abbreviation text := (list ascii) (only parsing).

(** [\d] *)
Definition isDigit (c : ascii) : bool :=
  (Ascii.leb "0" c) && (Ascii.leb c "9").

(** value.replace(/,/g, '.') *)
Definition replaceCommas (value : text) : text :=
  (fun c => if Ascii.eqb c "," then "."%char else c) <$> value.

(** [^\d.-] is what the second replace removes *)
Definition isNumeric (c : ascii) : bool :=
  isDigit c || Ascii.eqb c "." || Ascii.eqb c "-".

(** value.replace(/[^\d.-]/g, '') *)
Definition keepNumeric (value : text) : text := List.filter isNumeric value.

(** value.split(sep): the parts between the separators; one part, the
    whole text, when there is none. *)
Fixpoint split (sep : ascii) (value : text) : list text :=
  match value with
  | [] => [[]]
  | c :: rest =>
      if Ascii.eqb c sep then [] :: split sep rest
      else
        match split sep rest with
        | part :: parts => (c :: part) :: parts
        | [] => [[c]]
        end
  end.

(** parts.join('') *)
Definition join (parts : list text) : text := concat parts.

(** The new value of the input; the cursor is put back where it was. *)
Definition handleCommaInput (value : text) : text :=
  (* Replace commas with dots *)
  let value := replaceCommas value in
  (* Remove any characters that aren't digits, dots, or minus *)
  let value := keepNumeric value in
  (* Ensure only one dot *)
  let parts := split "." value in
  if (2 <? length parts)%nat then
    hd [] parts ++ "."%char :: join (tl parts)
  else value.

(** A decimal separator as typed: a comma or a dot. *)
Definition isSeparator (c : ascii) : bool :=
  Ascii.eqb c "," || Ascii.eqb c ".".

(** The digits and minus signs of a text, in their order. *)
Definition digitsAndMinus (value : text) : text :=
  List.filter (fun c => isDigit c || Ascii.eqb c "-") value.

(** The number of dots of a text. *)
Definition dots (value : text) : nat :=
  length (List.filter (fun c => Ascii.eqb c ".") value).

(* ===================================================================== *)
(** ** Saved values: saveAllValues, restoreAllValues, resetAll, the theme *)
(* ===================================================================== *)

Definition other_index (o : other) : nat :=
  match o with
  | kermata => 0 | wolt => 1 | efood => 2 | mypos => 3 | eurobank => 4
  end%nat.

Definition other_of_index (n : nat) : other :=
  match n with
  | 0 => kermata | 1 => wolt | 2 => efood | 3 => mypos | _ => eurobank
  end%nat.

#[global] Instance other_countable : Countable other.
Proof.
  apply (inj_countable' other_index other_of_index).
  intros []; reflexivity.
Defined.

Definition field_code (id : field) : denom + other + nat :=
  match id with
  | Denomination d => inl (inl d)
  | Other o => inl (inr o)
  | Exoda i => inr i
  end.

Definition field_of_code (c : denom + other + nat) : field :=
  match c with
  | inl (inl d) => Denomination d
  | inl (inr o) => Other o
  | inr i => Exoda i
  end.

#[global] Instance field_countable : Countable field.
Proof.
  apply (inj_countable' field_code field_of_code).
  intros []; reflexivity.
Defined.

(** The icon of the theme button: the sun in dark mode, the moon in light
    mode. *)
Inductive icon := Sun | Moon.

(** What the page shows of the theme: whether [document.body] has the class
    ['dark-mode'], and the text of ['.theme-icon']. *)
Record theme := {
  darkModeClass : bool;
  themeIcon : icon
}.

Section Storage.

Context {num : Type} `{JsNumber num}.

(** The object [values] of [saveAllValues], which is stored as JSON text:
    the texts of the inputs under their ids, and, in the version with
    description inputs, the descriptions under [`exoda-desc-${i}`] and the
    name under ['user-name'].  Only texts that are not empty are stored. *)
Record savedValues := {
  fieldValues : gmap field (inputValue num);
  descValues : gmap nat string;
  nameValue : option string
}.

(** The items of [localStorage] that the script writes, each as the value
    whose text is stored: ['allValues'] holds the object above,
    ['allValuesSavedAt'] a time in milliseconds, ['exodaCount'] a count,
    ['countMode'] and ['darkMode'] the texts ['true'] and ['false'].
    [None] is an item that is not there. *)
Record localStorage := {
  allValues : option savedValues;
  allValuesSavedAt : option Z;
  exodaCount : option nat;
  countMode : option bool;
  darkMode : option bool
}.

(** "Save all main fields (bills, coins, other)" *)
Definition saveMainFields (s : state num)
    (values : gmap field (inputValue num)) : gmap field (inputValue num) :=
  foldl (fun values id =>
           if isBlank (cachedInputs s id) then values
           else <[id := cachedInputs s id]> values)
        values allFields.

(** "Save exoda fields" *)
Definition saveExodaFields (s : state num)
    (values : gmap field (inputValue num)) : gmap field (inputValue num) :=
  foldl (fun values i =>
           match exodaInputs s !! i with
           | Some value =>
               if isBlank value then values else <[Exoda i := value]> values
           | None => values
           end)
        values (from1 (currentExodaCount s)).

(** function saveAllValues() of script.js, at the time [now] of
    [Date.now()] *)
Definition saveAllValues (now : Z) (s : state num) (ls : localStorage)
  : localStorage :=
  let values :=
    {| fieldValues := saveExodaFields s (saveMainFields s ∅);
       descValues := ∅;
       nameValue := None |} in
  {| allValues := Some values;
     allValuesSavedAt := Some now;
     exodaCount := exodaCount ls;
     countMode := Some (isCountMode s);
     darkMode := darkMode ls |}.

(** "Restore main fields" *)
Definition restoreMainFields (values : gmap field (inputValue num))
    (inputs : field -> inputValue num) : field -> inputValue num :=
  foldl (fun inputs id =>
           match values !! id with
           | Some value => if isBlank value then inputs else <[id := value]> inputs
           | None => inputs
           end)
        inputs allFields.

(** "Restore exoda fields" *)
Definition restoreExodaFields (values : gmap field (inputValue num))
    (count : nat) (inputs : gmap nat (inputValue num))
  : gmap nat (inputValue num) :=
  foldl (fun inputs i =>
           match inputs !! i, values !! Exoda i with
           | Some _, Some value =>
               if isBlank value then inputs else <[i := value]> inputs
           | _, _ => inputs
           end)
        inputs (from1 count).

(** function restoreAllValues(): the items left in the storage and the
    page.  Saved values expire after one hour. *)
Definition restoreAllValues (now : Z) (ls : localStorage) (s : state num)
  : localStorage * state num :=
  let expired :=
    match allValuesSavedAt ls with
    | Some savedAt => 3600000 <? now - savedAt
    | None => false
    end in
  if expired then
    ({| allValues := None;
        allValuesSavedAt := None;
        exodaCount := None;
        countMode := countMode ls;
        darkMode := darkMode ls |}, s)
  else
    (* Restore count mode *)
    let mode :=
      match countMode ls with
      | Some true => true
      | _ => isCountMode s
      end in
    match allValues ls with
    | None =>
        (ls, {| isCountMode := mode;
                currentExodaCount := currentExodaCount s;
                cachedInputs := cachedInputs s;
                exodaInputs := exodaInputs s;
                exodaDescInputs := exodaDescInputs s |})
    | Some values =>
        (ls, {| isCountMode := mode;
                currentExodaCount := currentExodaCount s;
                cachedInputs :=
                  restoreMainFields (fieldValues values) (cachedInputs s);
                exodaInputs :=
                  restoreExodaFields (fieldValues values) (currentExodaCount s)
                    (exodaInputs s);
                exodaDescInputs := exodaDescInputs s |})
    end.

(** The version with description inputs has two more inputs, the name and
    the date. *)
Record stateWithName := {
  inputsOf : state num;
  userName : string;
  userDate : string
}.

(** "Save exoda fields (amounts and descriptions)": the descriptions *)
Definition saveExodaDescs (s : state num) (descs : gmap nat string)
  : gmap nat string :=
  foldl (fun descs i =>
           match exodaDescInputs s !! i with
           | Some value =>
               if String.eqb value "" then descs else <[i := value]> descs
           | None => descs
           end)
        descs (from1 (currentExodaCount s)).

(** function saveAllValues() of the version with description inputs *)
Definition saveAllValuesDesc (now : Z) (p : stateWithName) (ls : localStorage)
  : localStorage :=
  let s := inputsOf p in
  let values :=
    {| fieldValues := saveExodaFields s (saveMainFields s ∅);
       descValues := saveExodaDescs s ∅;
       nameValue :=
         if String.eqb (userName p) "" then None else Some (userName p) |} in
  {| allValues := Some values;
     allValuesSavedAt := Some now;
     exodaCount := exodaCount ls;
     countMode := Some (isCountMode s);
     darkMode := darkMode ls |}.

(** "Restore exoda fields (amounts and descriptions)": the descriptions *)
Definition restoreExodaDescs (descs : gmap nat string) (count : nat)
    (inputs : gmap nat string) : gmap nat string :=
  foldl (fun inputs i =>
           match inputs !! i, descs !! i with
           | Some _, Some value =>
               if String.eqb value "" then inputs else <[i := value]> inputs
           | _, _ => inputs
           end)
        inputs (from1 count).

(** function restoreAllValues() of the version with description inputs;
    the date is not saved: it is set to today on load. *)
Definition restoreAllValuesDesc (now : Z) (ls : localStorage) (p : stateWithName)
  : localStorage * stateWithName :=
  let s := inputsOf p in
  let expired :=
    match allValuesSavedAt ls with
    | Some savedAt => 3600000 <? now - savedAt
    | None => false
    end in
  if expired then
    ({| allValues := None;
        allValuesSavedAt := None;
        exodaCount := None;
        countMode := countMode ls;
        darkMode := darkMode ls |}, p)
  else
    let mode :=
      match countMode ls with
      | Some true => true
      | _ => isCountMode s
      end in
    match allValues ls with
    | None =>
        (ls, {| inputsOf :=
                  {| isCountMode := mode;
                     currentExodaCount := currentExodaCount s;
                     cachedInputs := cachedInputs s;
                     exodaInputs := exodaInputs s;
                     exodaDescInputs := exodaDescInputs s |};
                userName := userName p;
                userDate := userDate p |})
    | Some values =>
        (ls, {| inputsOf :=
                  {| isCountMode := mode;
                     currentExodaCount := currentExodaCount s;
                     cachedInputs :=
                       restoreMainFields (fieldValues values) (cachedInputs s);
                     exodaInputs :=
                       restoreExodaFields (fieldValues values)
                         (currentExodaCount s) (exodaInputs s);
                     exodaDescInputs :=
                       restoreExodaDescs (descValues values)
                         (currentExodaCount s) (exodaDescInputs s) |};
                userName :=
                  match nameValue values with
                  | Some name => if String.eqb name "" then userName p else name
                  | None => userName p
                  end;
                userDate := userDate p |})
    end.

(** function resetAll(), with the answer [confirmed] to its question.
    [document.querySelectorAll('input[type="text"]')] finds the exoda
    inputs, which the script creates with that type, and those of the fixed
    inputs that the page declares with it ([isTextInput]). *)
Definition resetAll (isTextInput : field -> bool) (confirmed : bool)
    (ls : localStorage) (s : state num) : localStorage * state num :=
  if confirmed then
    ({| allValues := None;
        allValuesSavedAt := None;
        exodaCount := None;
        countMode := None;
        darkMode := darkMode ls |},
     {| isCountMode := false;
        currentExodaCount := currentExodaCount s;
        cachedInputs := fun id =>
          if isTextInput id then Blank else cachedInputs s id;
        exodaInputs := (fun _ => Blank) <$> exodaInputs s;
        exodaDescInputs := (fun _ => ""%string) <$> exodaDescInputs s |})
  else (ls, s).

(** function toggleTheme() *)
Definition toggleTheme (page : theme) (ls : localStorage)
  : theme * localStorage :=
  let isDarkMode := negb (darkModeClass page) in
  ({| darkModeClass := isDarkMode;
      themeIcon := if isDarkMode then Sun else Moon |},
   {| allValues := allValues ls;
      allValuesSavedAt := allValuesSavedAt ls;
      exodaCount := exodaCount ls;
      countMode := countMode ls;
      darkMode := Some isDarkMode |}).

(** function loadTheme() *)
Definition loadTheme (ls : localStorage) (page : theme) : theme :=
  let isDarkMode :=
    match darkMode ls with
    | Some true => true
    | _ => false
    end in
  if isDarkMode then {| darkModeClass := true; themeIcon := Sun |} else page.

(** The script's globals when [init] starts, on a page whose inputs are
    empty: amount mode, the count 1, no exoda input created yet. *)
Definition emptyPage : state num :=
  {| isCountMode := false;
     currentExodaCount := 1;
     cachedInputs := fun _ => Blank;
     exodaInputs := ∅;
     exodaDescInputs := ∅ |}.

(** The page has the exoda inputs 1..currentExodaCount and no other, as
    [createExodaFields] leaves it. *)
Definition exodaFieldsCreated (s : state num) : Prop :=
  forall i, is_Some (exodaInputs s !! i) <-> (1 <= i <= currentExodaCount s)%nat.

(** ... and likewise the description inputs. *)
Definition exodaDescsCreated (s : state num) : Prop :=
  forall i, is_Some (exodaDescInputs s !! i) <-> (1 <= i <= currentExodaCount s)%nat.

End Storage.

Arguments savedValues : clear implicits.
Arguments localStorage : clear implicits.
Arguments stateWithName : clear implicits.

(* ===================================================================== *)
(** ** What the inputs stand for *)
(* ===================================================================== *)

Section Amounts.

Context {num : Type} `{JsNumber num}.

Local Open Scope js_scope.

(** What the input of a denomination adds to the grand total in
    [updateTotals]: its value, times the face value in count mode. *)
Definition amountOf (s : state num) (d : denom) : num :=
  let rawValue := orZero (parseFloat (cachedInputs s (Denomination d))) in
  if isCountMode s then rawValue * denominationValues d else rawValue.

(** An amount that is a whole number of pieces of [d]; so is an input that
    is empty or not a number. *)
Definition wholeMultiple (d : denom) (value : inputValue num) : bool :=
  match parseFloat value with
  | Some v => Number_isInteger (v / denominationValues d)
  | None => true
  end.

End Amounts.

(** The amount that count mode turns the count [c] of [d] into is valid in
    amount mode, on doubles. *)
Definition amountOfCountValid (d : denom) (c : Z) : bool :=
  validateInput (num := Binary64.b64) false (Denomination d)
    (convertField false d (Text (Some (ofZ c)))).

(** ... for the [n] counts from [c] on. *)
Fixpoint amountsOfCountsValid (d : denom) (c : Z) (n : nat) : bool :=
  match n with
  | O => true
  | S n' => amountOfCountValid d c && amountsOfCountsValid d (c + 1) n'
  end.

(** The largest count the converted amount is checked for. *)
Definition convertedCount : Z := 1000.

Section Kept.

Context {num : Type} `{JsNumber num}.

(** The total under "ΜΕΝΟΥΝ" in [calculateFakelos], before it is printed:
    [remainingTotal] after the two loops over what is left. *)
Definition remainingTotal (billCounts coinCounts : gmap denom Z)
    (a : fakelosAllocation num) : num :=
  foldl (addLeft coinCounts (usedCoins a))
    (foldl (addLeft billCounts (usedBills a)) (literal 0 0) billDenominations)
    coinDenominations.

End Kept.

(* ===================================================================== *)
(** ** Delayed calls: debounce *)
(* ===================================================================== *)

Section Debounce.

(** The arguments that the debounced function is called with. *)
Context {A : Type}.

(** The timers that the function returned by [debounce(func, wait)] has
    set and that have neither fired nor been cleared, each with the time it
    is due and the arguments its [later] will pass on; and the id that the
    next [setTimeout] returns.  The timers of the rest of the page have
    other ids. *)
Record timers := {
  pending : gmap nat (Z * A);
  nextId : nat
}.

(** setTimeout(later, delay) at the time [now]: a timer under a new id *)
Definition setTimeout (now delay : Z) (args : A) (t : timers) : nat * timers :=
  (nextId t,
   {| pending := <[nextId t := (now + delay, args)]> (pending t);
      nextId := S (nextId t) |}).

(** clearTimeout(id); [None] is [undefined], which clears nothing *)
Definition clearTimeout (id : option nat) (t : timers) : timers :=
  match id with
  | Some i => {| pending := delete i (pending t); nextId := nextId t |}
  | None => t
  end.

(** The closure of [debounce]: its variable [timeout], and the timers. *)
Record debounced := {
  timeout : option nat;
  page : timers
}.

(** debounce(func, wait): [let timeout;] and the returned function *)
Definition debounce : debounced :=
  {| timeout := None; page := {| pending := ∅; nextId := 1 |} |}.

(** executedFunction(...args), called at the time [now] *)
Definition executedFunction (wait now : Z) (args : A) (st : debounced)
  : debounced :=
  let t := clearTimeout (timeout st) (page st) in
  let '(id, t) := setTimeout now wait args t in
  {| timeout := Some id; page := t |}.

(** later(): [clearTimeout(timeout); func(...args)]; the result is the
    arguments that [func] is called with. *)
Definition later (args : A) (st : debounced) : A * debounced :=
  (args, {| timeout := timeout st; page := clearTimeout (timeout st) (page st) |}).

(** The browser runs the timer [id] at the time [now]: a pending timer
    that is due is taken off the list and its callback is run. *)
Definition fire (now : Z) (id : nat) (st : debounced) : option (A * debounced) :=
  match pending (page st) !! id with
  | Some (due, args) =>
      if due <=? now then
        Some (later args
                {| timeout := timeout st;
                   page := {| pending := delete id (pending (page st));
                              nextId := nextId (page st) |} |})
      else None
  | None => None
  end.

(** What happens to the debounced function: it is called, or the browser
    runs one of its timers. *)
Inductive event :=
  | Call (now : Z) (args : A)
  | Timer (now : Z) (id : nat).

(** The calls of [func] over a sequence of events, in their order; [None]
    when the sequence runs a timer that is not pending or not due. *)
Fixpoint run (wait : Z) (trace : list event) (st : debounced)
  : option (list A * debounced) :=
  match trace with
  | [] => Some ([], st)
  | Call now args :: rest => run wait rest (executedFunction wait now args st)
  | Timer now id :: rest =>
      match fire now id st with
      | Some (args, st') =>
          match run wait rest st' with
          | Some (calls, st'') => Some (args :: calls, st'')
          | None => None
          end
      | None => None
      end
  end.

(** The arguments of the calls that a timer event follows directly, after
    a call with the arguments [last] if there is one. *)
Fixpoint settled (last : option A) (trace : list event) : list A :=
  match trace with
  | [] => []
  | Call _ args :: rest => settled (Some args) rest
  | Timer _ _ :: rest =>
      match last with
      | Some args => args :: settled None rest
      | None => settled None rest
      end
  end.

(** Every timer event follows a call directly, no earlier than [wait]
    after it. *)
Fixpoint inTime (wait : Z) (last : option Z) (trace : list event) : bool :=
  match trace with
  | [] => true
  | Call now _ :: rest => inTime wait (Some now) rest
  | Timer now _ :: rest =>
      match last with
      | Some called => (called + wait <=? now) && inTime wait None rest
      | None => false
      end
  end.

(** What the closure holds right after a call at the time [called] with
    [args] -- the one timer of that call, which [timeout] names -- and
    what it holds otherwise: no timer. *)
Definition awaiting (wait : Z) (last : option (Z * A)) (st : debounced) : Prop :=
  match last with
  | Some (called, args) =>
      exists id, timeout st = Some id
                 /\ pending (page st) = {[ id := (called + wait, args) ]}
  | None => pending (page st) = ∅
  end.

End Debounce.

Arguments timers : clear implicits.
Arguments debounced : clear implicits.
Arguments event : clear implicits.

(* ===================================================================== *)
(** ** The date field: formatDateDMY *)
(* ===================================================================== *)

(** What [formatDateDMY] reads of a [Date]: the day of the month, the
    month counted from 0, and the year. *)
Record date := {
  getDate : Z;
  getMonth : Z;
  getFullYear : Z
}.

(** [String(n)] for an integer [n]: its decimal digits, after a minus sign
    when it is negative. *)
Definition String_ofZ (n : Z) : string :=
  NilZero.string_of_int (Z.to_int n).

(** [s.padStart(2, '0')] *)
Definition padStart2 (s : string) : string :=
  match String.length s with
  | O => "00"
  | S O => String "0" s
  | _ => s
  end.

(** function formatDateDMY(date) *)
Definition formatDateDMY (date : date) : string :=
  let dd := padStart2 (String_ofZ (getDate date)) in
  let mm := padStart2 (String_ofZ (getMonth date + 1)) in
  dd ++ "/" ++ mm ++ "/" ++ String_ofZ (getFullYear date).

(** The value of a decimal digit. *)
Definition digitValue (c : ascii) : Z := Z.of_nat (nat_of_ascii c) - 48.

(** Two digits that read [n]. *)
Definition twoDigits (n : Z) (s : string) : bool :=
  match s with
  | String a (String b EmptyString) =>
      (0 <=? digitValue a) && (digitValue a <=? 9)
      && (0 <=? digitValue b) && (digitValue b <=? 9)
      && (digitValue a * 10 + digitValue b =? n)
  | _ => false
  end.

(* ===================================================================== *)
(** ** The calendar: initCalendar, renderCalendar *)
(* ===================================================================== *)

(** [new Date(year, month, day)] for a day that the month has: a year from
    0 to 99 stands for 1900 to 1999, and a month outside 0..11 carries
    into the year. *)
Definition newDate (year month day : Z) : date :=
  let year := if (0 <=? year) && (year <=? 99) then 1900 + year else year in
  {| getDate := day;
     getMonth := month mod 12;
     getFullYear := year + month / 12 |}.

(** [date.setMonth(month)] for a date whose day the new month has: a month
    outside 0..11 carries into the year. *)
Definition setMonth (month : Z) (d : date) : date :=
  {| getDate := getDate d;
     getMonth := month mod 12;
     getFullYear := getFullYear d + month / 12 |}.

(** The two globals of the calendar. *)
Record calendar := {
  calendarViewDate : date;
  calendarSelectedDate : date
}.

(** What [initCalendar(today)] sets them to. *)
Definition initCalendar (today : date) : calendar :=
  {| calendarViewDate := newDate (getFullYear today) (getMonth today) 1;
     calendarSelectedDate := today |}.

(** The click on [cal-prev] and on [cal-next]. *)
Definition calendarPrev (c : calendar) : calendar :=
  {| calendarViewDate :=
       setMonth (getMonth (calendarViewDate c) - 1) (calendarViewDate c);
     calendarSelectedDate := calendarSelectedDate c |}.

Definition calendarNext (c : calendar) : calendar :=
  {| calendarViewDate :=
       setMonth (getMonth (calendarViewDate c) + 1) (calendarViewDate c);
     calendarSelectedDate := calendarSelectedDate c |}.

(** The click on the button of the day [d] of the month in view: the new
    globals and the text put into the date input. *)
Definition calendarPick (d : Z) (c : calendar) : calendar * string :=
  let year := getFullYear (calendarViewDate c) in
  let month := getMonth (calendarViewDate c) in
  let selected := newDate year month d in
  ({| calendarViewDate := calendarViewDate c;
      calendarSelectedDate := selected |},
   formatDateDMY selected).

(** A cell of the grid: an empty one before the first day, or the button
    of a day with its classes ['cal-today'] and ['cal-selected']. *)
Inductive cell :=
  | EmptyCell
  | DayCell (day : Z) (isToday isSelected : bool).

Section RenderCalendar.

(** What the [Date] object knows of the calendar: the day of the week of a
    date, 0 for Sunday, and the number of days of a month, which is
    [new Date(year, month + 1, 0).getDate()]. *)
Variable getDay : date -> Z.
Variable daysOfMonth : Z -> Z -> Z.

(** The cells that [renderCalendar] writes after the names of the days,
    Monday first; [today] is [new Date()] at midnight. *)
Definition renderCalendar (today : date) (c : calendar) : list cell :=
  let year := getFullYear (calendarViewDate c) in
  let month := getMonth (calendarViewDate c) in
  let firstDay := newDate year month 1 in
  let startDay := getDay firstDay - 1 in
  let startDay := if startDay <? 0 then 6 else startDay in
  let daysInMonth := daysOfMonth year month in
  ((fun _ => EmptyCell) <$> seqZ 0 startDay)
  ++ ((fun day =>
         let date := newDate year month day in
         let isToday :=
           (getDate date =? getDate today)
           && (getMonth date =? getMonth today)
           && (getFullYear date =? getFullYear today) in
         let isSelected :=
           (getDate date =? getDate (calendarSelectedDate c))
           && (getMonth date =? getMonth (calendarSelectedDate c))
           && (getFullYear date =? getFullYear (calendarSelectedDate c)) in
         DayCell day isToday isSelected) <$> seqZ 1 daysInMonth).

End RenderCalendar.

(** Where [openCalendar] puts the dropdown of width [dw] and height [dh]
    for the date input at [rectLeft], [rectTop], [rectBottom], in a window
    of [innerWidth] by [innerHeight]: its [top] and [left], in exact
    arithmetic ([Exact.ltb x y] is [x < y]). *)
Definition openCalendarPosition (rectLeft rectTop rectBottom dw dh
    innerWidth innerHeight : Q) : Q * Q :=
  let top := (rectBottom + 6)%Q in
  let left := rectLeft in
  (* Keep within viewport *)
  let left :=
    if Exact.ltb (innerWidth - 8) (left + dw) then (innerWidth - dw - 8)%Q
    else left in
  let left := if Exact.ltb left 8 then 8%Q else left in
  let top :=
    if Exact.ltb (innerHeight - 8) (top + dh) then (rectTop - dh - 6)%Q
    else top in
  (top, left).

Section ExodaTotal.

Context {num : Type} `{JsNumber num}.

Local Open Scope js_scope.

(** The sum of the first [count] exoda inputs, as [getTotalExoda] adds
    them. *)
Definition totalOfFirst (count : nat) (s : state num) : num :=
  foldl (fun total i =>
           match exodaInputs s !! i with
           | Some value => total + orZero (parseFloat value)
           | None => total
           end)
        (literal 0 0) (from1 count).

End ExodaTotal.

(* ===================================================================== *)
(** ** Rounding on doubles: what the proofs measure with *)
(* ===================================================================== *)

(** What a shift record says of the quotient [N / D]: its mantissa is the
    whole part, its round bit says that the rest is at least a half, and its
    sticky bit that the rest is neither nothing nor a half. *)
Definition locates (N D : Z) (mrs : shr_record) : Prop :=
  0 < D /\ 0 <= N /\ shr_m mrs = N / D
  /\ shr_r mrs = (D <=? 2 * (N mod D))
  /\ shr_s mrs = negb ((N mod D =? 0) || (2 * (N mod D) =? D)).

(** The value of a double that is finite, and 0 for one that is not. *)
Definition b64_value (x : spec_float) : Q :=
  match x with
  | S754_finite s m e => inject_Z (cond_Zopp s (Z.pos m)) * 2 ^ e
  | _ => 0
  end.

(** Half the distance from 1 to the next double, which bounds the relative
    error of an operation that rounds to nearest. *)
Definition roundoff : Q := 1 # 9007199254740992.

(** The largest count that the round trip is proved for. *)
Definition roundTripCount : Z := 10 ^ 15.

(** Number.MAX_SAFE_INTEGER, 2^53 - 1: up to it the doubles hold every
    whole number. *)
Definition maxSafeInteger : Z := 9007199254740991.

(* ===================================================================== *)
(** ** Properties of the allocation *)
(* ===================================================================== *)

Section AllocateFacts.

Context {num : Type} `{JsNumber num}.

Local Open Scope js_scope.

(** *** The four loops of the script are passes of [allocate] *)

Lemma min_orZeroZ_pos (needed a : Z) :
  (0 <? Z.min needed (orZeroZ (Some a)))%Z = (0 <? Z.min needed a)%Z
  /\ ((0 <? Z.min needed a)%Z = true ->
      Z.min needed (orZeroZ (Some a)) = Z.min needed a).
Proof.
  unfold orZeroZ. destruct (Z.eqb_spec a 0) as [-> | Hne]; auto.
Qed.

Lemma min_zero_not_pos (needed : Z) : (0 <? Z.min needed 0)%Z = false.
Proof. apply Z.ltb_ge. apply Z.le_min_r. Qed.

Lemma fakelosBills_allocate billCounts denoms used r total :
  allocate (availableIn billCounts) (pair Bill <$> denoms) used r
  = ((fakelosBills billCounts denoms used r total).1.1,
     (fakelosBills billCounts denoms used r total).1.2).
Proof.
  revert used r total.
  induction denoms as [| d rest IH]; intros used r total; simpl; [reflexivity |].
  destruct (r <=? literal 0 0); [reflexivity |].
  unfold availableIn, neededOf.
  destruct (billCounts !! d) as [a |] eqn:Ha.
  - destruct (min_orZeroZ_pos (Math_floor (r / denominationValues d)) a)
      as [Hpos Hmin].
    rewrite Hpos.
    destruct (0 <? Z.min _ a)%Z eqn:Hlt.
    + rewrite (Hmin eq_refl). apply IH.
    + apply IH.
  - simpl. rewrite min_zero_not_pos. apply IH.
Qed.

Lemma fakelosCoins_allocate coinCounts denoms used r total :
  allocate (availableIn coinCounts) (pair Coin <$> denoms) used r
  = ((fakelosCoins coinCounts denoms used r total).1.1,
     (fakelosCoins coinCounts denoms used r total).1.2).
Proof.
  revert used r total.
  induction denoms as [| d rest IH]; intros used r total; simpl; [reflexivity |].
  destruct (r <=? literal 0 0); [reflexivity |].
  unfold availableIn, neededOf.
  destruct (coinCounts !! d) as [a |] eqn:Ha.
  - destruct (min_orZeroZ_pos
                (Math_floor ((r + literal 1 3) / denominationValues d)) a)
      as [Hpos Hmin].
    rewrite Hpos.
    destruct (0 <? Z.min _ a)%Z eqn:Hlt.
    + rewrite (Hmin eq_refl). apply IH.
    + apply IH.
  - simpl. rewrite min_zero_not_pos. apply IH.
Qed.

Lemma stelnoBills_allocate billCounts denoms used r :
  stelnoBills billCounts denoms used r
  = allocate (availableIn billCounts) (pair Bill <$> denoms) used r.
Proof.
  revert used r.
  induction denoms as [| d rest IH]; intros used r; simpl; [reflexivity |].
  destruct (r <=? literal 0 0); [reflexivity |].
  unfold availableIn, neededOf.
  destruct (0 <? _)%Z; apply IH.
Qed.

Lemma stelnoCoins_allocate coinCounts denoms used r :
  stelnoCoins coinCounts denoms used r
  = allocate (availableIn coinCounts) (pair Coin <$> denoms) used r.
Proof.
  revert used r.
  induction denoms as [| d rest IH]; intros used r; simpl; [reflexivity |].
  destruct (r <=? literal 0 0); [reflexivity |].
  unfold availableIn, neededOf.
  destruct (0 <? _)%Z; apply IH.
Qed.

(** *** [allocate] as a loop *)

Lemma allocate_stop available order used (r : num) :
  (r <=? literal 0 0) = true -> allocate available order used r = (used, r).
Proof.
  intros Hr. destruct order as [| [c d] rest]; simpl; [reflexivity |].
  rewrite Hr. reflexivity.
Qed.

(** A pass over [order1 ++ order2] is a pass over [order1] followed by one
    over [order2]: once the first has stopped, the second stops at once. *)
Lemma allocate_app available order1 order2 used (r : num) :
  allocate available (order1 ++ order2) used r
  = allocate available order2
      (allocate available order1 used r).1 (allocate available order1 used r).2.
Proof.
  revert used r.
  induction order1 as [| [c d] rest IH]; intros used r; simpl; [reflexivity |].
  destruct (r <=? literal 0 0) eqn:Hr.
  - simpl. symmetry. apply allocate_stop. exact Hr.
  - destruct (0 <? _)%Z; apply IH.
Qed.

Lemma allocate_ext available1 available2 order used (r : num) :
  (forall c d, (c, d) ∈ order -> available1 d = available2 d) ->
  allocate available1 order used r = allocate available2 order used r.
Proof.
  revert used r.
  induction order as [| [c d] rest IH]; intros used r Hsame; simpl; [reflexivity |].
  rewrite (Hsame c d) by (apply list_elem_of_here).
  assert (Hrest : forall c' d', (c', d') ∈ rest -> available1 d' = available2 d').
  { intros c' d' Hin. apply (Hsame c'). apply list_elem_of_further. exact Hin. }
  destruct (r <=? literal 0 0); [reflexivity |].
  destruct (0 <? _)%Z; apply IH; exact Hrest.
Qed.

(** Entries recorded before a pass are carried through it unchanged. *)
Lemma allocate_union available order used extra (r : num) :
  allocate available order (used ∪ extra) r
  = ((allocate available order used r).1 ∪ extra,
     (allocate available order used r).2).
Proof.
  revert used r.
  induction order as [| [c d] rest IH]; intros used r; simpl; [reflexivity |].
  destruct (r <=? literal 0 0); [reflexivity |].
  destruct (0 <? _)%Z.
  - rewrite insert_union_l. apply IH.
  - apply IH.
Qed.

(** Every recorded use is positive and within what is available. *)
Lemma allocate_used_bound available order used (r : num) :
  (forall d n, used !! d = Some n -> (0 < n <= available d)%Z) ->
  forall d n, (allocate available order used r).1 !! d = Some n ->
              (0 < n <= available d)%Z.
Proof.
  revert used r.
  induction order as [| [c d0] rest IH]; intros used r Hused; simpl; [exact Hused |].
  destruct (r <=? literal 0 0); [exact Hused |].
  destruct (0 <? _)%Z eqn:Hpos.
  - apply IH. intros d n.
    destruct (decide (d0 = d)) as [-> | Hne].
    + rewrite lookup_insert_eq. intros [= <-].
      apply Z.ltb_lt in Hpos. split; [exact Hpos | apply Z.le_min_r].
    + rewrite lookup_insert_ne by exact Hne. apply Hused.
  - apply IH. exact Hused.
Qed.

Lemma orZeroZ_Some (n : Z) : orZeroZ (Some n) = n.
Proof. unfold orZeroZ. destruct (Z.eqb_spec n 0); congruence. Qed.

(** *** The allocation of [calculateFakelos] *)

Lemma priority_split :
  priority = (pair Bill <$> billDenominations) ++ (pair Coin <$> coinDenominations).
Proof. reflexivity. Qed.

Lemma available_on_bills billCounts coinCounts c d :
  (c, d) ∈ (pair Bill <$> billDenominations) ->
  availableOf billCounts coinCounts d = availableIn billCounts d.
Proof.
  intros Hin. apply list_elem_of_fmap in Hin as [d' [[= -> ->] Hd]].
  unfold billDenominations in Hd. unfold availableOf.
  repeat (apply elem_of_cons in Hd as [-> | Hd]; [reflexivity |]).
  apply elem_of_nil in Hd. contradiction.
Qed.

Lemma available_on_coins billCounts coinCounts c d :
  (c, d) ∈ (pair Coin <$> coinDenominations) ->
  availableOf billCounts coinCounts d = availableIn coinCounts d.
Proof.
  intros Hin. apply list_elem_of_fmap in Hin as [d' [[= -> ->] Hd]].
  unfold coinDenominations in Hd. unfold availableOf.
  repeat (apply elem_of_cons in Hd as [-> | Hd]; [reflexivity |]).
  apply elem_of_nil in Hd. contradiction.
Qed.

(** The two loops of [calculateFakelos], as two passes of [allocate]. *)
Lemma fakelosAllocate_passes billCounts coinCounts (cashTotal : num) :
  let a := fakelosAllocate billCounts coinCounts cashTotal in
  allocate (availableIn billCounts) (pair Bill <$> billDenominations) ∅
    (round2 cashTotal)
  = (usedBills a,
     (allocate (availableIn billCounts) (pair Bill <$> billDenominations) ∅
        (round2 cashTotal)).2)
  /\ allocate (availableIn coinCounts) (pair Coin <$> coinDenominations) ∅
       (allocate (availableIn billCounts) (pair Bill <$> billDenominations) ∅
          (round2 cashTotal)).2
     = (usedCoins a, remaining a).
Proof.
  unfold fakelosAllocate.
  rewrite (fakelosBills_allocate billCounts billDenominations ∅
             (round2 cashTotal) (literal 0 0)).
  destruct (fakelosBills billCounts billDenominations ∅ (round2 cashTotal)
              (literal 0 0)) as [[ub r1] t1].
  cbn [fst snd].
  rewrite (fakelosCoins_allocate coinCounts coinDenominations ∅ r1
             (literal 0 0)).
  destruct (fakelosCoins coinCounts coinDenominations ∅ r1 (literal 0 0))
    as [[uc r2] t2].
  cbn [fst snd usedBills usedCoins remaining]. split; reflexivity.
Qed.

(** C1. The allocation of [calculateFakelos] is one pass over the
    denominations in the order 100, 50, 20, 10, 5 (bills) and then 2, 1, 0.5,
    0.2, 0.1, 0.05 (coins): at each denomination [d], unless the remaining
    amount [r] is already [<= 0] (then the pass stops), it takes
    [needed = floor(r / d)] for a bill and [floor((r + 0.001) / d)] for a
    coin, uses [min(needed, available[d])] and, when that is positive,
    subtracts its amount from [r] and rounds [r] to two decimals. *)
Theorem fakelos_allocation_is_priority_pass :
  (fun cd : category * denom => (cd.1, denominationValues cd.2)) <$> priority
  = [(Bill, literal 100 0); (Bill, literal 50 0); (Bill, literal 20 0);
     (Bill, literal 10 0); (Bill, literal 5 0);
     (Coin, literal 2 0); (Coin, literal 1 0); (Coin, literal 5 1);
     (Coin, literal 2 1); (Coin, literal 1 1); (Coin, literal 5 2)]
  /\ forall billCounts coinCounts (cashTotal : num),
       let a := fakelosAllocate billCounts coinCounts cashTotal in
       allocate (availableOf billCounts coinCounts) priority ∅ (round2 cashTotal)
       = (usedCoins a ∪ usedBills a, remaining a).
Proof.
  split; [reflexivity |].
  intros billCounts coinCounts cashTotal a.
  pose proof (fakelosAllocate_passes billCounts coinCounts cashTotal) as Hpass.
  cbv zeta in Hpass. fold a in Hpass. destruct Hpass as [Hb Hc].
  rewrite priority_split, allocate_app.
  rewrite (allocate_ext _ (availableIn billCounts) (pair Bill <$> _))
    by (apply available_on_bills).
  rewrite (allocate_ext _ (availableIn coinCounts) (pair Coin <$> _))
    by (apply available_on_coins).
  rewrite Hb. cbn [fst snd].
  rewrite <- (left_id_L ∅ (∪) (usedBills a)) at 1.
  rewrite allocate_union, Hc. reflexivity.
Qed.

(** C6. From the same cash total and the same counts, [calculateFakelos] and
    [showStelno] find the same used bills and coins and the same remaining
    amount, and list the same counts as left. *)
Theorem fakelos_stelno_same_allocation :
  (forall billCounts coinCounts (cashTotal : num),
     let f := fakelosAllocate billCounts coinCounts cashTotal in
     let s := stelnoAllocate billCounts coinCounts cashTotal in
     usedBills f = stelnoUsedBills s
     /\ usedCoins f = stelnoUsedCoins s
     /\ remaining f = stelnoRemaining s
     /\ keepItems billCounts (usedBills f) billDenominations
        = keepItems billCounts (stelnoUsedBills s) billDenoms
     /\ keepItems coinCounts (usedCoins f) coinDenominations
        = keepItems coinCounts (stelnoUsedCoins s) coinDenoms)
  /\ (forall (st : state num) (out : cachedOutputs num),
        match calculateFakelos st out with
        | NoCash => True
        | Breakdown _ keep _ _ _ =>
            keep = billsLeft (showStelno st out) ++ coinsLeft (showStelno st out)
        end).
Proof.
  assert (Hsame : forall billCounts coinCounts (cashTotal : num),
            usedBills (fakelosAllocate billCounts coinCounts cashTotal)
            = stelnoUsedBills (stelnoAllocate billCounts coinCounts cashTotal)
            /\ usedCoins (fakelosAllocate billCounts coinCounts cashTotal)
               = stelnoUsedCoins (stelnoAllocate billCounts coinCounts cashTotal)
            /\ remaining (fakelosAllocate billCounts coinCounts cashTotal)
               = stelnoRemaining (stelnoAllocate billCounts coinCounts cashTotal)).
  { intros billCounts coinCounts cashTotal.
    pose proof (fakelosAllocate_passes billCounts coinCounts cashTotal) as Hpass.
    cbv zeta in Hpass. destruct Hpass as [Hb Hc].
    unfold stelnoAllocate.
    rewrite (stelnoBills_allocate billCounts billDenoms).
    change billDenoms with billDenominations. rewrite Hb.
    rewrite (stelnoCoins_allocate coinCounts coinDenoms).
    change coinDenoms with coinDenominations.
    rewrite Hb in Hc. cbn [fst snd] in Hc. rewrite Hc.
    cbn [stelnoUsedBills stelnoUsedCoins stelnoRemaining]. auto. }
  split.
  - intros billCounts coinCounts cashTotal f s.
    destruct (Hsame billCounts coinCounts cashTotal) as (Hb & Hc & Hr).
    fold f s in Hb, Hc, Hr.
    rewrite Hb, Hc. repeat split; assumption || reflexivity.
  - intros st out. unfold calculateFakelos, showStelno.
    destruct (Hsame (getCounts st denominations_bills)
                (getCounts st denominations_coins) (readCashTotal out))
      as (Hb & Hc & _).
    destruct (readCashTotal out <=? literal 0 0); [exact I |].
    cbn [billsLeft coinsLeft]. rewrite Hb, Hc. reflexivity.
Qed.

End AllocateFacts.

(* ===================================================================== *)
(** ** Exact arithmetic: amounts as whole cents *)
(* ===================================================================== *)

Section ExactFacts.

Import Exact.

Local Open Scope Q_scope.

Lemma exact_add (x y : exact) : num_add x y == x + y.
Proof. apply Qred_correct. Qed.

Lemma exact_sub (x y : exact) : num_sub x y == x - y.
Proof. apply Qred_correct. Qed.

Lemma exact_mul (x y : exact) : num_mul x y == x * y.
Proof. apply Qred_correct. Qed.

Lemma exact_div (x y : exact) : num_div x y == x / y.
Proof. apply Qred_correct. Qed.

Lemma exact_ofZ (z : Z) : ofZ (num := exact) z == inject_Z z.
Proof. unfold ofZ. simpl. unfold lit. rewrite Qred_correct. reflexivity. Qed.

Lemma exact_face (d : denom) :
  denominationValues (num := exact) d == faceCents d # 100.
Proof. destruct d; reflexivity. Qed.

(** In exact arithmetic what is left is the count less the use. *)
Lemma exact_leftOf (counts used : gmap denom Z) (d : denom) :
  leftOf (num := exact) counts used d
  = Z.max 0 (orZeroZ (counts !! d) - orZeroZ (used !! d)).
Proof.
  unfold leftOf. f_equal. cbn [Math_floor exact_number].
  rewrite exact_sub, !exact_ofZ.
  rewrite <- (Qfloor_Z (orZeroZ (counts !! d) - orZeroZ (used !! d))).
  apply Qfloor_comp. unfold Zminus. rewrite inject_Z_plus, inject_Z_opp.
  reflexivity.
Qed.

Lemma faceCents_pos (d : denom) : (0 < faceCents d)%Z.
Proof. destruct d; reflexivity. Qed.

Lemma exact_hundred : literal (num := exact) 100 0 == 100 # 1.
Proof. reflexivity. Qed.

Lemma exact_zero : literal (num := exact) 0 0 == 0.
Proof. reflexivity. Qed.

Lemma Qfloor_half_up (k : Z) : Qfloor (inject_Z k + (1 # 2)) = k.
Proof.
  unfold Qfloor, Qplus, inject_Z. simpl.
  symmetry. apply (Z.div_unique _ _ _ 1); lia.
Qed.

(** [Math.round] of a whole number is that number. *)
Lemma exact_round_whole (x : exact) (k : Z) :
  x == inject_Z k -> Math_round x = k.
Proof.
  intros Hx. simpl. unfold round. rewrite Hx. apply Qfloor_half_up.
Qed.

(** [Math.round(x * 100) / 100] leaves a whole number of cents alone. *)
Lemma exact_round2_cents (x : exact) (k : Z) :
  x == k # 100 -> round2 x == k # 100.
Proof.
  intros Hx. unfold round2.
  rewrite exact_div, exact_ofZ.
  rewrite (exact_round_whole _ k).
  - rewrite exact_hundred.
    unfold Qeq, Qdiv, Qmult, Qinv, inject_Z. simpl. lia.
  - rewrite exact_mul, exact_hundred, Hx.
    unfold Qeq, Qmult, inject_Z. simpl. lia.
Qed.

(** Whatever the amount, [Math.round(x * 100) / 100] is a whole number of
    cents. *)
Lemma exact_round2_is_cents (x : exact) :
  round2 x == Math_round (num_mul x (literal 100 0)) # 100.
Proof.
  unfold round2. rewrite exact_div, exact_ofZ.
  generalize (Math_round (num_mul x (literal 100 0))). intros n.
  rewrite exact_hundred.
  unfold Qeq, Qdiv, Qmult, Qinv, inject_Z. simpl. lia.
Qed.

Lemma exact_milli : literal (num := exact) 1 3 == 1 # 1000.
Proof. reflexivity. Qed.

Lemma Qfloor_cents_quotient (k dc : Z) :
  (0 < dc)%Z -> Qfloor ((k # 100) / (dc # 100)) = (k / dc)%Z.
Proof.
  intros Hdc. destruct dc as [| p | p]; try lia.
  unfold Qfloor, Qdiv, Qmult, Qinv. simpl.
  rewrite Pos2Z.inj_mul, (Z.mul_comm 100 (Z.pos p)).
  apply Z.div_mul_cancel_r; lia.
Qed.

Lemma Qfloor_cents_quotient_eps (k dc : Z) :
  (0 < dc)%Z -> Qfloor (((k # 100) + (1 # 1000)) / (dc # 100)) = (k / dc)%Z.
Proof.
  intros Hdc. destruct dc as [| p | p]; try lia.
  unfold Qfloor, Qdiv, Qmult, Qinv, Qplus. simpl.
  rewrite Pos2Z.inj_mul.
  replace ((k * 1000 + 1 * 100) * 100)%Z with ((10 * k + 1) * 10000)%Z by lia.
  replace (Z.pos (100 * 1000) * Z.pos p)%Z with ((10 * Z.pos p) * 10000)%Z by lia.
  rewrite Z.div_mul_cancel_r by lia.
  symmetry.
  apply Z.div_unique with (r := (10 * (k mod Z.pos p) + 1)%Z).
  - left. pose proof (Z.mod_pos_bound k (Z.pos p) Hdc). lia.
  - pose proof (Z.div_mod k (Z.pos p)). lia.
Qed.

(** On whole cents the pieces needed are the integer quotient, for bills
    and, the 0.001 notwithstanding, for coins. *)
Lemma exact_needed c (r : exact) (k : Z) (d : denom) :
  r == k # 100 ->
  neededOf c r (denominationValues d) = (k / faceCents d)%Z.
Proof.
  intros Hr. destruct c; cbn [neededOf Math_floor exact_number num_div num_add].
  - rewrite Qred_correct, Hr, (exact_face d).
    apply Qfloor_cents_quotient, faceCents_pos.
  - rewrite !Qred_correct, Hr, (exact_face d), exact_milli.
    apply Qfloor_cents_quotient_eps, faceCents_pos.
Qed.

(** *** Conservation of the target *)

Lemma usedCents_insert_notin (used : gmap denom Z) L d n :
  d ∉ L -> usedCents (<[d := n]> used) L = usedCents used L.
Proof.
  induction L as [| d' L IH]; intros Hnotin; simpl; [reflexivity |].
  apply not_elem_of_cons in Hnotin as [Hne Hnotin].
  rewrite lookup_insert_ne by exact Hne.
  rewrite IH by exact Hnotin. reflexivity.
Qed.

Lemma usedCents_insert_in (used : gmap denom Z) L d n :
  NoDup L -> d ∈ L -> used !! d = None ->
  usedCents (<[d := n]> used) L = (usedCents used L + n * faceCents d)%Z.
Proof.
  induction L as [| d' L IH]; intros Hnodup Hin Hnone; simpl.
  - apply elem_of_nil in Hin. contradiction.
  - apply list.NoDup_cons in Hnodup as [Hfresh Hnodup].
    destruct (decide (d = d')) as [<- | Hne].
    + rewrite lookup_insert_eq, Hnone, orZeroZ_Some.
      rewrite usedCents_insert_notin by exact Hfresh. simpl. lia.
    + rewrite lookup_insert_ne by exact Hne.
      apply elem_of_cons in Hin as [Heq | Hin]; [contradiction |].
      rewrite IH by assumption. lia.
Qed.

Lemma exact_usedAmount (used : gmap denom Z) L :
  usedAmount (num := exact) used L == usedCents used L # 100.
Proof.
  induction L as [| d L IH]; [reflexivity |].
  change (usedAmount used (d :: L))
    with (num_add (num := exact)
            (num_mul (ofZ (orZeroZ (used !! d))) (denominationValues d))
            (usedAmount used L)).
  change (usedCents used (d :: L))
    with (orZeroZ (used !! d) * faceCents d + usedCents used L)%Z.
  rewrite exact_add, exact_mul, exact_ofZ, (exact_face d), IH.
  unfold Qeq, Qplus, Qmult, inject_Z. simpl. lia.
Qed.

(** One pass on whole cents: the rest is again whole cents, never negative,
    and the cents recorded as used are the cents taken off. *)
Lemma exact_allocate_cents available order L used (r : exact) (k : Z) :
  NoDup (order.*2) ->
  (forall c d, (c, d) ∈ order -> d ∈ L /\ used !! d = None) ->
  NoDup L ->
  r == k # 100 -> (0 <= k)%Z ->
  exists k', (0 <= k')%Z
    /\ (allocate available order used r).2 == k' # 100
    /\ (usedCents (allocate available order used r).1 L + k'
        = usedCents used L + k)%Z.
Proof.
  revert used r k.
  induction order as [| [c d] rest IH]; intros used r k Hnodup Hfresh HL Hr Hk.
  - exists k. simpl. auto.
  - cbn [allocate]. apply list.NoDup_cons in Hnodup as [Hd Hnodup].
    destruct (Hfresh c d) as [HdL Hdnone]; [apply list_elem_of_here |].
    assert (Hrest : forall c' d', (c', d') ∈ rest -> d' ∈ L /\ used !! d' = None).
    { intros c' d' Hin. apply (Hfresh c'). apply list_elem_of_further. exact Hin. }
    destruct (num_leb r (literal 0 0)).
    + exists k. simpl. auto.
    + rewrite (exact_needed c r k d Hr).
      set (n := Z.min (k / faceCents d) (available d)).
      destruct (0 <? n)%Z eqn:Hpos.
      * apply Z.ltb_lt in Hpos.
        assert (Hle : (n * faceCents d <= k)%Z).
        { pose proof (faceCents_pos d) as Hface.
          pose proof (Z.mul_div_le k (faceCents d) Hface) as Hdiv.
          assert (n <= k / faceCents d)%Z by apply Z.le_min_l.
          nia. }
        destruct (IH (<[d := n]> used)
                    (round2 (num_sub r (num_mul (ofZ n) (denominationValues d))))
                    (k - n * faceCents d)%Z) as (k' & Hk' & Hr' & Hsum);
          try assumption.
        -- intros c' d' Hin. destruct (Hrest c' d' Hin) as [HL' Hnone'].
           split; [exact HL' |].
           rewrite lookup_insert_ne; [exact Hnone' |].
           intros ->. apply Hd. apply list_elem_of_fmap. exists (c', d'). auto.
        -- apply exact_round2_cents.
           rewrite exact_sub, exact_mul, exact_ofZ, (exact_face d), Hr.
           unfold Qeq, Qminus, Qplus, Qopp, Qmult, inject_Z. simpl. lia.
        -- lia.
        -- exists k'. split; [exact Hk' |]. split; [exact Hr' |].
           rewrite Hsum, (usedCents_insert_in used L d n) by assumption. lia.
      * apply IH; assumption.
Qed.

Lemma usedCents_empty (L : list denom) : usedCents ∅ L = 0%Z.
Proof.
  induction L as [| d L IH]; [reflexivity |].
  change (usedCents ∅ (d :: L))
    with (orZeroZ ((∅ : gmap denom Z) !! d) * faceCents d + usedCents ∅ L)%Z.
  rewrite lookup_empty, IH. reflexivity.
Qed.

Lemma pass_members_fresh (c : category) (L : list denom) c' d :
  (c', d) ∈ (pair c <$> L) -> d ∈ L /\ (∅ : gmap denom Z) !! d = None.
Proof.
  intros Hin. apply list_elem_of_fmap in Hin as [d' [[= -> ->] Hd]].
  split; [exact Hd | apply lookup_empty].
Qed.

Lemma pass_denominations (c : category) (L : list denom) :
  (pair c <$> L).*2 = L.
Proof.
  induction L as [| d L IH]; [reflexivity |].
  cbn [fmap list_fmap snd]. f_equal. exact IH.
Qed.

(** A pass that starts with nothing used. *)
Lemma exact_allocate_cents_fresh available c L (r : exact) (k : Z) :
  NoDup L -> r == k # 100 -> (0 <= k)%Z ->
  exists k', (0 <= k')%Z
    /\ (allocate available (pair c <$> L) ∅ r).2 == k' # 100
    /\ (usedCents (allocate available (pair c <$> L) ∅ r).1 L + k' = k)%Z.
Proof.
  intros HL Hr Hk.
  destruct (exact_allocate_cents available (pair c <$> L) L ∅ r k)
    as (k' & Hk' & Hr' & Hsum); try assumption.
  - rewrite pass_denominations. exact HL.
  - apply pass_members_fresh.
  - exists k'. rewrite usedCents_empty in Hsum. auto.
Qed.

Lemma billDenominations_NoDup : NoDup billDenominations.
Proof. compute_done. Qed.

Lemma coinDenominations_NoDup : NoDup coinDenominations.
Proof. compute_done. Qed.

(** Two passes in a row, the second from the rest of the first. *)
Lemma exact_two_passes (forBills forCoins : denom -> Z) (bills coins : list denom)
    (r0 r1 r2 : exact) (k0 : Z) (usedB usedC : gmap denom Z) :
  NoDup bills -> NoDup coins ->
  r0 == k0 # 100 -> (0 <= k0)%Z ->
  allocate forBills (pair Bill <$> bills) ∅ r0 = (usedB, r1) ->
  allocate forCoins (pair Coin <$> coins) ∅ r1 = (usedC, r2) ->
  usedAmount usedB bills + usedAmount usedC coins + r2 == r0 /\ 0 <= r2.
Proof.
  intros Hbills Hcoins Hr0 Hk0 Hb Hc.
  destruct (exact_allocate_cents_fresh forBills Bill bills r0 k0 Hbills Hr0 Hk0)
    as (k1 & Hk1 & Hr1 & Hsum1).
  rewrite Hb in Hr1, Hsum1. cbn [fst snd] in Hr1, Hsum1.
  destruct (exact_allocate_cents_fresh forCoins Coin coins r1 k1 Hcoins Hr1 Hk1)
    as (k2 & Hk2 & Hr2 & Hsum2).
  rewrite Hc in Hr2, Hsum2. cbn [fst snd] in Hr2, Hsum2.
  rewrite !exact_usedAmount, Hr2, Hr0.
  unfold Qeq, Qle, Qplus. cbn [Qnum Qden]. lia.
Qed.

(** C10. In exact arithmetic, for a target that rounds to a positive amount
    and any available counts, the amounts of the pieces [calculateFakelos]
    uses and the amount it leaves uncovered add up to the rounded target, and
    the uncovered amount is not negative: the loops never overshoot. *)
Theorem exact_allocation_conserves_target
    (billCounts coinCounts : gmap denom Z) (cashTotal : exact) :
  0 < round2 cashTotal ->
  usedAmount (usedBills (fakelosAllocate billCounts coinCounts cashTotal))
    billDenominations
  + usedAmount (usedCoins (fakelosAllocate billCounts coinCounts cashTotal))
      coinDenominations
  + remaining (fakelosAllocate billCounts coinCounts cashTotal)
  == round2 cashTotal
  /\ 0 <= remaining (fakelosAllocate billCounts coinCounts cashTotal).
Proof.
  intros Hpositive.
  pose proof (fakelosAllocate_passes billCounts coinCounts cashTotal) as Hpass.
  cbv zeta in Hpass. destruct Hpass as [Hb Hc].
  pose proof (exact_round2_is_cents cashTotal) as Hr0.
  assert (Hk0 : (0 <= Math_round (num_mul cashTotal (literal 100 0)))%Z).
  { rewrite Hr0 in Hpositive. unfold Qlt in Hpositive.
    cbn [Qnum Qden] in Hpositive. lia. }
  exact (exact_two_passes _ _ _ _ _ _ _ _ _ _
           billDenominations_NoDup coinDenominations_NoDup Hr0 Hk0 Hb Hc).
Qed.

Lemma exact_allocation_conserves_target_witness :
  usedAmount
    (usedBills (fakelosAllocate (num := exact) noBills someCoins (literal 1735 2)))
    billDenominations
  + usedAmount
      (usedCoins (fakelosAllocate (num := exact) noBills someCoins (literal 1735 2)))
      coinDenominations
  + remaining (fakelosAllocate (num := exact) noBills someCoins (literal 1735 2))
  == round2 (num := exact) (literal 1735 2)
  /\ 0 <= remaining
            (fakelosAllocate (num := exact) noBills someCoins (literal 1735 2)).
Proof.
  refine (exact_allocation_conserves_target noBills someCoins
            (literal 1735 2) _).
  vm_compute. reflexivity.
Defined.

End ExactFacts.

(** *** The laws hold in exact arithmetic *)

Section ExactLaws.

Import Exact.

Local Open Scope Q_scope.

Lemma exact_round2_nonpos (x : exact) :
  num_leb x (literal 0 0) = true -> num_leb (round2 x) (literal 0 0) = true.
Proof.
  intros Hx. apply Qle_bool_iff in Hx. apply Qle_bool_iff.
  rewrite exact_round2_is_cents, exact_zero. rewrite exact_zero in Hx.
  assert (Hn : (Math_round (num_mul x (literal 100 0)) <= 0)%Z).
  { cbn [Math_round exact_number num_mul]. unfold round.
    change 0%Z with (Qfloor (1 # 2)).
    apply Qfloor_resp_le.
    rewrite Qred_correct, exact_hundred.
    rewrite <- (Qplus_0_l (1 # 2)) at 2.
    apply Qplus_le_compat; [| apply Qle_refl].
    rewrite <- (Qmult_0_l (100 # 1)).
    apply Qmult_le_compat_r; [exact Hx | discriminate]. }
  unfold Qle. cbn [Qnum Qden]. lia.
Qed.

Lemma exact_nonpos_not_above (x : exact) :
  num_leb x (literal 0 0) = true -> num_ltb (literal 1 3) x = false.
Proof.
  intros Hx. apply Qle_bool_iff in Hx. rewrite exact_zero in Hx.
  cbn [num_ltb exact_number]. unfold ltb.
  apply negb_false_iff, Qle_bool_iff.
  rewrite exact_milli. apply Qle_trans with 0; [exact Hx | discriminate].
Qed.

#[global] Instance exact_laws : JsNumberLaws exact.
Proof.
  split; [exact exact_round2_nonpos | exact exact_nonpos_not_above].
Qed.

End ExactLaws.

(* ===================================================================== *)
(** ** Binary64: the sign of a rounded result *)
(* ===================================================================== *)

Section Binary64Facts.

Import Binary64.

Lemma shr_1_nonneg mrs : 0 <= shr_m mrs -> 0 <= shr_m (shr_1 mrs).
Proof.
  destruct mrs as [m r s]. simpl.
  destruct m as [| [p | p |] | [p | p |]]; simpl; lia.
Qed.

Lemma iter_pos_shr_1_nonneg p mrs :
  0 <= shr_m mrs -> 0 <= shr_m (SpecFloat.iter_pos shr_1 p mrs).
Proof.
  revert mrs. induction p as [p IH | p IH |]; intros mrs Hm; simpl.
  - apply IH, IH, shr_1_nonneg, Hm.
  - apply IH, IH, Hm.
  - apply shr_1_nonneg, Hm.
Qed.

Lemma shr_fexp_nonneg m e l :
  0 <= m -> 0 <= shr_m (shr_fexp prec emax m e l).1.
Proof.
  intros Hm. unfold shr_fexp, shr.
  assert (H0 : 0 <= shr_m (shr_record_of_loc m l)).
  { destruct l as [| []]; exact Hm. }
  destruct (fexp prec emax (Zdigits2 m + e) - e) as [| p | p]; simpl;
    [exact H0 | | exact H0].
  apply iter_pos_shr_1_nonneg, H0.
Qed.

Lemma round_nearest_even_nonneg m l : 0 <= m -> 0 <= round_nearest_even m l.
Proof.
  intros Hm. unfold round_nearest_even.
  destruct l as [| []]; try lia. destruct (Z.even m); lia.
Qed.

(** Rounding a non-negative mantissa keeps the sign it is given. *)
Lemma binary_round_aux_signed s m e l :
  0 <= m -> signed s (binary_round_aux prec emax s m e l).
Proof.
  intros Hm. unfold binary_round_aux.
  pose proof (shr_fexp_nonneg m e l Hm) as H1.
  destruct (shr_fexp prec emax m e l) as [mrs' e'].
  pose proof (shr_fexp_nonneg
                (round_nearest_even (shr_m mrs') (loc_of_shr_record mrs'))
                e' loc_Exact (round_nearest_even_nonneg _ _ H1)) as H2.
  destruct (shr_fexp prec emax _ e' loc_Exact) as [mrs'' e''].
  simpl in H2.
  destruct (shr_m mrs'') as [| p | p]; [reflexivity | | lia].
  destruct (e'' <=? emax - prec); reflexivity.
Qed.

Lemma SFdiv_core_nonneg m1 e1 m2 e2 :
  0 <= m1 -> 0 < m2 -> 0 <= (SFdiv_core_binary prec emax m1 e1 m2 e2).1.1.
Proof.
  intros H1 H2. unfold SFdiv_core_binary.
  set (s := e1 - e2 - _).
  set (m' := match s with Z0 => m1 | Zpos _ => Z.shiftl m1 s | Zneg _ => 0 end).
  assert (Hm' : 0 <= m').
  { unfold m'. destruct s; [exact H1 | | lia]. apply Z.shiftl_nonneg, H1. }
  pose proof (Z.div_pos m' m2 Hm' H2) as Hq.
  unfold Z.div in Hq. destruct (Z.div_eucl m' m2) as [q r]. exact Hq.
Qed.

Lemma b64_hundred :
  literal (num := b64) 100 0 = S754_finite false 7036874417766400 (-46).
Proof. vm_compute. reflexivity. Qed.

Lemma b64_milli :
  literal (num := b64) 1 3 = S754_finite false 4611686018427388 (-62).
Proof. vm_compute. reflexivity. Qed.

Lemma nonpositive_leb (x : b64) :
  SFleb x (S754_zero false) = true <-> nonpositive x.
Proof.
  destruct x as [s | s | | s m e]; try destruct s; simpl;
    unfold SFleb; simpl; intuition congruence.
Qed.

Lemma signed_nonpositive (x : b64) : signed true x -> nonpositive x.
Proof. destruct x; simpl; auto. Qed.

Lemma nonpositive_mul_hundred (x : b64) :
  nonpositive x -> nonpositive (num_mul x (literal 100 0)).
Proof.
  intros Hx. rewrite b64_hundred. cbn [num_mul b64_number].
  destruct x as [s | s | | s m e]; simpl in Hx; subst; simpl; auto.
  apply signed_nonpositive. apply binary_round_aux_signed. lia.
Qed.

Lemma round_half_up_nonpos (m : positive) (e : Z) :
  round_half_up (Z.neg m) e <= 0.
Proof.
  unfold round_half_up. destruct (0 <=? e) eqn:He.
  - apply Z.leb_le in He. pose proof (Z.pow_nonneg 2 e). nia.
  - apply Z.leb_gt in He.
    assert (Hpow : 2 ^ (- e) = 2 * 2 ^ (- e - 1)).
    { rewrite <- Z.pow_succ_r by lia. f_equal. lia. }
    pose proof (Z.pow_pos_nonneg 2 (- e - 1)) as Hpos.
    apply Z.lt_succ_r. apply Z.div_lt_upper_bound; lia.
Qed.

Lemma nonpositive_round (x : b64) : nonpositive x -> Math_round x <= 0.
Proof.
  cbn [Math_round b64_number]. unfold round.
  destruct x as [s | s | | s m e]; simpl; intros Hx; subst; try lia.
  apply round_half_up_nonpos.
Qed.

Lemma nonpositive_ofZ (n : Z) : n <= 0 -> nonpositive (ofZ (num := b64) n).
Proof.
  intros Hn. unfold ofZ. cbn [literal b64_number]. unfold lit.
  destruct n as [| p | p]; [exact I | lia |].
  pose proof (SFdiv_core_nonneg (Z.abs (Z.neg p)) 0 (10 ^ Z.of_nat 0) 0) as Hq.
  destruct (SFdiv_core_binary prec emax (Z.abs (Z.neg p)) 0 (10 ^ Z.of_nat 0) 0)
    as [[q e] l].
  apply signed_nonpositive.
  change (Z.neg p <? 0) with true.
  apply binary_round_aux_signed. apply Hq; simpl; lia.
Qed.

Lemma nonpositive_div_hundred (x : b64) :
  nonpositive x -> nonpositive (num_div x (literal 100 0)).
Proof.
  intros Hx. rewrite b64_hundred. cbn [num_div b64_number].
  destruct x as [s | s | | s m e]; simpl in Hx; subst; simpl; auto.
  pose proof (SFdiv_core_nonneg (Z.pos m) e 7036874417766400 (-46)) as Hq.
  destruct (SFdiv_core_binary prec emax (Z.pos m) e 7036874417766400 (-46))
    as [[q e'] l].
  apply signed_nonpositive. apply binary_round_aux_signed. apply Hq; lia.
Qed.

Lemma b64_round2_nonpos (x : b64) :
  num_leb x (literal 0 0) = true -> num_leb (round2 x) (literal 0 0) = true.
Proof.
  change (literal (num := b64) 0 0) with (S754_zero false).
  cbn [num_leb b64_number]. rewrite !nonpositive_leb.
  intros Hx. unfold round2.
  apply nonpositive_div_hundred, nonpositive_ofZ, nonpositive_round,
    nonpositive_mul_hundred, Hx.
Qed.

Lemma b64_nonpos_not_above (x : b64) :
  num_leb x (literal 0 0) = true -> num_ltb (literal 1 3) x = false.
Proof.
  change (literal (num := b64) 0 0) with (S754_zero false).
  cbn [num_leb b64_number]. rewrite nonpositive_leb, b64_milli.
  cbn [num_ltb b64_number].
  destruct x as [s | s | | s m e]; simpl; intros Hx; subst; reflexivity || contradiction.
Qed.

#[global] Instance b64_laws : JsNumberLaws b64.
Proof.
  split; [exact b64_round2_nonpos | exact b64_nonpos_not_above].
Qed.

End Binary64Facts.

(* ===================================================================== *)
(** ** Rounding on doubles *)
(* ===================================================================== *)

Section Rounding.

Lemma digits2_pos_bounds (p : positive) :
  2 ^ (Z.pos (digits2_pos p) - 1) <= Z.pos p < 2 ^ Z.pos (digits2_pos p).
Proof.
  induction p as [p IH | p IH |]; cbn [digits2_pos];
    rewrite ?Pos2Z.inj_succ.
  - replace (Z.succ (Z.pos (digits2_pos p)) - 1)
      with (Z.succ (Z.pos (digits2_pos p) - 1)) by lia.
    rewrite !Z.pow_succ_r by lia. lia.
  - replace (Z.succ (Z.pos (digits2_pos p)) - 1)
      with (Z.succ (Z.pos (digits2_pos p) - 1)) by lia.
    rewrite !Z.pow_succ_r by lia. lia.
  - simpl. lia.
Qed.

Lemma Zdigits2_bounds (m : Z) :
  0 < m -> 2 ^ (Zdigits2 m - 1) <= m < 2 ^ Zdigits2 m.
Proof.
  destruct m as [| p | p]; try lia. intros _. apply digits2_pos_bounds.
Qed.

Lemma Zdigits2_pos (m : Z) : 0 < m -> 0 < Zdigits2 m.
Proof. destruct m; simpl; lia. Qed.

(** The number of digits of [m] is the [d] with [2^(d-1) <= m < 2^d]. *)
Lemma Zdigits2_unique (m d : Z) :
  2 ^ (d - 1) <= m < 2 ^ d -> 0 < d -> Zdigits2 m = d.
Proof.
  intros Hm Hd.
  assert (Hpos : 0 < m).
  { pose proof (Z.pow_pos_nonneg 2 (d - 1)). lia. }
  pose proof (Zdigits2_bounds m Hpos) as Hb.
  pose proof (Zdigits2_pos m Hpos) as Hp.
  destruct (Z.lt_trichotomy (Zdigits2 m) d) as [Hlt | [Heq | Hgt]];
    [ | exact Heq | ].
  - assert (2 ^ Zdigits2 m <= 2 ^ (d - 1)) by (apply Z.pow_le_mono_r; lia). lia.
  - assert (2 ^ d <= 2 ^ (Zdigits2 m - 1)) by (apply Z.pow_le_mono_r; lia). lia.
Qed.

Lemma Zdigits2_ge (m k : Z) : 0 <= k -> 2 ^ k <= m -> k + 1 <= Zdigits2 m.
Proof.
  intros Hk Hm.
  assert (Hpos : 0 < m) by (pose proof (Z.pow_pos_nonneg 2 k); lia).
  pose proof (Zdigits2_bounds m Hpos) as Hb.
  destruct (Z_lt_le_dec (Zdigits2 m) (k + 1)) as [Hlt | Hge]; [ | exact Hge ].
  assert (2 ^ Zdigits2 m <= 2 ^ k) by (apply Z.pow_le_mono_r; lia). lia.
Qed.

Lemma Zdigits2_le (m k : Z) : 0 < m -> 0 <= k -> m < 2 ^ k -> Zdigits2 m <= k.
Proof.
  intros Hpos Hk Hm.
  pose proof (Zdigits2_bounds m Hpos) as Hb.
  pose proof (Zdigits2_pos m Hpos) as Hp.
  destruct (Z_lt_le_dec k (Zdigits2 m)) as [Hlt | Hge]; [ | exact Hge ].
  assert (2 ^ k <= 2 ^ (Zdigits2 m - 1)) by (apply Z.pow_le_mono_r; lia). lia.
Qed.

(** Halving the quotient doubles the divisor. *)
Lemma div_mod_double (N D : Z) :
  0 < D -> 0 <= N ->
  N / (2 * D) = N / D / 2
  /\ N mod (2 * D) = D * ((N / D) mod 2) + N mod D.
Proof.
  intros HD HN.
  pose proof (Z.div_mod N D ltac:(lia)) as Hdm.
  pose proof (Z.mod_pos_bound N D HD) as Hr.
  pose proof (Z.div_mod (N / D) 2 ltac:(lia)) as Hq.
  pose proof (Z.mod_pos_bound (N / D) 2 ltac:(lia)) as Hb.
  assert (Hr' : 0 <= D * ((N / D) mod 2) + N mod D < 2 * D) by nia.
  assert (Heq : N = 2 * D * (N / D / 2) + (D * ((N / D) mod 2) + N mod D)) by nia.
  split.
  - symmetry. apply (Z.div_unique N (2 * D) _ _ (or_introl Hr') Heq).
  - symmetry. apply (Z.mod_unique N (2 * D) _ _ (or_introl Hr') Heq).
Qed.

Lemma shr_1_locates (N D : Z) (mrs : shr_record) :
  locates N D mrs -> locates N (2 * D) (shr_1 mrs).
Proof.
  intros (HD & HN & Hm & Hr & Hs).
  destruct (div_mod_double N D HD HN) as [Hdiv Hmod].
  pose proof (Z.mod_pos_bound N D HD) as HR.
  pose proof (Z.div_pos N D HN HD) as Hq.
  destruct mrs as [m r s]. cbn [shr_m shr_r shr_s] in *.
  assert (Hsticky : r || s = negb (N mod D =? 0)).
  { rewrite Hr, Hs.
    destruct (Z.eqb_spec (N mod D) 0) as [H0 | H0];
      destruct (Z.eqb_spec (2 * (N mod D)) D) as [H1 | H1];
      destruct (Z.leb_spec D (2 * (N mod D))); cbn; try reflexivity; lia. }
  assert (Hcase : forall (m' : Z) (b : bool),
            m = 2 * m' + (if b then 1 else 0) ->
            locates N (2 * D) (Build_shr_record m' b (r || s))).
  { intros m' b Hmb.
    assert (Hhalf : N / D / 2 = m' /\ (N / D) mod 2 = if b then 1 else 0).
    { rewrite <- Hm.
      assert (Hb : 0 <= (if b then 1 else 0) < 2) by (destruct b; lia).
      split; symmetry.
      - apply (Z.div_unique m 2 m' _ (or_introl Hb)). lia.
      - apply (Z.mod_unique m 2 m' _ (or_introl Hb)). lia. }
    destruct Hhalf as [Hh1 Hh2].
    unfold locates. cbn [shr_m shr_r shr_s].
    rewrite Hdiv, Hmod, Hh1, Hh2, Hsticky.
    refine (conj _ (conj HN (conj eq_refl (conj _ _)))); [ lia | | ].
    - destruct b; [ symmetry; apply Z.leb_le; lia | symmetry; apply Z.leb_gt; lia ].
    - destruct b.
      + destruct (Z.eqb_spec (N mod D) 0) as [H0 | H0];
          destruct (Z.eqb_spec (D * 1 + N mod D) 0);
          destruct (Z.eqb_spec (2 * (D * 1 + N mod D)) (2 * D));
          cbn; try reflexivity; lia.
      + destruct (Z.eqb_spec (N mod D) 0) as [H0 | H0];
          destruct (Z.eqb_spec (D * 0 + N mod D) 0);
          destruct (Z.eqb_spec (2 * (D * 0 + N mod D)) (2 * D));
          cbn; try reflexivity; lia. }
  destruct m as [| [p | p |] | p]; cbn [shr_1]; try lia.
  - apply (Hcase 0 false). lia.
  - apply (Hcase (Z.pos p) true). lia.
  - apply (Hcase (Z.pos p) false). lia.
  - apply (Hcase 0 true). lia.
Qed.

Lemma iter_pos_shr_1_locates (p : positive) :
  forall (N D : Z) (mrs : shr_record),
    locates N D mrs ->
    locates N (D * 2 ^ Z.pos p) (SpecFloat.iter_pos shr_1 p mrs).
Proof.
  induction p as [p IH | p IH |]; intros N D mrs Hloc; cbn [SpecFloat.iter_pos].
  - replace (D * 2 ^ Z.pos p~1) with (2 * D * 2 ^ Z.pos p * 2 ^ Z.pos p).
    + apply IH, IH, shr_1_locates, Hloc.
    + replace (Z.pos p~1) with (Z.pos p + Z.pos p + 1) by lia.
      rewrite !Z.pow_add_r by lia. change (2 ^ 1) with 2. ring.
  - replace (D * 2 ^ Z.pos p~0) with (D * 2 ^ Z.pos p * 2 ^ Z.pos p).
    + apply IH, IH, Hloc.
    + replace (Z.pos p~0) with (Z.pos p + Z.pos p) by lia.
      rewrite !Z.pow_add_r by lia. ring.
  - replace (D * 2 ^ 1) with (2 * D) by (change (2 ^ 1) with 2; ring).
    apply shr_1_locates, Hloc.
Qed.

(** A shift by [n] places. *)
Lemma shr_locates (N D : Z) (mrs : shr_record) (e n : Z) :
  0 <= n -> locates N D mrs ->
  locates N (D * 2 ^ n) (shr mrs e n).1 /\ (shr mrs e n).2 = e + n.
Proof.
  intros Hn Hloc. destruct n as [| p | p]; try lia; cbn [shr fst snd].
  - rewrite Z.mul_1_r, Z.add_0_r. auto.
  - split; [ apply iter_pos_shr_1_locates, Hloc | reflexivity ].
Qed.

Lemma locates_exact (N : Z) :
  0 <= N -> locates N 1 (shr_record_of_loc N loc_Exact).
Proof.
  intros HN. unfold locates. cbn [shr_record_of_loc shr_m shr_r shr_s].
  rewrite Z.div_1_r, Z.mod_1_r. cbn. auto with zarith.
Qed.

(** The location that a division finds for its quotient. *)
Lemma locates_new_location (N D : Z) :
  0 < D -> 0 <= N ->
  locates N D (shr_record_of_loc (N / D) (new_location D (N mod D))).
Proof.
  intros HD HN. pose proof (Z.mod_pos_bound N D HD) as HR.
  unfold locates.
  refine (conj HD (conj HN _)).
  unfold new_location, new_location_even, new_location_odd.
  destruct (Z.even D) eqn:Heven.
  - destruct (Z.eqb_spec (N mod D) 0) as [H0 | H0].
    + cbn [shr_record_of_loc shr_m shr_r shr_s]. rewrite H0.
      replace (D <=? 2 * 0) with false by (symmetry; apply Z.leb_gt; lia).
      cbn. auto.
    + destruct (Z.compare_spec (2 * (N mod D)) D) as [Hc | Hc | Hc];
        cbn [shr_record_of_loc shr_m shr_r shr_s];
        destruct (Z.leb_spec D (2 * (N mod D)));
        destruct (Z.eqb_spec (2 * (N mod D)) D); cbn; auto; lia.
  - assert (Hodd : 2 * (N mod D) <> D).
    { intros Heq. rewrite <- Heq, Z.even_mul in Heven. discriminate. }
    destruct (Z.eqb_spec (N mod D) 0) as [H0 | H0].
    + cbn [shr_record_of_loc shr_m shr_r shr_s]. rewrite H0.
      replace (D <=? 2 * 0) with false by (symmetry; apply Z.leb_gt; lia).
      cbn. auto.
    + destruct (Z.compare_spec (2 * (N mod D) + 1) D) as [Hc | Hc | Hc];
        cbn [shr_record_of_loc shr_m shr_r shr_s];
        destruct (Z.leb_spec D (2 * (N mod D)));
        destruct (Z.eqb_spec (2 * (N mod D)) D); cbn; auto; lia.
Qed.

(** Rounding to nearest leaves at most a half. *)
Lemma round_nearest_even_locates (N D : Z) (mrs : shr_record) :
  locates N D mrs ->
  let M := round_nearest_even (shr_m mrs) (loc_of_shr_record mrs) in
  2 * Z.abs (M * D - N) <= D /\ N / D <= M <= N / D + 1.
Proof.
  intros (HD & HN & Hm & Hr & Hs).
  pose proof (Z.mod_pos_bound N D HD) as HR.
  pose proof (Z.div_mod N D ltac:(lia)) as Hdm.
  destruct mrs as [m r s]. cbn [shr_m shr_r shr_s] in *.
  set (q := N / D) in *. set (R := N mod D) in *.
  assert (HqD : q * D = N - R) by lia.
  destruct r, s; cbn [loc_of_shr_record round_nearest_even]; subst m.
  - symmetry in Hr. apply Z.leb_le in Hr.
    replace ((q + 1) * D - N) with (D - R) by lia. lia.
  - symmetry in Hr. apply Z.leb_le in Hr.
    destruct (Z.even q).
    + replace (q * D - N) with (- R) by lia.
      symmetry in Hs. apply negb_false_iff, orb_true_iff in Hs.
      destruct Hs as [Hs | Hs]; apply Z.eqb_eq in Hs; lia.
    + replace ((q + 1) * D - N) with (D - R) by lia. lia.
  - symmetry in Hr. apply Z.leb_gt in Hr.
    replace (q * D - N) with (- R) by lia. lia.
  - symmetry in Hs. apply negb_false_iff, orb_true_iff in Hs.
    symmetry in Hr. apply Z.leb_gt in Hr.
    replace (q * D - N) with (- R) by lia.
    destruct Hs as [Hs | Hs]; apply Z.eqb_eq in Hs; lia.
Qed.

End Rounding.

Section RoundingNormal.

Import Binary64.

Lemma fexp_normal (x : Z) : -1074 <= x - 53 -> fexp prec emax x = x - 53.
Proof. unfold fexp, emin, prec, emax. lia. Qed.

Lemma shr_m_of_loc (m : Z) (l : location) : shr_m (shr_record_of_loc m l) = m.
Proof. destruct l as [| []]; reflexivity. Qed.

Lemma shr_fexp_carry (e : Z) :
  -1074 <= e ->
  shr_fexp prec emax (2 ^ 53) e loc_Exact
  = (Build_shr_record (2 ^ 52) false false, e + 1).
Proof.
  intros He. unfold shr_fexp. change (Zdigits2 (2 ^ 53)) with 54.
  rewrite fexp_normal by lia.
  replace (54 + e - 53 - e) with 1 by lia. reflexivity.
Qed.

Lemma shr_fexp_same (M e : Z) :
  Zdigits2 M = 53 -> -1074 <= e ->
  shr_fexp prec emax M e loc_Exact = (Build_shr_record M false false, e).
Proof.
  intros HM He. unfold shr_fexp. rewrite HM, fexp_normal by lia.
  replace (53 + e - 53 - e) with 0 by lia. reflexivity.
Qed.

(** Rounding a quotient [N / D * 2^ex] whose whole part [mx] has at least
    53 digits, in the range of the normal numbers: the result is a normal
    number, at most half a unit of its last place away. *)
Lemma binary_round_aux_normal (s : bool) (mx ex : Z) (lx : location) (N D : Z) :
  locates N D (shr_record_of_loc mx lx) ->
  53 <= Zdigits2 mx ->
  -1074 <= Zdigits2 mx + ex - 53 ->
  Zdigits2 mx + ex <= 1023 ->
  exists (M : positive) (E : Z),
    binary_round_aux prec emax s mx ex lx = S754_finite s M E
    /\ 2 ^ 52 <= Z.pos M < 2 ^ 53
    /\ ex + (Zdigits2 mx - 53) <= E <= ex + (Zdigits2 mx - 53) + 1
    /\ 2 * Z.abs (Z.pos M * 2 ^ (E - ex) * D - N) <= D * 2 ^ (Zdigits2 mx - 53)
    /\ D * 2 ^ (Zdigits2 mx - 53 + 52) <= N.
Proof.
  intros Hloc Hd Hlow Hhigh.
  set (n := Zdigits2 mx - 53) in *.
  assert (Hn : 0 <= n) by (unfold n; lia).
  pose proof Hloc as (HD & HN & Hmx & _).
  rewrite shr_m_of_loc in Hmx.
  assert (Hpos : 0 < mx).
  { destruct mx as [| p | p]; [ simpl in Hd; lia | lia | ].
    pose proof (Z.div_pos N D HN HD). lia. }
  pose proof (Zdigits2_bounds mx Hpos) as Hdig.
  replace (Zdigits2 mx - 1) with (n + 52) in Hdig by (unfold n; lia).
  replace (Zdigits2 mx) with (n + 53) in Hdig by (unfold n; lia).
  rewrite !Z.pow_add_r in Hdig by lia.
  pose proof (Z.pow_pos_nonneg 2 n ltac:(lia) Hn) as Hpow.
  pose proof (Z.div_mod N D ltac:(lia)) as Hdm.
  pose proof (Z.mod_pos_bound N D HD) as HR.
  assert (Hbig : D * 2 ^ (n + 52) <= N).
  { rewrite Z.pow_add_r by lia. rewrite <- Hmx in Hdm. nia. }
  unfold binary_round_aux. unfold shr_fexp at 1.
  rewrite fexp_normal by lia.
  replace (Zdigits2 mx + ex - 53 - ex) with n by (unfold n; lia).
  destruct (shr_locates N D (shr_record_of_loc mx lx) ex n Hn Hloc)
    as [Hloc1 He1].
  destruct (shr (shr_record_of_loc mx lx) ex n) as [mrs' e'].
  cbn [fst snd] in Hloc1, He1. subst e'.
  pose proof (round_nearest_even_locates N (D * 2 ^ n) mrs' Hloc1) as Hround.
  cbv zeta in Hround.
  set (M0 := round_nearest_even (shr_m mrs') (loc_of_shr_record mrs')) in *.
  destruct Hround as [Hhalf Hnear].
  assert (Hm' : 2 ^ 52 <= N / (D * 2 ^ n) < 2 ^ 53).
  { rewrite <- Z.div_div by lia. rewrite <- Hmx. split.
    - apply Z.div_le_lower_bound; lia.
    - apply Z.div_lt_upper_bound; lia. }
  assert (HM0 : 2 ^ 52 <= M0 <= 2 ^ 53) by lia.
  destruct (Z.eq_dec M0 (2 ^ 53)) as [Hcarry | Hnocarry].
  - rewrite Hcarry in *. rewrite shr_fexp_carry by lia.
    cbn [shr_m].
    replace (ex + n + 1 <=? emax - prec) with true
      by (symmetry; apply Z.leb_le; unfold emax, prec; lia).
    exists 4503599627370496%positive, (ex + n + 1).
    split; [ reflexivity | ].
    split; [ lia | ]. split; [ lia | ]. split; [ | exact Hbig ].
    replace (ex + n + 1 - ex) with (n + 1) by lia.
    rewrite Z.pow_add_r by lia.
    replace (4503599627370496 * (2 ^ n * 2 ^ 1) * D - N)
      with (2 ^ 53 * (D * 2 ^ n) - N) by lia.
    exact Hhalf.
  - assert (Hdigits : Zdigits2 M0 = 53).
    { apply Zdigits2_unique; lia. }
    rewrite (shr_fexp_same M0) by lia. cbn [shr_m].
    destruct M0 as [| M | M]; try lia.
    replace (ex + n <=? emax - prec) with true
      by (symmetry; apply Z.leb_le; unfold emax, prec; lia).
    exists M, (ex + n). split; [ reflexivity | ].
    split; [ lia | ]. split; [ lia | ]. split; [ | exact Hbig ].
    replace (ex + n - ex) with n by lia.
    replace (Z.pos M * 2 ^ n * D) with (Z.pos M * (D * 2 ^ n)) by ring.
    exact Hhalf.
Qed.

End RoundingNormal.

Section RoundingValues.

Import Binary64.

Local Open Scope Q_scope.

Lemma pow2_pos (e : Z) : 0 < 2 ^ e.
Proof. apply Qpower_0_lt. reflexivity. Qed.

Lemma pow2_add (a b : Z) : 2 ^ (a + b) == 2 ^ a * 2 ^ b.
Proof. apply Qpower_plus. discriminate. Qed.

Lemma pow2_inject (n : Z) : (0 <= n)%Z -> inject_Z (2 ^ n) == 2 ^ n.
Proof. intros Hn. rewrite Zpower_Qpower by exact Hn. reflexivity. Qed.

(** From the integers of the rounding to its values. *)
Lemma rounded_value (M ex E N D n : Z) :
  (0 < D)%Z -> (0 <= n)%Z -> (ex <= E)%Z ->
  (2 * Z.abs (M * 2 ^ (E - ex) * D - N) <= D * 2 ^ n)%Z ->
  (D * 2 ^ (n + 52) <= N)%Z ->
  let X := inject_Z N / inject_Z D * 2 ^ ex in
  let V := inject_Z M * 2 ^ E in
  (1 - roundoff) * X <= V /\ V <= (1 + roundoff) * X.
Proof.
  intros HD Hn HE Hhalf Hbig X V.
  set (P := (2 ^ (E - ex))%Z) in *.
  set (A := (M * P * D - N)%Z) in *.
  assert (Hrel : (2 ^ 53 * Z.abs A <= N)%Z).
  { rewrite Z.pow_add_r in Hbig by lia.
    set (Y := (D * 2 ^ n)%Z) in *.
    replace (D * (2 ^ n * 2 ^ 52))%Z with (Y * 2 ^ 52)%Z in Hbig by (unfold Y; ring).
    lia. }
  set (t := 2 ^ ex). set (d := inject_Z D).
  assert (Ht : 0 < t) by apply pow2_pos.
  assert (Hd : 0 < d).
  { unfold d, Qlt. simpl. lia. }
  set (k := t / d).
  assert (Hk : 0 < k).
  { unfold k. apply Qlt_shift_div_l; [ exact Hd | ]. rewrite Qmult_0_l. exact Ht. }
  assert (HX : X == inject_Z N * k).
  { unfold X, k. fold t d. field. intros H0. rewrite H0 in Hd. discriminate. }
  assert (HV : V == inject_Z N * k + inject_Z A * k).
  { unfold V, A, k. fold t d.
    replace E with ((E - ex) + ex)%Z at 1 by lia.
    rewrite pow2_add. fold t.
    rewrite <- pow2_inject by lia. fold P.
    unfold Zminus. rewrite inject_Z_plus, inject_Z_opp, !inject_Z_mult. fold d.
    field. intros H0. rewrite H0 in Hd. discriminate. }
  assert (Hlow : - inject_Z N <= 9007199254740992 * inject_Z A).
  { change 9007199254740992 with (inject_Z (2 ^ 53)).
    rewrite <- inject_Z_opp, <- inject_Z_mult, <- Zle_Qle. lia. }
  assert (Hup : 9007199254740992 * inject_Z A <= inject_Z N).
  { change 9007199254740992 with (inject_Z (2 ^ 53)).
    rewrite <- inject_Z_mult, <- Zle_Qle. lia. }
  rewrite HX, HV. unfold roundoff.
  set (a := inject_Z A) in *. set (nq := inject_Z N) in *.
  split.
  - assert (H1 : 0 <= (a + (1 # 9007199254740992) * nq) * k).
    { apply Qmult_le_0_compat; [ lra | lra ]. }
    lra.
  - assert (H1 : 0 <= ((1 # 9007199254740992) * nq - a) * k).
    { apply Qmult_le_0_compat; [ lra | lra ]. }
    lra.
Qed.

(** Rounding in the range of the normal numbers, in values: the relative
    error is at most [roundoff]. *)
Lemma binary_round_aux_approx (s : bool) (mx ex : Z) (lx : location) (N D : Z) :
  locates N D (shr_record_of_loc mx lx) ->
  (53 <= Zdigits2 mx)%Z ->
  (-1074 <= Zdigits2 mx + ex - 53)%Z ->
  (Zdigits2 mx + ex <= 1023)%Z ->
  exists (M : positive) (E : Z),
    binary_round_aux prec emax s mx ex lx = S754_finite s M E
    /\ (2 ^ 52 <= Z.pos M < 2 ^ 53)%Z
    /\ (ex + (Zdigits2 mx - 53) <= E <= ex + (Zdigits2 mx - 53) + 1)%Z
    /\ (1 - roundoff) * (inject_Z N / inject_Z D * 2 ^ ex)
       <= inject_Z (Z.pos M) * 2 ^ E
    /\ inject_Z (Z.pos M) * 2 ^ E
       <= (1 + roundoff) * (inject_Z N / inject_Z D * 2 ^ ex).
Proof.
  intros Hloc Hd Hlow Hhigh.
  destruct (binary_round_aux_normal s mx ex lx N D Hloc Hd Hlow Hhigh)
    as (M & E & Hres & HM & HE & Hhalf & Hbig).
  exists M, E. refine (conj Hres (conj HM (conj HE _))).
  destruct Hloc as (HD & _).
  apply (rounded_value (Z.pos M) ex E N D (Zdigits2 mx - 53)); try lia; assumption.
Qed.

End RoundingValues.

Section Operations.

Import Binary64.

Local Open Scope Q_scope.

(** The quotient that [SFdiv_core_binary] hands to the rounding. *)
Lemma SFdiv_core_locates (m1 e1 m2 e2 : Z) :
  (0 < m1)%Z -> (0 < m2)%Z ->
  (-1021 <= Zdigits2 m1 + e1 - (Zdigits2 m2 + e2))%Z ->
  exists (q e' : Z) (l : location) (s : Z),
    SFdiv_core_binary prec emax m1 e1 m2 e2 = (q, e', l)
    /\ s = Z.max 0 (53 + Zdigits2 m2 - Zdigits2 m1)
    /\ (0 <= s)%Z /\ e' = (e1 - e2 - s)%Z
    /\ locates (m1 * 2 ^ s) m2 (shr_record_of_loc q l)
    /\ (53 <= Zdigits2 q)%Z
    /\ (Zdigits2 m1 - Zdigits2 m2 + s <= Zdigits2 q
        <= Zdigits2 m1 - Zdigits2 m2 + s + 1)%Z.
Proof.
  intros H1 H2 Hlow.
  pose proof (Zdigits2_bounds m1 H1) as Hd1.
  pose proof (Zdigits2_bounds m2 H2) as Hd2.
  pose proof (Zdigits2_pos m1 H1) as Hp1.
  pose proof (Zdigits2_pos m2 H2) as Hp2.
  set (d1 := Zdigits2 m1) in *. set (d2 := Zdigits2 m2) in *.
  unfold SFdiv_core_binary. fold d1 d2.
  rewrite fexp_normal by lia.
  set (e' := Z.min (d1 + e1 - (d2 + e2) - 53) (e1 - e2)).
  set (s := (e1 - e2 - e')%Z).
  assert (Hs : (0 <= s)%Z) by (unfold s, e'; lia).
  assert (Hs' : (53 + d2 - d1 <= s)%Z) by (unfold s, e'; lia).
  set (m' := match s with
             | 0%Z => m1
             | Z.pos _ => Z.shiftl m1 s
             | Z.neg _ => 0%Z
             end).
  assert (Hm' : m' = (m1 * 2 ^ s)%Z).
  { unfold m'. destruct s as [| p | p]; [ simpl; lia | | lia ].
    apply Z.shiftl_mul_pow2. lia. }
  pose proof (Z.pow_pos_nonneg 2 s ltac:(lia) Hs) as Hpow.
  assert (Hpos' : (0 < m')%Z) by (rewrite Hm'; nia).
  pose proof (Z.div_mod m' m2 ltac:(lia)) as Hdm.
  pose proof (Z.mod_pos_bound m' m2 H2) as HR.
  unfold Z.div, Z.modulo in Hdm, HR.
  pose proof (locates_new_location m' m2 H2 ltac:(lia)) as Hloc.
  unfold Z.div, Z.modulo in Hloc.
  destruct (Z.div_eucl m' m2) as [q r].
  exists q, e', (new_location m2 r), s.
  split; [ reflexivity | ]. split; [ unfold s, e'; lia | ].
  split; [ exact Hs | ].
  split; [ unfold s; lia | ].
  rewrite <- Hm'. split; [ exact Hloc | ].
  assert (Hlowq : (2 ^ (d1 - d2 + s - 1) <= q)%Z).
  { assert (Hm1 : (2 ^ (d1 - d2 + s - 1) * 2 ^ d2 <= m')%Z).
    { rewrite <- Z.pow_add_r by lia. rewrite Hm'.
      replace (d1 - d2 + s - 1 + d2)%Z with ((d1 - 1) + s)%Z by lia.
      rewrite Z.pow_add_r by lia. nia. }
    assert (Hpw : (0 < 2 ^ (d1 - d2 + s - 1))%Z) by (apply Z.pow_pos_nonneg; lia).
    nia. }
  assert (Hupq : (q < 2 ^ (d1 - d2 + s + 1))%Z).
  { assert (Hm1 : (m' < 2 ^ (d1 - d2 + s + 1) * 2 ^ (d2 - 1))%Z).
    { rewrite <- Z.pow_add_r by lia. rewrite Hm'.
      replace (d1 - d2 + s + 1 + (d2 - 1))%Z with (d1 + s)%Z by lia.
      rewrite Z.pow_add_r by lia. nia. }
    assert (Hpw : (0 < 2 ^ (d1 - d2 + s + 1))%Z) by (apply Z.pow_pos_nonneg; lia).
    nia. }
  assert (Hq : (0 < q)%Z).
  { assert (Hpw : (0 < 2 ^ (d1 - d2 + s - 1))%Z) by (apply Z.pow_pos_nonneg; lia).
    lia. }
  pose proof (Zdigits2_ge q (d1 - d2 + s - 1) ltac:(lia) Hlowq) as Hge.
  pose proof (Zdigits2_le q (d1 - d2 + s + 1) Hq ltac:(lia) Hupq) as Hle.
  lia.
Qed.

(** A division of two positive numbers, rounded: the value of the result
    and where its exponent lies. *)
Lemma SFdiv_core_approx (s : bool) (m1 e1 m2 e2 : Z) :
  (0 < m1)%Z -> (0 < m2)%Z ->
  (-1021 <= Zdigits2 m1 + e1 - (Zdigits2 m2 + e2) <= 1022)%Z ->
  exists (M : positive) (E : Z),
    (let '(q, e', l) := SFdiv_core_binary prec emax m1 e1 m2 e2 in
     binary_round_aux prec emax s q e' l) = S754_finite s M E
    /\ (2 ^ 52 <= Z.pos M < 2 ^ 53)%Z
    /\ (Zdigits2 m1 + e1 - (Zdigits2 m2 + e2) - 53 <= E
        <= Zdigits2 m1 + e1 - (Zdigits2 m2 + e2) - 51)%Z
    /\ (1 - roundoff) * ((inject_Z m1 * 2 ^ e1) / (inject_Z m2 * 2 ^ e2))
       <= inject_Z (Z.pos M) * 2 ^ E
    /\ inject_Z (Z.pos M) * 2 ^ E
       <= (1 + roundoff) * ((inject_Z m1 * 2 ^ e1) / (inject_Z m2 * 2 ^ e2)).
Proof.
  intros H1 H2 Hrange.
  destruct (SFdiv_core_locates m1 e1 m2 e2 H1 H2 ltac:(lia))
    as (q & e' & l & sh & Hcore & _ & Hsh & He' & Hloc & H53 & Hdig).
  rewrite Hcore.
  destruct (binary_round_aux_approx s q e' l (m1 * 2 ^ sh) m2 Hloc H53
              ltac:(lia) ltac:(lia))
    as (M & E & Hres & HM & HE & Hlo & Hhi).
  exists M, E. split; [ exact Hres | ]. split; [ exact HM | ].
  split; [ lia | ].
  assert (HX : inject_Z (m1 * 2 ^ sh) / inject_Z m2 * 2 ^ e'
               == (inject_Z m1 * 2 ^ e1) / (inject_Z m2 * 2 ^ e2)).
  { rewrite inject_Z_mult, pow2_inject by lia.
    assert (He1 : 2 ^ e1 == 2 ^ sh * 2 ^ e' * 2 ^ e2).
    { rewrite <- !pow2_add. replace (sh + e' + e2)%Z with e1 by lia. reflexivity. }
    rewrite He1.
    assert (Hm2 : ~ inject_Z m2 == 0).
    { intros H0. unfold Qeq in H0. simpl in H0. lia. }
    pose proof (pow2_pos e2) as Hp2.
    field. split; [ intros H0; rewrite H0 in Hp2; discriminate | exact Hm2 ]. }
  rewrite <- HX. split; assumption.
Qed.

(** [SFmul] of two positive normal numbers. *)
Lemma SFmul_approx (mx my : positive) (ex ey : Z) :
  (2 ^ 52 <= Z.pos mx < 2 ^ 53)%Z -> (2 ^ 52 <= Z.pos my < 2 ^ 53)%Z ->
  (-1126 <= ex + ey <= 917)%Z ->
  exists (M : positive) (E : Z),
    SFmul prec emax (S754_finite false mx ex) (S754_finite false my ey)
    = S754_finite false M E
    /\ (2 ^ 52 <= Z.pos M < 2 ^ 53)%Z
    /\ (ex + ey + 52 <= E <= ex + ey + 54)%Z
    /\ (1 - roundoff) * ((inject_Z (Z.pos mx) * 2 ^ ex) * (inject_Z (Z.pos my) * 2 ^ ey))
       <= inject_Z (Z.pos M) * 2 ^ E
    /\ inject_Z (Z.pos M) * 2 ^ E
       <= (1 + roundoff) * ((inject_Z (Z.pos mx) * 2 ^ ex) * (inject_Z (Z.pos my) * 2 ^ ey)).
Proof.
  intros Hx Hy Hrange. cbn [SFmul xorb].
  assert (Hprod : (2 ^ 104 <= Z.pos (mx * my) < 2 ^ 106)%Z).
  { rewrite Pos2Z.inj_mul. nia. }
  pose proof (Zdigits2_ge (Z.pos (mx * my)) 104 ltac:(lia) ltac:(lia)) as Hge.
  pose proof (Zdigits2_le (Z.pos (mx * my)) 106 ltac:(lia) ltac:(lia) ltac:(lia))
    as Hle.
  destruct (binary_round_aux_approx false (Z.pos (mx * my)) (ex + ey) loc_Exact
              (Z.pos (mx * my)) 1 (locates_exact (Z.pos (mx * my)) ltac:(lia))
              ltac:(lia) ltac:(lia) ltac:(lia))
    as (M & E & Hres & HM & HE & Hlo & Hhi).
  exists M, E. split; [ exact Hres | ]. split; [ exact HM | ].
  split; [ lia | ].
  assert (HX : inject_Z (Z.pos (mx * my)) / inject_Z 1 * 2 ^ (ex + ey)
               == (inject_Z (Z.pos mx) * 2 ^ ex) * (inject_Z (Z.pos my) * 2 ^ ey)).
  { rewrite Pos2Z.inj_mul, inject_Z_mult, pow2_add. field. }
  rewrite <- HX. split; assumption.
Qed.

(** [SFdiv] of two positive normal numbers. *)
Lemma SFdiv_approx (mx my : positive) (ex ey : Z) :
  (2 ^ 52 <= Z.pos mx < 2 ^ 53)%Z -> (2 ^ 52 <= Z.pos my < 2 ^ 53)%Z ->
  (-1021 <= ex - ey <= 1022)%Z ->
  exists (M : positive) (E : Z),
    SFdiv prec emax (S754_finite false mx ex) (S754_finite false my ey)
    = S754_finite false M E
    /\ (2 ^ 52 <= Z.pos M < 2 ^ 53)%Z
    /\ (ex - ey - 53 <= E <= ex - ey - 51)%Z
    /\ (1 - roundoff) * ((inject_Z (Z.pos mx) * 2 ^ ex) / (inject_Z (Z.pos my) * 2 ^ ey))
       <= inject_Z (Z.pos M) * 2 ^ E
    /\ inject_Z (Z.pos M) * 2 ^ E
       <= (1 + roundoff) * ((inject_Z (Z.pos mx) * 2 ^ ex) / (inject_Z (Z.pos my) * 2 ^ ey)).
Proof.
  intros Hx Hy Hrange. cbn [SFdiv xorb].
  assert (Hdx : Zdigits2 (Z.pos mx) = 53%Z) by (apply Zdigits2_unique; lia).
  assert (Hdy : Zdigits2 (Z.pos my) = 53%Z) by (apply Zdigits2_unique; lia).
  destruct (SFdiv_core_approx false (Z.pos mx) ex (Z.pos my) ey
              ltac:(lia) ltac:(lia) ltac:(rewrite Hdx, Hdy; lia))
    as (M & E & Hres & HM & HE & Hbounds).
  rewrite Hdx, Hdy in HE.
  exists M, E.
  split; [ | split; [ exact HM | split; [ lia | exact Hbounds ] ] ].
  destruct (SFdiv_core_binary prec emax (Z.pos mx) ex (Z.pos my) ey) as [[q e'] l].
  exact Hres.
Qed.

(** A positive decimal literal [m / 10^k]. *)
Lemma lit_approx (m : Z) (k : nat) :
  (0 < m)%Z ->
  (-1021 <= Zdigits2 m - Zdigits2 (10 ^ Z.of_nat k) <= 1022)%Z ->
  exists (M : positive) (E : Z),
    lit m k = S754_finite false M E
    /\ (2 ^ 52 <= Z.pos M < 2 ^ 53)%Z
    /\ (Zdigits2 m - Zdigits2 (10 ^ Z.of_nat k) - 53 <= E
        <= Zdigits2 m - Zdigits2 (10 ^ Z.of_nat k) - 51)%Z
    /\ (1 - roundoff) * (inject_Z m / inject_Z (10 ^ Z.of_nat k))
       <= inject_Z (Z.pos M) * 2 ^ E
    /\ inject_Z (Z.pos M) * 2 ^ E
       <= (1 + roundoff) * (inject_Z m / inject_Z (10 ^ Z.of_nat k)).
Proof.
  intros Hm Hrange.
  assert (Hten : (0 < 10 ^ Z.of_nat k)%Z) by (apply Z.pow_pos_nonneg; lia).
  destruct (SFdiv_core_approx false m 0 (10 ^ Z.of_nat k) 0 Hm Hten ltac:(lia))
    as (M & E & Hres & HM & HE & Hlo & Hhi).
  exists M, E.
  assert (HX : (inject_Z m * 2 ^ 0) / (inject_Z (10 ^ Z.of_nat k) * 2 ^ 0)
               == inject_Z m / inject_Z (10 ^ Z.of_nat k)).
  { change (2 ^ 0) with 1. rewrite !Qmult_1_r. reflexivity. }
  rewrite HX in Hlo, Hhi.
  split; [ | split; [ exact HM | split; [ lia | exact (conj Hlo Hhi) ] ] ].
  unfold lit. destruct m as [| p | p]; try lia.
  change (Z.abs (Z.pos p)) with (Z.pos p).
  change (Z.pos p <? 0)%Z with false.
  destruct (SFdiv_core_binary prec emax (Z.pos p) 0 (10 ^ Z.of_nat k) 0)
    as [[q e'] l].
  exact Hres.
Qed.

End Operations.

Section Integers.

Import Binary64.

(** A whole number below 2^53 is a double: its digits, moved up to fill
    the 53 places. *)
Lemma ofZ_exact (c : Z) :
  0 < c < 2 ^ 53 ->
  exists M : positive,
    ofZ (num := b64) c = S754_finite false M (Zdigits2 c - 53)
    /\ Z.pos M = c * 2 ^ (53 - Zdigits2 c)
    /\ 2 ^ 52 <= Z.pos M < 2 ^ 53.
Proof.
  intros Hc.
  assert (Hpos : 0 < c) by lia.
  pose proof (Zdigits2_bounds c Hpos) as Hdig.
  pose proof (Zdigits2_pos c Hpos) as Hdpos.
  pose proof (Zdigits2_le c 53 Hpos ltac:(lia) ltac:(lia)) as Hd53.
  set (d := Zdigits2 c) in *.
  unfold ofZ. cbn [literal b64_number]. unfold lit.
  destruct c as [| p | p]; try lia.
  change (Z.abs (Z.pos p)) with (Z.pos p).
  change (Z.pos p <? 0) with false.
  change (10 ^ Z.of_nat 0) with 1.
  destruct (SFdiv_core_locates (Z.pos p) 0 1 0 ltac:(lia) ltac:(lia))
    as (q & e' & l & s & Hcore & Hs & Hs0 & He' & Hloc & H53 & Hq).
  { fold d. change (Zdigits2 1) with 1. lia. }
  fold d in Hs, Hq. change (Zdigits2 1) with 1 in Hs, Hq.
  assert (Hsd : s = 54 - d) by lia.
  rewrite Hcore.
  pose proof Hloc as (_ & _ & Hqv & _).
  rewrite shr_m_of_loc, Z.div_1_r in Hqv.
  assert (Hpow : 2 ^ s = 2 * 2 ^ (53 - d)).
  { rewrite Hsd. replace (54 - d) with (Z.succ (53 - d)) by lia.
    apply Z.pow_succ_r. lia. }
  assert (Hpd : 0 < 2 ^ (53 - d)) by (apply Z.pow_pos_nonneg; lia).
  assert (Hfill : 2 ^ 52 <= Z.pos p * 2 ^ (53 - d) < 2 ^ 53).
  { assert (H52 : 2 ^ 52 = 2 ^ (d - 1) * 2 ^ (53 - d)).
    { rewrite <- Z.pow_add_r by lia. f_equal. lia. }
    assert (H53' : 2 ^ 53 = 2 ^ d * 2 ^ (53 - d)).
    { rewrite <- Z.pow_add_r by lia. f_equal. lia. }
    rewrite H52, H53'. nia. }
  assert (Hdq : Zdigits2 q = 54).
  { apply Zdigits2_unique; [ | lia ]. rewrite Hqv, Hpow.
    change (2 ^ (54 - 1)) with (2 * 2 ^ 52). change (2 ^ 54) with (2 * 2 ^ 53).
    lia. }
  destruct (binary_round_aux_normal false q e' l (Z.pos p * 2 ^ s) 1 Hloc
              ltac:(lia) ltac:(lia) ltac:(lia))
    as (M & E & Hres & HM & HE & Hhalf & _).
  rewrite Hdq in HE, Hhalf. change (54 - 53) with 1 in HE, Hhalf.
  change (2 ^ 1) with 2 in Hhalf.
  rewrite Z.mul_1_r in Hhalf.
  rewrite Hres.
  assert (Hstep : E - e' = 1 \/ E - e' = 2) by lia.
  destruct Hstep as [Hone | Htwo].
  - rewrite Hone in Hhalf. change (2 ^ 1) with 2 in Hhalf.
    rewrite Hpow in Hhalf.
    assert (HMv : Z.pos M = Z.pos p * 2 ^ (53 - d)) by lia.
    exists M. split; [ | split; [ exact HMv | lia ] ].
    f_equal. lia.
  - exfalso. rewrite Htwo in Hhalf. change (2 ^ 2) with 4 in Hhalf.
    rewrite Hpow in Hhalf. lia.
Qed.

(** [floor (K * 2^e + 1/2)] is within a half of [K * 2^e]. *)
Lemma round_half_up_bounds (K e : Z) :
  (inject_Z K * 2 ^ e - (1 # 2) < inject_Z (round_half_up K e))%Q
  /\ (inject_Z (round_half_up K e) <= inject_Z K * 2 ^ e + (1 # 2))%Q.
Proof.
  unfold round_half_up. destruct (Z.leb_spec 0 e) as [He | He].
  - rewrite inject_Z_mult, pow2_inject by exact He. split; lra.
  - set (h := 2 ^ (- e - 1)).
    assert (Hh : 0 < h) by (apply Z.pow_pos_nonneg; lia).
    assert (Hp : 2 ^ (- e) = 2 * h).
    { unfold h. rewrite <- Z.pow_succ_r by lia. f_equal. lia. }
    rewrite Hp.
    pose proof (Z.div_mod (K + h) (2 * h) ltac:(lia)) as Hdm.
    pose proof (Z.mod_pos_bound (K + h) (2 * h) ltac:(lia)) as HR.
    set (n := (K + h) / (2 * h)) in *.
    assert (Hv : (inject_Z K * 2 ^ e == inject_Z K / inject_Z (2 * h))%Q).
    { rewrite <- Hp, pow2_inject by lia.
      replace e with (- - e) at 1 by lia.
      rewrite Qpower_opp. reflexivity. }
    rewrite Hv.
    assert (Hd : (0 < inject_Z (2 * h))%Q) by (unfold Qlt; simpl; lia).
    assert (Hlo : ((2 * inject_Z n - 1) * inject_Z (2 * h) <= 2 * inject_Z K)%Q).
    { unfold Qle, Qmult, Qminus, Qplus, Qopp, inject_Z. simpl. nia. }
    assert (Hhi : (2 * inject_Z K < (2 * inject_Z n + 1) * inject_Z (2 * h))%Q).
    { unfold Qlt, Qmult, Qminus, Qplus, Qopp, inject_Z. simpl. nia. }
    set (k := inject_Z K) in *. set (p := inject_Z (2 * h)) in *.
    set (nq := inject_Z n) in *.
    assert (Hkp : (k == k / p * p)%Q).
    { field. intros H0. rewrite H0 in Hd. discriminate. }
    set (v := (k / p)%Q) in *.
    split.
    + (* v - 1/2 < n   <=   (2n + 1) p > 2 v p *)
      apply Qnot_le_lt. intros Hle.
      assert (H1 : (0 <= (v - (1 # 2) - nq) * p)%Q).
      { apply Qmult_le_0_compat; lra. }
      lra.
    + apply Qnot_lt_le. intros Hlt.
      assert (H1 : (0 < (nq - v - (1 # 2)) * p)%Q).
      { apply Qmult_lt_0_compat; lra. }
      lra.
Qed.

(** A whole number at most a half below a value that [Math.round] is
    applied to, and more than a half above it, is the result. *)
Lemma round_half_up_near (K e c : Z) :
  (inject_Z c - (1 # 2) <= inject_Z K * 2 ^ e)%Q ->
  (inject_Z K * 2 ^ e < inject_Z c + (1 # 2))%Q ->
  round_half_up K e = c.
Proof.
  intros Hlo Hhi. destruct (round_half_up_bounds K e) as [Hn1 Hn2].
  set (n := round_half_up K e) in *.
  assert (H1 : (inject_Z c - 1 < inject_Z n)%Q) by lra.
  assert (H2 : (inject_Z n < inject_Z c + 1)%Q) by lra.
  unfold Qlt, Qminus, Qplus, Qopp, inject_Z in H1, H2. simpl in H1, H2. lia.
Qed.

End Integers.

Section RoundTripOnDoubles.

Import Binary64.

Lemma b64_1e21 : lit (10 ^ 21) 0 = S754_finite false 7629394531250000 17.
Proof. vm_compute. reflexivity. Qed.

(** The face values as doubles: normal numbers from 0.05 to 100. *)
Lemma b64_face (d : denom) :
  exists (M : positive) (E : Z),
    denominationValues (num := b64) d = S754_finite false M E
    /\ 2 ^ 52 <= Z.pos M < 2 ^ 53
    /\ -57 <= E <= -46
    /\ (49 # 1000 <= inject_Z (Z.pos M) * 2 ^ E)%Q
    /\ (inject_Z (Z.pos M) * 2 ^ E <= 100)%Q.
Proof.
  destruct d; eexists _, _; (split; [ vm_compute; reflexivity | ]);
    (split; [ lia | ]); (split; [ lia | ]);
    split; vm_compute; discriminate.
Qed.

(** Bounds of a quantity, in units of a positive one. *)
Lemma scaled_bounds (x lo hi s : Q) :
  (0 < s -> lo * s <= x -> x <= hi * s -> lo <= x / s /\ x / s <= hi)%Q.
Proof.
  intros Hs Hlo Hhi.
  assert (Hx : (x == x / s * s)%Q).
  { field. intros H0. rewrite H0 in Hs. discriminate. }
  set (y := (x / s)%Q) in *.
  split.
  - apply Qnot_lt_le. intros Hlt.
    assert (H1 : (0 < (lo - y) * s)%Q) by (apply Qmult_lt_0_compat; lra).
    lra.
  - apply Qnot_lt_le. intros Hlt.
    assert (H1 : (0 < (y - hi) * s)%Q) by (apply Qmult_lt_0_compat; lra).
    lra.
Qed.

Lemma pow2_le (a b : Z) : a <= b -> (2 ^ a <= 2 ^ b)%Q.
Proof. intros Hab. apply Qpower_le_compat_l; [ exact Hab | discriminate ]. Qed.

(** The value of a whole number below 2^53 as a double. *)
Lemma ofZ_value (c : Z) (M : positive) :
  0 < c < 2 ^ 53 ->
  Z.pos M = c * 2 ^ (53 - Zdigits2 c) ->
  (inject_Z (Z.pos M) * 2 ^ (Zdigits2 c - 53) == inject_Z c)%Q.
Proof.
  intros Hc HM.
  pose proof (Zdigits2_le c 53 ltac:(lia) ltac:(lia) ltac:(lia)) as Hd.
  rewrite HM, inject_Z_mult, pow2_inject by lia.
  rewrite <- Qmult_assoc, <- pow2_add.
  replace (53 - Zdigits2 c + (Zdigits2 c - 53)) with 0 by lia.
  change (2 ^ 0)%Q with 1%Q. ring.
Qed.

(** The amount that the converter writes for the count [c], and the count
    that the converter reads in it again. *)
Lemma amount_of_count (d : denom) (c : Z) :
  0 < c <= roundTripCount ->
  exists (Mv : positive) (Ev : Z),
    convertField (num := b64) false d (Text (Some (ofZ c)))
    = Text (Some (S754_finite false Mv Ev))
    /\ Math_round (num := b64)
         (num_div (S754_finite false Mv Ev) (denominationValues d)) = c.
Proof.
  unfold roundTripCount. intros Hc.
  destruct (ofZ_exact c ltac:(lia)) as (Mc & Hofz & HMc & HMcn).
  pose proof (ofZ_value c Mc ltac:(lia) HMc) as Hvc.
  pose proof (Zdigits2_pos c ltac:(lia)) as Hd1.
  pose proof (Zdigits2_le c 53 ltac:(lia) ltac:(lia) ltac:(lia)) as Hd2.
  set (Ec := Zdigits2 c - 53) in *.
  destruct (b64_face d) as (Md & Ed & Hface & HMd & HEd & Hvd1 & Hvd2).
  unfold convertField. cbn [isBlank parseFloat]. rewrite Hofz, Hface.
  change (num_eqb (S754_finite false Mc Ec) (literal 0 0)) with false.
  cbn iota. cbn [num_mul b64_number].
  destruct (SFmul_approx Mc Md Ec Ed HMcn HMd ltac:(lia))
    as (Ma & Ea & Hmul & HMa & HEa & Ha1 & Ha2).
  rewrite Hmul. cbn [toFixed2 b64_number]. unfold fixed2.
  rewrite b64_1e21. cbn [SFabs].
  replace (SFleb (S754_finite false 7629394531250000 17) (S754_finite false Ma Ea))
    with false.
  2: { unfold SFleb, SFcompare.
       replace (17 ?= Ea) with Gt by (symmetry; apply Z.compare_gt_iff; lia).
       reflexivity. }
  set (C := inject_Z c) in *.
  set (vc := (inject_Z (Z.pos Mc) * 2 ^ Ec)%Q) in *.
  set (vd := (inject_Z (Z.pos Md) * 2 ^ Ed)%Q) in *.
  set (va := (inject_Z (Z.pos Ma) * 2 ^ Ea)%Q) in *.
  assert (HC : (1 <= C /\ C <= 1000000000000000)%Q).
  { unfold C, Qle, inject_Z. simpl. lia. }
  assert (Hvd0 : (0 < vd)%Q) by lra.
  (* the amount in units of the face value *)
  destruct (scaled_bounds va ((1 - roundoff) * C) ((1 + roundoff) * C) vd Hvd0)
    as [HA1 HA2].
  { rewrite <- Hvc. lra. }
  { rewrite <- Hvc. lra. }
  set (A' := (va / vd)%Q) in *.
  (* the cents *)
  set (n := round_half_up (100 * Z.pos Ma) Ea).
  destruct (round_half_up_bounds (100 * Z.pos Ma) Ea) as [Hn1 Hn2].
  fold n in Hn1, Hn2.
  assert (Hcents : (inject_Z (100 * Z.pos Ma) * 2 ^ Ea == 100 * va)%Q).
  { unfold va. rewrite inject_Z_mult. change (inject_Z 100) with 100%Q. ring. }
  rewrite Hcents in Hn1, Hn2.
  set (nq := inject_Z n) in *.
  assert (Hva : (va == A' * vd)%Q).
  { unfold A'. field. intros H0. rewrite H0 in Hvd0. discriminate. }
  unfold roundoff in *.
  assert (HvaLow : (4 # 100 <= va)%Q).
  { assert (H1 : (0 <= (A' - (9 # 10)) * (vd - (49 # 1000)))%Q).
    { apply Qmult_le_0_compat; lra. }
    lra. }
  assert (HvaHigh : (va <= 2 ^ 61)%Q).
  { unfold va.
    assert (H1 : (inject_Z (Z.pos Ma) <= 2 ^ 53)%Q).
    { rewrite <- pow2_inject by lia. unfold Qle, inject_Z. simpl. lia. }
    assert (H2 : (2 ^ Ea <= 2 ^ 8)%Q) by (apply pow2_le; lia).
    pose proof (pow2_pos Ea) as H3.
    change (2 ^ 61)%Q with (2 ^ 53 * 2 ^ 8)%Q.
    apply Qmult_le_compat_nonneg; split; try lra.
    unfold Qle, inject_Z. simpl. lia. }
  assert (Hnpos : 0 < n).
  { assert (H1 : (0 < nq)%Q) by lra.
    unfold nq, Qlt, inject_Z in H1. simpl in H1. lia. }
  assert (Hnhigh : n < 2 ^ 70).
  { assert (H1 : (nq < inject_Z (2 ^ 70))%Q).
    { change (2 ^ 61)%Q with (inject_Z (2 ^ 61)) in HvaHigh.
      assert (H2 : (inject_Z (2 ^ 61) * 100 + 1 < inject_Z (2 ^ 70))%Q)
        by (vm_compute; reflexivity).
      lra. }
    unfold nq in H1. rewrite <- Zlt_Qlt in H1. exact H1. }
  replace (n =? 0) with false by (symmetry; apply Z.eqb_neq; lia).
  cbn [cond_Zopp].
  pose proof (Zdigits2_pos n Hnpos) as Hdn1.
  pose proof (Zdigits2_le n 70 Hnpos ltac:(lia) Hnhigh) as Hdn2.
  destruct (lit_approx n 2 Hnpos) as (Mv & Ev & Hlit & HMv & HEv & Hv1 & Hv2).
  { change (Zdigits2 (10 ^ Z.of_nat 2)) with 7. lia. }
  change (Zdigits2 (10 ^ Z.of_nat 2)) with 7 in HEv.
  change (inject_Z (10 ^ Z.of_nat 2)) with 100%Q in Hv1, Hv2.
  fold nq in Hv1, Hv2.
  rewrite Hlit. unfold written.
  change (num_eqb (S754_finite false Mv Ev) (literal 0 0)) with false.
  cbn iota.
  exists Mv, Ev. split; [ reflexivity | ].
  cbn [num_div Math_round b64_number].
  destruct (SFdiv_approx Mv Md Ev Ed HMv HMd ltac:(lia))
    as (Mq & Eq & Hdiv & HMq & HEq & Hq1 & Hq2).
  rewrite Hdiv. unfold round. cbn [cond_Zopp].
  fold vd in Hq1, Hq2.
  set (vv := (inject_Z (Z.pos Mv) * 2 ^ Ev)%Q) in *.
  (* the cents and the amount read back, in units of the face value *)
  set (W := ((1 # 200) / vd)%Q).
  assert (HW : (0 <= W /\ W <= 1000 # 9800)%Q).
  { destruct (scaled_bounds (1 # 200) 0 (1000 # 9800) vd Hvd0) as [H1 H2];
      [ lra | lra | ]. split; assumption. }
  assert (HWv : (W * vd == 1 # 200)%Q).
  { unfold W. field. intros H0. rewrite H0 in Hvd0. discriminate. }
  assert (Hhundredth : (nq / 100 == nq * (1 # 100))%Q) by reflexivity.
  rewrite Hhundredth in Hv1, Hv2.
  unfold roundoff in Hv1, Hv2, Hq1, Hq2.
  destruct (scaled_bounds (nq * (1 # 100)) (A' - W) (A' + W) vd Hvd0)
    as [HN1 HN2]; [ lra | lra | ].
  set (N' := (nq * (1 # 100) / vd)%Q) in *.
  assert (HnN : (nq * (1 # 100) == N' * vd)%Q).
  { unfold N'. field. intros H0. rewrite H0 in Hvd0. discriminate. }
  destruct (scaled_bounds vv ((1 - (1 # 9007199254740992)) * N')
              ((1 + (1 # 9007199254740992)) * N') vd Hvd0)
    as [HR1 HR2]; [ lra | lra | ].
  set (R := (vv / vd)%Q) in *.
  apply round_half_up_near; fold C; lra.
Qed.

(** On doubles a count up to [roundTripCount] comes back from amount mode
    as it was. *)
Lemma b64_roundTrip (d : denom) (c : Z) :
  0 <= c <= roundTripCount ->
  roundTrip (num := b64) d (Text (Some (ofZ c))) = Text (Some (ofZ c)).
Proof.
  intros Hc. destruct (Z.eq_dec c 0) as [-> | Hne]; [ reflexivity | ].
  destruct (amount_of_count d c ltac:(lia)) as (Mv & Ev & Hamount & Hcount).
  unfold roundTrip. rewrite Hamount.
  unfold convertField. cbn [isBlank parseFloat].
  change (num_eqb (S754_finite false Mv Ev) (literal 0 0)) with false.
  cbn iota. rewrite Hcount. reflexivity.
Qed.

End RoundTripOnDoubles.

Section WholeNumbers.

Import Binary64.

(** A mantissa that is where its exponent wants it is left as it is. *)
Lemma binary_round_aux_canonical (s : bool) (m : positive) (e : Z) :
  canonical_mantissa prec emax m e = true -> e <= emax - prec ->
  binary_round_aux prec emax s (Z.pos m) e loc_Exact = S754_finite s m e.
Proof.
  unfold canonical_mantissa. intros Hcanon He. apply Z.eqb_eq in Hcanon.
  assert (Hshr : shr_fexp prec emax (Z.pos m) e loc_Exact
                 = (Build_shr_record (Z.pos m) false false, e)).
  { unfold shr_fexp. cbn [Zdigits2]. rewrite Hcanon, Z.sub_diag. reflexivity. }
  unfold binary_round_aux. rewrite Hshr.
  cbn [shr_m loc_of_shr_record round_nearest_even]. rewrite Hshr.
  cbn [shr_m].
  replace (e <=? emax - prec) with true by (symmetry; apply Z.leb_le; exact He).
  reflexivity.
Qed.

Lemma canonical_normal (m : positive) (e : Z) :
  Zdigits2 (Z.pos m) = 53 -> -1074 <= e ->
  canonical_mantissa prec emax m e = true.
Proof.
  intros Hd He. unfold canonical_mantissa. apply Z.eqb_eq.
  change (Z.pos (digits2_pos m)) with (Zdigits2 (Z.pos m)).
  rewrite Hd, fexp_normal by lia. lia.
Qed.

(** Rounding a mantissa whose digits beyond the 53rd are zeros drops
    them. *)
Lemma binary_round_aux_exact (s : bool) (mx ex m0 : Z) :
  53 <= Zdigits2 mx ->
  -1074 <= Zdigits2 mx + ex - 53 ->
  Zdigits2 mx + ex <= 1023 ->
  mx = m0 * 2 ^ (Zdigits2 mx - 53) ->
  0 < mx ->
  binary_round_aux prec emax s mx ex loc_Exact
  = S754_finite s (Z.to_pos m0) (ex + (Zdigits2 mx - 53)).
Proof.
  intros Hd Hlow Hhigh Hm0 Hpos.
  destruct (binary_round_aux_normal s mx ex loc_Exact mx 1
              (locates_exact mx ltac:(lia)) Hd Hlow Hhigh)
    as (M & E & Hres & HM & HE & Hhalf & _).
  rewrite Hres.
  pose proof (Zdigits2_bounds mx Hpos) as Hdig.
  set (n := Zdigits2 mx - 53) in *.
  assert (Hn : 0 <= n) by (unfold n; lia).
  pose proof (Z.pow_pos_nonneg 2 n ltac:(lia) Hn) as HP.
  replace (Zdigits2 mx - 1) with (n + 52) in Hdig by (unfold n; lia).
  replace (Zdigits2 mx) with (n + 53) in Hdig by (unfold n; lia).
  rewrite !Z.pow_add_r in Hdig by lia.
  rewrite Z.mul_1_r in Hhalf.
  assert (Hstep : E - ex = n \/ E - ex = n + 1) by lia.
  destruct Hstep as [Hsame | Hcarry].
  - rewrite Hsame in Hhalf. rewrite Hm0 in Hhalf.
    replace (Z.pos M * 2 ^ n - m0 * 2 ^ n) with ((Z.pos M - m0) * 2 ^ n) in Hhalf
      by ring.
    rewrite Z.abs_mul, (Z.abs_eq (2 ^ n)) in Hhalf by lia.
    assert (HMm : Z.pos M = m0) by nia.
    f_equal; [ rewrite <- HMm; reflexivity | lia ].
  - exfalso. rewrite Hcarry, Z.pow_add_r in Hhalf by lia.
    change (2 ^ 1) with 2 in Hhalf. rewrite Hm0 in Hhalf.
    replace (Z.pos M * (2 ^ n * 2) - m0 * 2 ^ n) with ((2 * Z.pos M - m0) * 2 ^ n)
      in Hhalf by ring.
    rewrite Z.abs_mul, (Z.abs_eq (2 ^ n)) in Hhalf by lia.
    assert (HMm : 2 * Z.pos M = m0) by nia.
    rewrite Hm0 in Hdig. nia.
Qed.

Lemma shl_align_fst (m : positive) (e ez : Z) :
  ez <= e -> Z.pos (shl_align m e ez).1 = Z.pos m * 2 ^ (e - ez).
Proof.
  intros Hez. unfold shl_align.
  destruct (ez - e) as [| p | p] eqn:Hdiff; try lia.
  - replace (e - ez) with 0 by lia. cbn [fst]. lia.
  - cbn [fst]. replace (e - ez) with (Z.pos p) by lia.
    change (Pos.iter xO m p) with (shift_pos p m).
    rewrite shift_pos_correct, Z.pow_pos_fold. ring.
Qed.

Lemma shl_align_snd (m : positive) (e ez : Z) :
  ez <= e -> (shl_align m e ez).2 = ez.
Proof.
  intros Hez. unfold shl_align.
  destruct (ez - e) as [| p | p] eqn:Hdiff; try lia; cbn [snd]; lia.
Qed.

(** A whole number below 2^53, written with [k] more binary places, is
    rounded to itself. *)
Lemma binary_round_whole (w k : Z) :
  0 < w < 2 ^ 53 -> 0 <= k <= 1000 ->
  binary_round prec emax false (Z.to_pos (w * 2 ^ k)) (- k)
  = S754_finite false (Z.to_pos (w * 2 ^ (53 - Zdigits2 w))) (Zdigits2 w - 53).
Proof.
  intros Hw Hk.
  pose proof (Zdigits2_bounds w ltac:(lia)) as Hdig.
  pose proof (Zdigits2_pos w ltac:(lia)) as Hd1.
  pose proof (Zdigits2_le w 53 ltac:(lia) ltac:(lia) ltac:(lia)) as Hd2.
  set (dw := Zdigits2 w) in *.
  pose proof (Z.pow_pos_nonneg 2 k ltac:(lia) ltac:(lia)) as HPk.
  assert (Hmx : Z.pos (Z.to_pos (w * 2 ^ k)) = w * 2 ^ k)
    by (apply Z2Pos.id; nia).
  set (mx := Z.to_pos (w * 2 ^ k)) in *.
  assert (Hdmx : Zdigits2 (Z.pos mx) = dw + k).
  { apply Zdigits2_unique; [ | lia ]. rewrite Hmx.
    replace (dw + k - 1) with ((dw - 1) + k) by lia.
    rewrite !Z.pow_add_r by lia. nia. }
  unfold binary_round.
  change (Z.pos (digits2_pos mx)) with (Zdigits2 (Z.pos mx)).
  rewrite Hdmx, fexp_normal by lia.
  replace (dw + k + - k - 53) with (dw - 53) by lia.
  destruct (Z_lt_le_dec (dw - 53) (- k)) as [Hleft | Hstay].
  - pose proof (shl_align_fst mx (- k) (dw - 53) ltac:(lia)) as Hfst.
    pose proof (shl_align_snd mx (- k) (dw - 53) ltac:(lia)) as Hsnd.
    destruct (shl_align mx (- k) (dw - 53)) as [mz ez].
    cbn [fst snd] in Hfst, Hsnd. subst ez.
    assert (Hmz : Z.pos mz = w * 2 ^ (53 - dw)).
    { rewrite Hfst, Hmx, <- Z.mul_assoc, <- Z.pow_add_r by lia.
      f_equal. f_equal. lia. }
    assert (H52 : 2 ^ 52 = 2 ^ (dw - 1) * 2 ^ (53 - dw)).
    { rewrite <- Z.pow_add_r by lia. f_equal. lia. }
    assert (H53 : 2 ^ 53 = 2 ^ dw * 2 ^ (53 - dw)).
    { rewrite <- Z.pow_add_r by lia. f_equal. lia. }
    pose proof (Z.pow_pos_nonneg 2 (53 - dw) ltac:(lia) ltac:(lia)) as HPd.
    rewrite binary_round_aux_canonical.
    + f_equal. rewrite <- Hmz. reflexivity.
    + apply canonical_normal; [ | lia ].
      apply Zdigits2_unique; [ | lia ]. rewrite Hmz.
      change (2 ^ (53 - 1)) with (2 ^ 52). rewrite H52, H53. nia.
    + unfold emax, prec. lia.
  - assert (Halign : shl_align mx (- k) (dw - 53) = (mx, - k)).
    { unfold shl_align. destruct (dw - 53 - - k) as [| p | p] eqn:Hdiff;
        try reflexivity. lia. }
    rewrite Halign.
    rewrite (binary_round_aux_exact false (Z.pos mx) (- k) (w * 2 ^ (53 - dw)));
      rewrite ?Hdmx; try lia.
    + f_equal. lia.
    + rewrite Hmx, <- Z.mul_assoc, <- Z.pow_add_r by lia.
      f_equal. f_equal. lia.
Qed.

(** The double of a whole number below 2^53, written out. *)
Lemma ofZ_whole (w : Z) :
  0 < w < 2 ^ 53 ->
  ofZ (num := b64) w
  = S754_finite false (Z.to_pos (w * 2 ^ (53 - Zdigits2 w))) (Zdigits2 w - 53).
Proof.
  intros Hw. destruct (ofZ_exact w Hw) as (M & Hofz & HM & _).
  rewrite Hofz. f_equal. rewrite <- HM. reflexivity.
Qed.

(** It holds the number: [Math.floor] finds it again. *)
Lemma floor_ofZ (w : Z) :
  0 <= w < 2 ^ 53 -> Math_floor (ofZ (num := b64) w) = w.
Proof.
  intros Hw. destruct (Z.eq_dec w 0) as [-> | Hne]; [ reflexivity | ].
  rewrite ofZ_whole by lia. cbn [Math_floor b64_number floor cond_Zopp].
  pose proof (Zdigits2_le w 53 ltac:(lia) ltac:(lia) ltac:(lia)) as Hd.
  pose proof (Z.pow_pos_nonneg 2 (53 - Zdigits2 w) ltac:(lia) ltac:(lia)) as HP.
  rewrite Z2Pos.id by nia.
  rewrite Z.shiftl_div_pow2 by lia.
  replace (- (Zdigits2 w - 53)) with (53 - Zdigits2 w) by lia.
  apply Z.div_mul. lia.
Qed.

(** The difference of two whole numbers below 2^53 is computed exactly. *)
Lemma sub_ofZ (c u : Z) :
  0 <= u <= c -> c < 2 ^ 53 ->
  num_sub (ofZ (num := b64) c) (ofZ u) = ofZ (c - u).
Proof.
  intros Hu Hc. cbn [num_sub b64_number].
  destruct (Z.eq_dec u 0) as [-> | Hu0].
  { rewrite Z.sub_0_r. destruct (Z.eq_dec c 0) as [-> | Hc0]; [ reflexivity | ].
    rewrite (ofZ_whole c) by lia. reflexivity. }
  rewrite (ofZ_whole c), (ofZ_whole u) by lia.
  pose proof (Zdigits2_pos c ltac:(lia)) as Hdc1.
  pose proof (Zdigits2_le c 53 ltac:(lia) ltac:(lia) ltac:(lia)) as Hdc2.
  pose proof (Zdigits2_pos u ltac:(lia)) as Hdu1.
  pose proof (Zdigits2_le u 53 ltac:(lia) ltac:(lia) ltac:(lia)) as Hdu2.
  set (dc := Zdigits2 c) in *. set (du := Zdigits2 u) in *.
  pose proof (Z.pow_pos_nonneg 2 (53 - dc) ltac:(lia) ltac:(lia)) as HPc.
  pose proof (Z.pow_pos_nonneg 2 (53 - du) ltac:(lia) ltac:(lia)) as HPu.
  cbn [SFsub cond_Zopp].
  set (ez := Z.min (dc - 53) (du - 53)).
  assert (Hez : -52 <= ez <= 0) by (unfold ez; lia).
  rewrite !shl_align_fst by (unfold ez; lia).
  rewrite !Z2Pos.id by nia.
  rewrite <- !Z.mul_assoc, <- !Z.pow_add_r by (unfold ez; lia).
  replace (53 - dc + (dc - 53 - ez)) with (- ez) by lia.
  replace (53 - du + (du - 53 - ez)) with (- ez) by lia.
  rewrite <- Z.mul_sub_distr_r.
  destruct (Z.eq_dec c u) as [-> | Hne].
  { rewrite Z.sub_diag. reflexivity. }
  pose proof (Z.pow_pos_nonneg 2 (- ez) ltac:(lia) ltac:(lia)) as HPz.
  assert (Hw : 0 < (c - u) * 2 ^ (- ez)) by nia.
  destruct ((c - u) * 2 ^ (- ez)) as [| p | p] eqn:Hp; try lia.
  cbn [binary_normalize].
  replace p with (Z.to_pos ((c - u) * 2 ^ (- ez))) by (rewrite Hp; reflexivity).
  replace ez with (- - ez) at 2 by lia.
  rewrite binary_round_whole by lia.
  rewrite (ofZ_whole (c - u)) by lia. reflexivity.
Qed.

(** On doubles too what is left of a count below 2^53 is the count less
    the use. *)
Lemma b64_leftOf (counts used : gmap denom Z) (d : denom) :
  0 <= orZeroZ (used !! d) <= orZeroZ (counts !! d) ->
  orZeroZ (counts !! d) <= maxSafeInteger ->
  leftOf (num := b64) counts used d
  = orZeroZ (counts !! d) - orZeroZ (used !! d).
Proof.
  unfold maxSafeInteger. intros Hu Hc. unfold leftOf.
  rewrite sub_ofZ, floor_ofZ by lia. lia.
Qed.

End WholeNumbers.

Section ValidationOnDoubles.

Import Binary64.

(** A mantissa of at most 53 digits is moved up to fill the 53 places. *)
Lemma binary_round_short (s : bool) (w : positive) (e : Z) :
  Zdigits2 (Z.pos w) <= 53 -> -1074 <= Zdigits2 (Z.pos w) + e - 53 ->
  e <= 971 ->
  binary_round prec emax s w e
  = S754_finite s (Z.to_pos (Z.pos w * 2 ^ (53 - Zdigits2 (Z.pos w))))
      (e - (53 - Zdigits2 (Z.pos w))).
Proof.
  intros Hd Hlow Hhigh.
  pose proof (Zdigits2_bounds (Z.pos w) ltac:(lia)) as Hdig.
  pose proof (Zdigits2_pos (Z.pos w) ltac:(lia)) as Hd1.
  set (dw := Zdigits2 (Z.pos w)) in *.
  unfold binary_round.
  change (Z.pos (digits2_pos w)) with (Zdigits2 (Z.pos w)). fold dw.
  rewrite fexp_normal by lia.
  pose proof (shl_align_fst w e (dw + e - 53) ltac:(lia)) as Hfst.
  pose proof (shl_align_snd w e (dw + e - 53) ltac:(lia)) as Hsnd.
  destruct (shl_align w e (dw + e - 53)) as [mz ez].
  cbn [fst snd] in Hfst, Hsnd. subst ez.
  replace (e - (dw + e - 53)) with (53 - dw) in Hfst by lia.
  assert (H52 : 2 ^ 52 = 2 ^ (dw - 1) * 2 ^ (53 - dw)).
  { rewrite <- Z.pow_add_r by lia. f_equal. lia. }
  assert (H53 : 2 ^ 53 = 2 ^ dw * 2 ^ (53 - dw)).
  { rewrite <- Z.pow_add_r by lia. f_equal. lia. }
  pose proof (Z.pow_pos_nonneg 2 (53 - dw) ltac:(lia) ltac:(lia)) as HPd.
  rewrite binary_round_aux_canonical.
  - f_equal; [ rewrite <- Hfst; reflexivity | lia ].
  - apply canonical_normal; [ | lia ].
    apply Zdigits2_unique; [ | lia ]. rewrite Hfst.
    change (2 ^ (53 - 1)) with (2 ^ 52). rewrite H52, H53. nia.
  - unfold emax, prec. lia.
Qed.

(** A number that is a double is rounded to itself. *)
Lemma binary_round_canonical (s : bool) (m : positive) (e : Z) :
  bounded prec emax m e = true ->
  binary_round prec emax s m e = S754_finite s m e.
Proof.
  unfold bounded. intros Hb. apply andb_true_iff in Hb as [Hcanon He].
  apply Z.leb_le in He. unfold binary_round.
  pose proof Hcanon as Hc. unfold canonical_mantissa in Hc.
  apply Z.eqb_eq in Hc. rewrite Hc.
  unfold shl_align. rewrite Z.sub_diag.
  apply binary_round_aux_canonical; assumption.
Qed.

Lemma bounded_digits (m : positive) (e : Z) :
  bounded prec emax m e = true -> Zdigits2 (Z.pos m) <= 53.
Proof.
  unfold bounded, canonical_mantissa. intros Hb.
  apply andb_true_iff in Hb as [Hcanon _]. apply Z.eqb_eq in Hcanon.
  change (Z.pos (digits2_pos m)) with (Zdigits2 (Z.pos m)) in Hcanon.
  unfold fexp, emin, prec, emax in Hcanon. lia.
Qed.

(** What [x % y] is for a double [x] that is positive and a normal [y]:
    zero, or a positive number below [y]. *)
Lemma rem_shape (mx : positive) (ex : Z) (my : positive) (ey : Z) :
  bounded prec emax mx ex = true ->
  2 ^ 52 <= Z.pos my < 2 ^ 53 -> -1000 <= ey <= 900 ->
  rem (S754_finite false mx ex) (S754_finite false my ey) = S754_zero false
  \/ exists (m : positive) (e : Z),
       rem (S754_finite false mx ex) (S754_finite false my ey)
       = S754_finite false m e
       /\ e <= ey
       /\ Z.pos m < Z.pos my * 2 ^ (ey - e).
Proof.
  intros Hbounded Hmy Hey.
  pose proof (bounded_digits mx ex Hbounded) as Hdx.
  pose proof (Zdigits2_bounds (Z.pos mx) ltac:(lia)) as Hdigx.
  assert (Hmx : Z.pos mx < 2 ^ 53).
  { assert (2 ^ Zdigits2 (Z.pos mx) <= 2 ^ 53) by (apply Z.pow_le_mono_r; lia).
    lia. }
  unfold rem. cbn [cond_Zopp].
  destruct (Z_lt_le_dec ex ey) as [Hlt | Hge].
  - right. exists mx, ex.
    replace (Z.min ex ey) with ex by lia.
    rewrite Z.sub_diag. change (2 ^ 0) with 1. rewrite Z.mul_1_r.
    assert (Hbig : 2 ^ 53 <= Z.pos my * 2 ^ (ey - ex)).
    { assert (2 ^ 1 <= 2 ^ (ey - ex)) by (apply Z.pow_le_mono_r; lia).
      change (2 ^ 1) with 2 in *. change (2 ^ 53) with (2 ^ 52 * 2). nia. }
    rewrite Z.rem_small by lia.
    cbn [binary_normalize].
    split; [ apply binary_round_canonical, Hbounded | ].
    split; lia.
  - replace (Z.min ex ey) with ey by lia.
    rewrite Z.sub_diag. change (2 ^ 0) with 1. rewrite (Z.mul_1_r (Z.pos my)).
    pose proof (Z.pow_pos_nonneg 2 (ex - ey) ltac:(lia) ltac:(lia)) as HP.
    pose proof (Z.rem_bound_pos (Z.pos mx * 2 ^ (ex - ey)) (Z.pos my)
                  ltac:(nia) ltac:(lia)) as Hr.
    destruct (Z.rem (Z.pos mx * 2 ^ (ex - ey)) (Z.pos my)) as [| r | r];
      [ left; reflexivity | | lia ].
    right. cbn [binary_normalize].
    pose proof (Zdigits2_pos (Z.pos r) ltac:(lia)) as Hdr1.
    pose proof (Zdigits2_le (Z.pos r) 53 ltac:(lia) ltac:(lia) ltac:(lia)) as Hdr2.
    rewrite binary_round_short by lia.
    set (j := 53 - Zdigits2 (Z.pos r)) in *.
    pose proof (Z.pow_pos_nonneg 2 j ltac:(lia) ltac:(unfold j; lia)) as HPj.
    eexists _, _. split; [ reflexivity | ].
    split; [ unfold j; lia | ].
    rewrite Z2Pos.id by nia.
    replace (ey - (ey - j)) with j by lia. nia.
Qed.

(** A difference that comes out below zero. *)
Lemma sub_negative (m : positive) (e : Z) (my : positive) (ey : Z) :
  e <= ey -> Z.pos m < Z.pos my * 2 ^ (ey - e) ->
  signed true
    (SFsub prec emax (S754_finite false m e) (S754_finite false my ey)).
Proof.
  intros He Hlt. cbn [SFsub cond_Zopp].
  replace (Z.min e ey) with e by lia.
  rewrite !shl_align_fst by lia.
  rewrite Z.sub_diag. change (2 ^ 0) with 1. rewrite Z.mul_1_r.
  destruct (Z.pos m - Z.pos my * 2 ^ (ey - e)) as [| p | p] eqn:Hp; try lia.
  cbn [binary_normalize]. unfold binary_round.
  destruct (shl_align p e _) as [mz ez].
  apply binary_round_aux_signed. lia.
Qed.

Lemma signed_below (y : b64) (m : positive) (e : Z) :
  signed true y -> SFltb y (S754_finite false m e) = true.
Proof.
  destruct y as [s | s | | s my ey]; cbn [signed]; intros Hs;
    try contradiction; subst; reflexivity.
Qed.

(** For an amount that is not negative the test of the script is the
    specification's, on doubles too: the remainder is within 0.001 of 0 or
    of the face value. *)
Lemma b64_amount_valid_as_specified (d : denom) (x : b64) :
  valid_binary prec emax x = true ->
  num_leb (literal 0 0) x = true ->
  validateInput false (Denomination d) (Text (Some x))
  = specValid false (Denomination d) (Text (Some x)).
Proof.
  intros Hvalid Hx.
  destruct (b64_face d) as (Md & Ed & Hface & HMd & HEd & _).
  unfold validateInput, specValid, within.
  cbn [isBlank hasDenomination parseFloat]. rewrite Hface, b64_milli.
  change (literal (num := b64) 0 0) with (S754_zero false) in *.
  cbn [num_rem num_sub num_ltb b64_number].
  destruct x as [s | s | | s mx ex].
  - destruct s; reflexivity.
  - destruct s; [ discriminate Hx | reflexivity ].
  - discriminate Hx.
  - destruct s; [ discriminate Hx | ].
    cbn [valid_binary] in Hvalid.
    destruct (rem_shape mx ex Md Ed Hvalid HMd ltac:(lia))
      as [Hzero | (m & e & Hrem & He & Hlt)].
    + rewrite Hzero. reflexivity.
    + rewrite Hrem.
      rewrite (signed_below _ _ _ (sub_negative m e Md Ed He Hlt)).
      cbn [SFsub]. cbn [negb].
      replace (SFltb (S754_finite true m e)
                 (S754_finite false 4611686018427388 (-62))) with true
        by reflexivity.
      rewrite andb_true_r. reflexivity.
Qed.

End ValidationOnDoubles.

(* ===================================================================== *)
(** ** A target that is zero or negative *)
(* ===================================================================== *)

Section NonPositiveTarget.

Context {num : Type} `{JsNumberLaws num}.

Local Open Scope js_scope.

(** C7. For a cash total that is zero or negative, whatever the counts,
    [calculateFakelos] uses no bill and no coin and leaves nothing above
    0.001 to report; what it renders lists no piece and no uncovered
    amount. *)
Theorem nonpositive_target_allocates_nothing (cashTotal : num) :
  (cashTotal <=? literal 0 0) = true ->
  (forall billCounts coinCounts,
     usedBills (fakelosAllocate billCounts coinCounts cashTotal) = ∅
     /\ usedCoins (fakelosAllocate billCounts coinCounts cashTotal) = ∅
     /\ (literal 1 3 <? remaining (fakelosAllocate billCounts coinCounts cashTotal))
        = false)
  /\ (forall (s : state num) (out : cachedOutputs num),
        readCashTotal out = cashTotal ->
        usedItems (calculateFakelos s out) = []
        /\ remainingUncovered (calculateFakelos s out) = literal 0 0).
Proof.
  intros Hnonpos. split.
  - intros billCounts coinCounts.
    pose proof (fakelosAllocate_passes billCounts coinCounts cashTotal) as Hpass.
    cbv zeta in Hpass. destruct Hpass as [Hb Hc].
    pose proof (round2_nonpos cashTotal Hnonpos) as Hrounded.
    rewrite (allocate_stop _ _ _ _ Hrounded) in Hb, Hc.
    cbn [fst snd] in Hc.
    rewrite (allocate_stop _ _ _ _ Hrounded) in Hc.
    injection Hb as Hbills. injection Hc as Hcoins Hrest.
    rewrite <- Hbills, <- Hcoins, <- Hrest.
    repeat split. apply nonpos_not_above, Hrounded.
  - intros s out Hcash. unfold calculateFakelos.
    rewrite Hcash, Hnonpos. split; reflexivity.
Qed.

End NonPositiveTarget.

Lemma nonpositive_target_allocates_nothing_witness :
  (forall billCounts coinCounts,
     usedBills (fakelosAllocate (num := Binary64.b64) billCounts coinCounts
                  (literal (-1000) 0)) = ∅
     /\ usedCoins (fakelosAllocate (num := Binary64.b64) billCounts coinCounts
                     (literal (-1000) 0)) = ∅
     /\ num_ltb (literal 1 3)
          (remaining (fakelosAllocate (num := Binary64.b64) billCounts coinCounts
                        (literal (-1000) 0)))
        = false)
  /\ (forall (s : state Binary64.b64) (out : cachedOutputs Binary64.b64),
        readCashTotal out = literal (-1000) 0 ->
        usedItems (calculateFakelos s out) = []
        /\ remainingUncovered (calculateFakelos s out) = literal 0 0).
Proof.
  refine (nonpositive_target_allocates_nothing
            (num := Binary64.b64) (literal (-1000) 0) _).
  vm_compute. reflexivity.
Defined.

(* ===================================================================== *)
(** ** The derived totals *)
(* ===================================================================== *)

(** C2. The deductions are 1000, the exoda total and the four channels
    wolt, efood, mypos and eurobank, each read as a plain value whatever the
    mode; the cash total is the grand total less the deductions, as it comes
    (a fresh page shows -1000); the two limited totals add the exoda total,
    and mypos and eurobank, back. *)
Theorem totals_formulas :
  (forall (num : Type) (H : JsNumber num) (s : state num),
     (deductionsTotal s
      = literal 1000 0 + getTotalExoda s + deductionChannel s wolt
        + deductionChannel s efood + deductionChannel s mypos
        + deductionChannel s eurobank
      /\ cashTotal s = grandTotal s - deductionsTotal s
      /\ cashLimTotal s = cashTotal s + getTotalExoda s
      /\ incomeLimTotal s
         = cashTotal s + getTotalExoda s + deductionChannel s mypos
           + deductionChannel s eurobank
      /\ forall countMode,
           deductionsTotal (withMode countMode s) = deductionsTotal s)%js)
  /\ cashTotal (num := Binary64.b64) blankState = literal (-1000) 0
  /\ cashTotal (num := Exact.exact) blankState = literal (-1000) 0.
Proof.
  split; [| split; vm_compute; reflexivity].
  intros num H s. unfold deductionsTotal, deductions, deductionChannel.
  cbn [foldl]. repeat split.
Qed.

(* ===================================================================== *)
(** ** The scenario with target 17.35 *)
(* ===================================================================== *)

(** C8. With no bills and the coins 2: 5, 1: 5, 0.5: 2, 0.2: 1, 0.1: 0,
    0.05: 0, the target 17.35 takes the five coins of 2, the five of 1 and
    the two of 0.5, 16.00 in all, which leaves 1.35; of the 0.2 coin six are
    needed and the one available is used; 1.15 stays uncovered, and is what
    the view reports as missing.  On doubles and in exact arithmetic. *)
Theorem scenario_17_35 :
  (fakelosCoins (num := Binary64.b64) someCoins [coin_2; coin_1; coin_0_5] ∅
     (round2 (literal 1735 2)) (literal 0 0)
   = (list_to_map [(coin_2, 5); (coin_1, 5); (coin_0_5, 2)],
      literal 135 2, literal 16 0)
   /\ neededOf (num := Binary64.b64) Coin (literal 135 2)
        (denominationValues coin_0_2) = 6
   /\ usedBills (fakelosAllocate (num := Binary64.b64) noBills someCoins
                   (literal 1735 2)) = ∅
   /\ usedCoins (fakelosAllocate (num := Binary64.b64) noBills someCoins
                   (literal 1735 2))
      = list_to_map [(coin_2, 5); (coin_1, 5); (coin_0_5, 2); (coin_0_2, 1)]
   /\ remaining (fakelosAllocate (num := Binary64.b64) noBills someCoins
                   (literal 1735 2)) = literal 115 2
   /\ remainingUncovered
        (calculateFakelos (num := Binary64.b64) (countState someCoinsTyped)
           (outputsWithCash (literal 1735 2))) = literal 115 2)
  /\ (fakelosCoins (num := Exact.exact) someCoins [coin_2; coin_1; coin_0_5] ∅
        (round2 (literal 1735 2)) (literal 0 0)
      = (list_to_map [(coin_2, 5); (coin_1, 5); (coin_0_5, 2)],
         literal 135 2, literal 16 0)
      /\ neededOf (num := Exact.exact) Coin (literal 135 2)
           (denominationValues coin_0_2) = 6
      /\ usedBills (fakelosAllocate (num := Exact.exact) noBills someCoins
                      (literal 1735 2)) = ∅
      /\ usedCoins (fakelosAllocate (num := Exact.exact) noBills someCoins
                      (literal 1735 2))
         = list_to_map [(coin_2, 5); (coin_1, 5); (coin_0_5, 2); (coin_0_2, 1)]
      /\ remaining (fakelosAllocate (num := Exact.exact) noBills someCoins
                      (literal 1735 2)) = literal 115 2
      /\ remainingUncovered
           (calculateFakelos (num := Exact.exact) (countState someCoinsTyped)
              (outputsWithCash (literal 1735 2))) = literal 115 2).
Proof.
  split; repeat split; vm_compute; reflexivity.
Qed.

(* ===================================================================== *)
(** ** The mode converter *)
(* ===================================================================== *)

Section ConverterFacts.

Context {num : Type} `{JsNumber num}.

(** Toggling to the other mode converts each denomination input once. *)
Lemma toggleInputMode_field (countMode : bool) (s : state num) (d : denom) :
  isCountMode s = negb countMode ->
  cachedInputs (toggleInputMode countMode s) (Denomination d)
  = convertField countMode d (cachedInputs s (Denomination d)).
Proof.
  intros Hmode. unfold toggleInputMode. rewrite Hmode.
  destruct countMode; cbn [negb Bool.eqb cachedInputs];
    destruct d; reflexivity.
Qed.

(** Back in count mode after a visit to amount mode, a denomination input
    holds the round trip of what it held. *)
Lemma toggle_twice_field (s : state num) (d : denom) :
  isCountMode s = true ->
  cachedInputs (toggleInputMode true (toggleInputMode false s)) (Denomination d)
  = roundTrip d (cachedInputs s (Denomination d)).
Proof.
  intros Hmode.
  rewrite (toggleInputMode_field true).
  - rewrite (toggleInputMode_field false) by exact Hmode. reflexivity.
  - unfold toggleInputMode. rewrite Hmode. reflexivity.
Qed.

End ConverterFacts.

Section RoundTripExact.

Import Exact.

Local Open Scope Q_scope.

Lemma exact_count_nonzero (c : Z) :
  (0 < c)%Z -> num_eqb (ofZ (num := exact) c) (literal 0 0) = false.
Proof.
  intros Hc. cbn [num_eqb exact_number].
  destruct (Qeq_bool (ofZ c) (literal 0 0)) eqn:Heq; [| reflexivity].
  apply Qeq_bool_iff in Heq. rewrite exact_ofZ, exact_zero in Heq.
  unfold Qeq in Heq. simpl in Heq. lia.
Qed.

(** The amount of [c] pieces, printed with two decimals and read back. *)
Lemma exact_amount_of_count (d : denom) (c : Z) :
  (0 <= c)%Z ->
  toFixed2 (num_mul (ofZ (num := exact) c) (denominationValues d))
  == c * faceCents d # 100.
Proof.
  intros Hc. cbn [toFixed2 exact_number num_mul]. unfold fixed2.
  assert (Hamount : Qred (ofZ c * denominationValues d) == c * faceCents d # 100).
  { rewrite Qred_correct, exact_ofZ, (exact_face d).
    unfold Qeq, Qmult, inject_Z. simpl. lia. }
  assert (Hcents : Qred (ofZ c * denominationValues d) * 100
                   == inject_Z (c * faceCents d)).
  { rewrite Hamount. unfold Qeq, Qmult, inject_Z. simpl. lia. }
  pose proof (faceCents_pos d) as Hface.
  destruct (Qle_bool 0 (Qred (ofZ c * denominationValues d))) eqn:Hsign.
  - rewrite Qred_correct. unfold round. rewrite Hcents, Qfloor_half_up.
    reflexivity.
  - exfalso. apply not_true_iff_false in Hsign. apply Hsign.
    apply Qle_bool_iff. rewrite Hamount. unfold Qle. simpl. nia.
Qed.

Lemma exact_written (x : exact) : written x == x.
Proof.
  unfold written. cbn [num_eqb exact_number].
  destruct (Qeq_bool x (literal 0 0)) eqn:Hzero; [| reflexivity].
  apply Qeq_bool_iff in Hzero. symmetry. exact Hzero.
Qed.

Lemma exact_roundTrip (d : denom) (c : Z) :
  (0 <= c)%Z ->
  roundTrip (num := exact) d (Text (Some (ofZ c))) = Text (Some (ofZ c)).
Proof.
  intros Hc. unfold roundTrip.
  destruct (Z.eq_dec c 0%Z) as [-> | Hne]; [reflexivity |].
  assert (Hpos : (0 < c)%Z) by lia.
  pose proof (faceCents_pos d) as Hface.
  pose proof (exact_amount_of_count d c Hc) as Hamount.
  rewrite <- exact_written in Hamount.
  unfold convertField at 2. cbn [isBlank parseFloat].
  rewrite (exact_count_nonzero c Hpos).
  unfold convertField. cbn [isBlank parseFloat].
  set (v := written (toFixed2 (num_mul (ofZ c) (denominationValues d)))) in *.
  assert (Hnonzero : num_eqb v (literal 0 0) = false).
  { cbn [num_eqb exact_number].
    destruct (Qeq_bool v (literal 0 0)) eqn:Heq; [| reflexivity].
    apply Qeq_bool_iff in Heq. rewrite Hamount, exact_zero in Heq.
    unfold Qeq in Heq. simpl in Heq. nia. }
  rewrite Hnonzero.
  assert (Hcount : Math_round (num_div v (denominationValues d)) = c).
  { apply exact_round_whole.
    rewrite exact_div, Hamount, (exact_face d).
    unfold Qeq, Qdiv, Qmult, Qinv, inject_Z.
    destruct (faceCents d) as [| p | p]; try lia. simpl. lia. }
  rewrite Hcount. reflexivity.
Qed.

End RoundTripExact.

(** C3 (as amended).  A denomination field in count mode that holds the
    count [c] holds [c] again after a switch to amount mode and back: on
    doubles for every count up to [roundTripCount], which is 10^15, and in
    exact arithmetic for every count. *)
Theorem count_amount_count_round_trip :
  (forall (s : state Binary64.b64) (d : denom) (c : Z),
     isCountMode s = true ->
     cachedInputs s (Denomination d) = Text (Some (ofZ c)) ->
     0 <= c <= roundTripCount ->
     cachedInputs (toggleInputMode true (toggleInputMode false s))
       (Denomination d)
     = Text (Some (ofZ c)))
  /\ (forall (s : state Exact.exact) (d : denom) (c : Z),
        isCountMode s = true ->
        cachedInputs s (Denomination d) = Text (Some (ofZ c)) ->
        0 <= c ->
        cachedInputs (toggleInputMode true (toggleInputMode false s))
          (Denomination d)
        = Text (Some (ofZ c))).
Proof.
  split; intros s d c Hmode Hfield Hrange;
    rewrite (toggle_twice_field s d Hmode), Hfield.
  - apply b64_roundTrip. exact Hrange.
  - apply exact_roundTrip. exact Hrange.
Qed.

Lemma count_amount_count_round_trip_witness :
  cachedInputs
    (toggleInputMode true
       (toggleInputMode false
          (countState (num := Binary64.b64) (fun _ => 999999999999999))))
    (Denomination coin_0_05)
  = Text (Some (ofZ 999999999999999)).
Proof.
  refine (proj1 count_amount_count_round_trip
            (countState (fun _ => 999999999999999)) coin_0_05
            999999999999999 _ _ _).
  - reflexivity.
  - reflexivity.
  - unfold roundTripCount. lia.
Defined.

(** C3 as stated fails on doubles: 2882303761517121 bills of 100 come back
    from amount mode as 2882303761517122, and 4450871745556033 as
    4450871745556034.  The amount of the latter, 445087174555603300, is not
    a double; the nearest one is 445087174555603328, and a hundredth of it
    is nearest to 4450871745556033.5, which [Math.round] rounds up. *)
Lemma round_trip_fails_on_large_count :
  cachedInputs
    (toggleInputMode true
       (toggleInputMode false
          (countState (num := Binary64.b64) (fun _ => 4450871745556033))))
    (Denomination bill_100)
  = Text (Some (ofZ 4450871745556034))
  /\ cachedInputs
       (toggleInputMode true
          (toggleInputMode false
             (countState (num := Binary64.b64) (fun _ => 4450871745556033))))
       (Denomination bill_100)
     <> Text (Some (ofZ 4450871745556033))
  /\ cachedInputs
       (toggleInputMode true
          (toggleInputMode false
             (countState (num := Binary64.b64) (fun _ => 2882303761517121))))
       (Denomination bill_100)
     = Text (Some (ofZ 2882303761517122))
  /\ cachedInputs
       (toggleInputMode true
          (toggleInputMode false
             (countState (num := Binary64.b64) (fun _ => 2882303761517121))))
       (Denomination bill_100)
     <> Text (Some (ofZ 2882303761517121)).
Proof.
  split; [ | split; [ | split ] ].
  - vm_compute. reflexivity.
  - vm_compute. discriminate.
  - vm_compute. reflexivity.
  - vm_compute. discriminate.
Qed.

(* ===================================================================== *)
(** ** Validation *)
(* ===================================================================== *)

Section ValidationExact.

Import Exact.

Local Open Scope Q_scope.

(** The remainder of a non-negative amount by a face value lies between 0
    and the face value. *)
Lemma exact_rem_bounds (x : exact) (d : denom) :
  0 <= x ->
  0 <= num_rem x (denominationValues d)
  /\ num_rem x (denominationValues d) < denominationValues d.
Proof.
  intros Hx. cbn [num_rem exact_number]. unfold rem.
  pose proof (faceCents_pos d) as Hface.
  assert (Hpos : 0 < denominationValues (num := exact) d).
  { rewrite (exact_face d). unfold Qlt. simpl. lia. }
  set (y := denominationValues (num := exact) d) in *.
  assert (Hq : 0 <= x / y).
  { apply Qle_shift_div_l; [exact Hpos |]. rewrite Qmult_0_l. exact Hx. }
  unfold trunc. apply Qle_bool_iff in Hq as Hq'. rewrite Hq'.
  rewrite Qred_correct.
  pose proof (Qfloor_le (x / y)) as Hlow.
  pose proof (Qlt_floor (x / y)) as Hhigh.
  assert (Hxy : x == y * (x / y)).
  { rewrite Qmult_div_r; [reflexivity |]. intros Hzero.
    rewrite Hzero in Hpos. discriminate. }
  split.
  - apply (Qmult_le_l _ _ y Hpos) in Hlow. rewrite <- Hxy in Hlow.
    apply -> Qle_minus_iff in Hlow. unfold Qminus. exact Hlow.
  - apply (Qmult_lt_l _ _ y Hpos) in Hhigh. rewrite <- Hxy in Hhigh.
    rewrite inject_Z_plus, Qmult_plus_distr_r, Qmult_1_r in Hhigh.
    apply Qlt_minus_iff. apply Qlt_minus_iff in Hhigh.
    assert (Hsame : y + - (x - y * inject_Z (Qfloor (x / y)))
                    == y * inject_Z (Qfloor (x / y)) + y + - x) by ring.
    rewrite Hsame. exact Hhigh.
Qed.

Lemma exact_ltb_true (a b : exact) : a < b -> num_ltb a b = true.
Proof.
  intros Hlt. cbn [num_ltb exact_number]. unfold ltb.
  apply negb_true_iff. apply not_true_iff_false. intros Hle.
  apply Qle_bool_iff in Hle. apply (Qlt_irrefl a).
  apply Qlt_le_trans with b; assumption.
Qed.

Lemma exact_ltb_same (a a' b : exact) : a == a' -> num_ltb a b = num_ltb a' b.
Proof.
  intros Heq. cbn [num_ltb exact_number]. unfold ltb. rewrite Heq. reflexivity.
Qed.

(** For an amount that is not negative the script's test is the
    specification's: the remainder is within 0.001 of 0 or of the face
    value. *)
Lemma exact_amount_valid_as_specified (d : denom) (x : exact) :
  num_leb (literal 0 0) x = true ->
  validateInput false (Denomination d) (Text (Some x))
  = specValid false (Denomination d) (Text (Some x)).
Proof.
  intros Hx. apply Qle_bool_iff in Hx. rewrite exact_zero in Hx.
  destruct (exact_rem_bounds x d Hx) as [Hlow Hhigh].
  unfold validateInput, specValid, within.
  cbn [isBlank hasDenomination parseFloat].
  set (r := num_rem x (denominationValues d)) in *.
  set (y := denominationValues (num := exact) d) in *.
  assert (Heps : 0 < literal (num := exact) 1 3) by reflexivity.
  rewrite (exact_ltb_same (num_sub r (literal 0 0)) r).
  2: { rewrite exact_sub, exact_zero. ring. }
  rewrite (exact_ltb_true (num_sub (literal 0 0) r)).
  2: { rewrite exact_sub, exact_zero.
       apply Qle_lt_trans with 0; [| exact Heps].
       apply Qle_minus_iff. ring_simplify. exact Hlow. }
  rewrite (exact_ltb_true (num_sub r y)).
  2: { rewrite exact_sub.
       apply Qlt_trans with 0; [| exact Heps].
       apply Qlt_minus_iff. ring_simplify.
       apply Qlt_minus_iff in Hhigh. ring_simplify in Hhigh.
       setoid_rewrite Qplus_comm. exact Hhigh. }
  rewrite andb_true_r. reflexivity.
Qed.

End ValidationExact.

(** C5 (as amended).  Empty input is valid.  A denomination field in count
    mode is valid iff its text parses to an integer that is not negative.
    In amount mode it is valid when its text does not parse to a number,
    and, for a parsed value that is not negative, iff the value modulo the
    face value is below 0.001 or less than 0.001 short of the face value,
    which is the specification's "within 0.001 of 0 or of the face value",
    on doubles and in exact arithmetic; 0.19999 for the 0.2 coin is valid.
    Any other field is valid. *)
Theorem validation_rules :
  (forall (num : Type) (H : JsNumber num),
     (forall countMode id, validateInput countMode id Blank = true)
     /\ (forall d v,
           validateInput true (Denomination d) (Text v)
           = match v with
             | Some x => Number_isInteger x && num_leb (literal 0 0) x
             | None => false
             end)
     /\ (forall d, validateInput false (Denomination d) (Text None) = true)
     /\ (forall d x,
           num_leb (literal 0 0) x = true ->
           validateInput false (Denomination d) (Text (Some x))
           = num_ltb (num_rem x (denominationValues d)) (literal 1 3)
             || num_ltb (num_sub (denominationValues d)
                           (num_rem x (denominationValues d)))
                  (literal 1 3))
     /\ (forall countMode o value,
           validateInput countMode (Other o) value = true)
     /\ (forall countMode i value,
           validateInput countMode (Exoda i) value = true))
  /\ (forall d (x : Binary64.b64),
        valid_binary Binary64.prec Binary64.emax x = true ->
        num_leb (literal 0 0) x = true ->
        validateInput false (Denomination d) (Text (Some x))
        = specValid false (Denomination d) (Text (Some x)))
  /\ (forall d (x : Exact.exact),
        num_leb (literal 0 0) x = true ->
        validateInput false (Denomination d) (Text (Some x))
        = specValid false (Denomination d) (Text (Some x)))
  /\ validateInput (num := Binary64.b64) false (Denomination coin_0_2)
       (Text (Some (literal 19999 5))) = true
  /\ validateInput (num := Exact.exact) false (Denomination coin_0_2)
       (Text (Some (literal 19999 5))) = true.
Proof.
  split; [| split; [exact b64_amount_valid_as_specified |
                    split; [exact exact_amount_valid_as_specified |
                            split; vm_compute; reflexivity]]].
  intros num H.
  refine (conj _ (conj _ (conj _ (conj _ (conj _ _))))).
  - intros countMode id. reflexivity.
  - intros d [x |]; reflexivity.
  - intros d. reflexivity.
  - intros d x Hx. reflexivity.
  - intros countMode o [| v]; reflexivity.
  - intros countMode i [| v]; reflexivity.
Qed.

Lemma validation_rules_witness :
  validateInput (num := Binary64.b64) false (Denomination bill_5)
    (Text (Some (literal 1000001 5)))
  = specValid (num := Binary64.b64) false (Denomination bill_5)
      (Text (Some (literal 1000001 5))).
Proof.
  refine (proj1 (proj2 validation_rules) bill_5 (literal 1000001 5) _ _).
  - vm_compute. reflexivity.
  - vm_compute. reflexivity.
Defined.

(** C5 as stated fails: a text that is no number, such as a lone minus
    sign, is valid for the script in amount mode, and its value is within
    0.001 of nothing. *)
Lemma validation_accepts_unparsed_amount :
  validateInput (num := Binary64.b64) false (Denomination bill_5) (Text None)
  = true
  /\ specValid (num := Binary64.b64) false (Denomination bill_5) (Text None)
     = false.
Proof. split; reflexivity. Qed.

(** What the script does with a negative amount: -3 in the field of the 5
    bill passes, its remainder -3 being below 0.001. *)
Example validation_of_negative_amount :
  validateInput (num := Binary64.b64) false (Denomination bill_5)
    (Text (Some (literal (-3) 0))) = true
  /\ num_rem (num := Binary64.b64) (literal (-3) 0) (denominationValues bill_5)
     = literal (-3) 0
  /\ specValid (num := Binary64.b64) false (Denomination bill_5)
       (Text (Some (literal (-3) 0))) = false.
Proof. repeat split; vm_compute; reflexivity. Qed.

(* ===================================================================== *)
(** ** The adjustment entries *)
(* ===================================================================== *)

Section ExodaFacts.

Context {num : Type} `{JsNumber num}.

Lemma from1_succ (n : nat) : from1 (S n) = from1 n ++ [S n].
Proof. unfold from1. rewrite seq_S. reflexivity. Qed.

Lemma removeCached_lookup {A} (n : nat) (inputs : gmap nat A) (i : nat) :
  removeCached n inputs !! i
  = if decide (1 <= i <= n)%nat then None else inputs !! i.
Proof.
  unfold removeCached. induction n as [| n IH].
  - simpl. case_decide; [lia | reflexivity].
  - rewrite from1_succ, foldl_app. cbn [foldl].
    destruct (decide (i = S n)) as [Heq | Hne].
    + clear IH. rewrite Heq, lookup_delete_eq. case_decide; [reflexivity | lia].
    + rewrite lookup_delete_ne by congruence. rewrite IH.
      repeat case_decide; try reflexivity; lia.
Qed.

Lemma createInputs_lookup {A} (blank : A) (saved : gmap nat A) (count : nat)
    (inputs : gmap nat A) (i : nat) :
  createInputs blank saved count inputs !! i
  = if decide (1 <= i <= count)%nat
    then Some (match saved !! i with Some value => value | None => blank end)
    else inputs !! i.
Proof.
  unfold createInputs. induction count as [| n IH].
  - simpl. case_decide; [lia | reflexivity].
  - rewrite from1_succ, foldl_app. cbn [foldl].
    destruct (decide (i = S n)) as [Heq | Hne].
    + clear IH. rewrite Heq, lookup_insert_eq. case_decide; [reflexivity | lia].
    + rewrite lookup_insert_ne by congruence. rewrite IH.
      repeat case_decide; try reflexivity; lia.
Qed.

(** What is saved of the inputs 1..n: those whose value is not skipped. *)
Lemma saved_lookup {A} (skip : A -> bool) (inputs : gmap nat A) (n i : nat) :
  foldl (fun (saved : gmap nat A) j =>
           match inputs !! j with
           | Some value => if skip value then saved else <[j := value]> saved
           | None => saved
           end) ∅ (from1 n) !! i
  = if decide (1 <= i <= n)%nat
    then match inputs !! i with
         | Some value => if skip value then None else Some value
         | None => None
         end
    else None.
Proof.
  induction n as [| n IH].
  - simpl. rewrite lookup_empty. case_decide; [lia | reflexivity].
  - rewrite from1_succ, foldl_app. cbn [foldl].
    destruct (decide (i = S n)) as [Heq | Hne].
    + rewrite Heq in *. clear Heq.
      destruct (inputs !! S n) as [value |] eqn:Hvalue.
      * destruct (skip value).
        -- rewrite IH. repeat case_decide; try reflexivity; lia.
        -- clear IH. rewrite lookup_insert_eq. case_decide; [reflexivity | lia].
      * rewrite IH. repeat case_decide; try reflexivity; lia.
    + assert (Hrest : forall saved : gmap nat A,
                match inputs !! S n with
                | Some value =>
                    if skip value then saved else <[S n := value]> saved
                | None => saved
                end !! i = saved !! i).
      { intros saved. destruct (inputs !! S n) as [value |]; [| reflexivity].
        destruct (skip value); [reflexivity |].
        apply lookup_insert_ne. congruence. }
      rewrite Hrest, IH.
      repeat case_decide; try reflexivity; lia.
Qed.

(** An input that is kept keeps its value: its saved value if it had one,
    and an empty value is recreated empty. *)
Lemma createExodaFields_retained (count : nat) (s : state num) (i : nat)
    (value : inputValue num) :
  (1 <= i <= count)%nat -> (i <= currentExodaCount s)%nat ->
  exodaInputs s !! i = Some value ->
  exodaInputs (createExodaFields count s) !! i = Some value
  /\ exodaInputs (createExodaFieldsDesc count s) !! i = Some value.
Proof.
  intros Hcount Hcurrent Hvalue.
  assert (Hnew : createInputs Blank (existingValues s) count
                   (removeCached (currentExodaCount s) (exodaInputs s)) !! i
                 = Some value).
  { rewrite createInputs_lookup. unfold existingValues.
    rewrite (saved_lookup isBlank), Hvalue.
    repeat case_decide; try lia.
    destruct value; reflexivity. }
  split; exact Hnew.
Qed.

Lemma createExodaFieldsDesc_retained (count : nat) (s : state num) (i : nat)
    (text : string) :
  (1 <= i <= count)%nat -> (i <= currentExodaCount s)%nat ->
  exodaDescInputs s !! i = Some text ->
  exodaDescInputs (createExodaFieldsDesc count s) !! i = Some text.
Proof.
  intros Hcount Hcurrent Htext. cbn [createExodaFieldsDesc exodaDescInputs].
  rewrite createInputs_lookup. unfold existingDescs.
  rewrite (saved_lookup (fun value => String.eqb value "")), Htext.
  repeat case_decide; try lia.
  destruct (String.eqb_spec text ""); congruence.
Qed.

(** An input beyond the old count, or one that was dropped, is created
    empty. *)
Lemma createExodaFields_fresh (count : nat) (s : state num) (i : nat) :
  (1 <= i <= count)%nat ->
  (currentExodaCount s < i)%nat \/ exodaInputs s !! i = None ->
  exodaInputs (createExodaFields count s) !! i = Some Blank
  /\ exodaInputs (createExodaFieldsDesc count s) !! i = Some Blank.
Proof.
  intros Hcount Hgone.
  assert (Hnew : createInputs Blank (existingValues s) count
                   (removeCached (currentExodaCount s) (exodaInputs s)) !! i
                 = Some Blank).
  { rewrite createInputs_lookup. unfold existingValues.
    rewrite (saved_lookup isBlank).
    destruct Hgone as [Hbeyond | Hnone].
    - repeat case_decide; try lia; reflexivity.
    - rewrite Hnone. repeat case_decide; try lia; reflexivity. }
  split; exact Hnew.
Qed.

(** After a resize to [count] there is no input beyond [count]. *)
Lemma createExodaFields_dropped (count : nat) (s : state num) (i : nat) :
  (count < i <= currentExodaCount s)%nat ->
  exodaInputs (createExodaFields count s) !! i = None
  /\ exodaInputs (createExodaFieldsDesc count s) !! i = None.
Proof.
  intros Hrange.
  assert (Hnew : createInputs Blank (existingValues s) count
                   (removeCached (currentExodaCount s) (exodaInputs s)) !! i
                 = None).
  { rewrite createInputs_lookup, removeCached_lookup.
    repeat case_decide; try lia; reflexivity. }
  split; exact Hnew.
Qed.

(** C9 (as amended).  When the number of exoda fields changes, a field whose
    index is retained keeps its value (and, in the version with
    descriptions, its description).  A field that is dropped is gone with
    its value: after a resize from 3 to 1 and back to 3 the first field
    holds its value and the second and third are empty. *)
Theorem exoda_resize_keeps_retained_indices :
  (forall (s : state num) (count i : nat) (value : inputValue num),
     (1 <= i <= count)%nat -> (i <= currentExodaCount s)%nat ->
     exodaInputs s !! i = Some value ->
     exodaInputs (createExodaFields count s) !! i = Some value
     /\ exodaInputs (createExodaFieldsDesc count s) !! i = Some value)
  /\ (forall (s : state num) (count i : nat) (text : string),
        (1 <= i <= count)%nat -> (i <= currentExodaCount s)%nat ->
        exodaDescInputs s !! i = Some text ->
        exodaDescInputs (createExodaFieldsDesc count s) !! i = Some text)
  /\ (forall (s : state num) (v1 : inputValue num),
        currentExodaCount s = 3%nat ->
        exodaInputs s !! 1%nat = Some v1 ->
        exodaInputs (createExodaFields 3 (createExodaFields 1 s)) !! 1%nat
        = Some v1
        /\ exodaInputs (createExodaFields 3 (createExodaFields 1 s)) !! 2%nat
           = Some Blank
        /\ exodaInputs (createExodaFields 3 (createExodaFields 1 s)) !! 3%nat
           = Some Blank).
Proof.
  split; [intros s count i value; apply createExodaFields_retained |].
  split; [intros s count i text; apply createExodaFieldsDesc_retained |].
  intros s v1 Hthree Hfirst.
  assert (Hone : exodaInputs (createExodaFields 1 s) !! 1%nat = Some v1).
  { apply createExodaFields_retained; [lia | lia | exact Hfirst]. }
  assert (Hgone : forall i, (1 < i <= 3)%nat ->
                  exodaInputs (createExodaFields 1 s) !! i = None).
  { intros i Hi. apply createExodaFields_dropped. lia. }
  split; [| split].
  - apply createExodaFields_retained; [lia | simpl; lia | exact Hone].
  - apply createExodaFields_fresh; [lia |]. right. apply Hgone. lia.
  - apply createExodaFields_fresh; [lia |]. right. apply Hgone. lia.
Qed.

End ExodaFacts.

Lemma exoda_resize_keeps_retained_indices_witness :
  exodaInputs (createExodaFields 2 (threeExoda (num := Binary64.b64))) !! 2%nat
  = Some (Text (Some (literal 20 0)))
  /\ exodaInputs (createExodaFieldsDesc 2 (threeExoda (num := Binary64.b64)))
       !! 2%nat
     = Some (Text (Some (literal 20 0))).
Proof.
  refine (proj1 (exoda_resize_keeps_retained_indices (num := Binary64.b64))
            threeExoda 2%nat 2%nat (Text (Some (literal 20 0))) _ _ _).
  - lia.
  - cbn [threeExoda currentExodaCount]. lia.
  - reflexivity.
Defined.

(** C9 as stated fails: of the three values 10, 20 and 30, a resize to one
    field and back to three brings back only the first; the second field is
    empty, and so is its description. *)
Lemma resize_3_1_3_loses_values :
  exodaInputs (threeExoda (num := Binary64.b64)) !! 2%nat
  = Some (Text (Some (literal 20 0)))
  /\ exodaInputs
       (createExodaFields 3
          (createExodaFields 1 (threeExoda (num := Binary64.b64)))) !! 2%nat
     = Some Blank
  /\ exodaInputs
       (createExodaFieldsDesc 3
          (createExodaFieldsDesc 1 (threeExoda (num := Binary64.b64)))) !! 2%nat
     = Some Blank
  /\ exodaDescInputs
       (createExodaFieldsDesc 3
          (createExodaFieldsDesc 1 (threeExoda (num := Binary64.b64)))) !! 2%nat
     = Some ""%string.
Proof.
  split; [| split; [| split]]; vm_compute; reflexivity.
Qed.

Section UsedAndLeft.

Context {num : Type} `{JsNumber num}.

(** Of a denomination [calculateFakelos] uses nothing beyond its count. *)
Lemma used_at_most (counts : gmap denom Z) (order : list (category * denom))
    (r : num) (d : denom) (c : Z) :
  counts !! d = Some c -> 0 <= c ->
  0 <= orZeroZ ((allocate (availableIn counts) order ∅ r).1 !! d) <= c.
Proof.
  intros Hcount Hc.
  pose proof (allocate_used_bound (availableIn counts) order ∅ r) as Hbound.
  destruct ((allocate (availableIn counts) order ∅ r).1 !! d) as [n |] eqn:Hn.
  - specialize (Hbound ltac:(intros d' n'; rewrite lookup_empty; discriminate)
                  d n Hn).
    unfold availableIn in Hbound. rewrite Hcount, orZeroZ_Some in Hbound.
    rewrite orZeroZ_Some. lia.
  - change (orZeroZ None) with 0. lia.
Qed.

Lemma fakelos_used_at_most billCounts coinCounts (cashTotal : num) d c :
  let a := fakelosAllocate billCounts coinCounts cashTotal in
  (billCounts !! d = Some c -> 0 <= c -> 0 <= orZeroZ (usedBills a !! d) <= c)
  /\ (coinCounts !! d = Some c -> 0 <= c ->
      0 <= orZeroZ (usedCoins a !! d) <= c).
Proof.
  intros a.
  pose proof (fakelosAllocate_passes billCounts coinCounts cashTotal) as Hpass.
  cbv zeta in Hpass. fold a in Hpass. destruct Hpass as [Hb Hc].
  split; intros Hcount Hnonneg.
  - pose proof (used_at_most billCounts (pair Bill <$> billDenominations)
                  (round2 cashTotal) d c Hcount Hnonneg) as Hused.
    rewrite Hb in Hused. exact Hused.
  - pose proof (used_at_most coinCounts (pair Coin <$> coinDenominations)
                  (allocate (availableIn billCounts)
                     (pair Bill <$> billDenominations) ∅
                     (round2 cashTotal)).2 d c Hcount Hnonneg) as Hused.
    rewrite Hc in Hused. exact Hused.
Qed.

End UsedAndLeft.

(** C4 (as amended).  Whatever the target, [calculateFakelos] uses of a
    denomination no more than its non-negative count, and what it reports
    as left is never negative.  What is left is the count less the use for
    every count up to [maxSafeInteger], which is 2^53 - 1, on doubles, and
    for every count in exact arithmetic. *)
Theorem fakelos_used_within_counts :
  (forall (num : Type) (H : JsNumber num) billCounts coinCounts
          (cashTotal : num) d c,
     let a := fakelosAllocate billCounts coinCounts cashTotal in
     (billCounts !! d = Some c -> 0 <= c ->
        orZeroZ (usedBills a !! d) <= c
        /\ 0 <= leftOf (num := num) billCounts (usedBills a) d)
     /\ (coinCounts !! d = Some c -> 0 <= c ->
        orZeroZ (usedCoins a !! d) <= c
        /\ 0 <= leftOf (num := num) coinCounts (usedCoins a) d))
  /\ (forall billCounts coinCounts (cashTotal : Binary64.b64) d c,
        let a := fakelosAllocate billCounts coinCounts cashTotal in
        (billCounts !! d = Some c -> 0 <= c <= maxSafeInteger ->
           orZeroZ (usedBills a !! d)
           + leftOf (num := Binary64.b64) billCounts (usedBills a) d = c)
        /\ (coinCounts !! d = Some c -> 0 <= c <= maxSafeInteger ->
           orZeroZ (usedCoins a !! d)
           + leftOf (num := Binary64.b64) coinCounts (usedCoins a) d = c))
  /\ (forall billCounts coinCounts (cashTotal : Exact.exact) d c,
        let a := fakelosAllocate billCounts coinCounts cashTotal in
        (billCounts !! d = Some c -> 0 <= c ->
           orZeroZ (usedBills a !! d)
           + leftOf (num := Exact.exact) billCounts (usedBills a) d = c)
        /\ (coinCounts !! d = Some c -> 0 <= c ->
           orZeroZ (usedCoins a !! d)
           + leftOf (num := Exact.exact) coinCounts (usedCoins a) d = c)).
Proof.
  split; [ | split ].
  - intros num H billCounts coinCounts cashTotal d c a.
    destruct (fakelos_used_at_most billCounts coinCounts cashTotal d c)
      as [Hb Hc].
    fold a in Hb, Hc.
    split; intros Hcount Hnonneg;
      (split; [ | unfold leftOf; apply Z.le_max_l ]).
    + apply Hb; assumption.
    + apply Hc; assumption.
  - intros billCounts coinCounts cashTotal d c a.
    destruct (fakelos_used_at_most billCounts coinCounts cashTotal d c)
      as [Hb Hc].
    fold a in Hb, Hc.
    split; intros Hcount Hrange.
    + rewrite b64_leftOf; rewrite ?Hcount, ?orZeroZ_Some;
        [ lia | apply Hb; [ exact Hcount | lia ] | lia ].
    + rewrite b64_leftOf; rewrite ?Hcount, ?orZeroZ_Some;
        [ lia | apply Hc; [ exact Hcount | lia ] | lia ].
  - intros billCounts coinCounts cashTotal d c a.
    destruct (fakelos_used_at_most billCounts coinCounts cashTotal d c)
      as [Hb Hc].
    fold a in Hb, Hc.
    split; intros Hcount Hnonneg; rewrite exact_leftOf, Hcount, orZeroZ_Some.
    + specialize (Hb Hcount Hnonneg). lia.
    + specialize (Hc Hcount Hnonneg). lia.
Qed.

Lemma fakelos_used_within_counts_witness :
  orZeroZ
    (usedCoins (fakelosAllocate (num := Binary64.b64) noBills someCoins
                  (literal 1735 2)) !! coin_0_2)
  + leftOf (num := Binary64.b64) someCoins
      (usedCoins (fakelosAllocate (num := Binary64.b64) noBills someCoins
                    (literal 1735 2))) coin_0_2
  = 1.
Proof.
  refine (proj2 (proj1 (proj2 fakelos_used_within_counts)
                   noBills someCoins (literal 1735 2) coin_0_2 1) _ _).
  - reflexivity.
  - unfold maxSafeInteger. lia.
Defined.

(** C4 as stated fails on doubles: of 9007199254740994 bills of 100 and a
    cash total of 152 the script puts one bill in the envelope and lists
    9007199254740992 as left, one short of the count less the use, which is
    not a double. *)
Lemma fakelos_left_fails_on_large_count :
  let typed := fun d => if decide (d = bill_100) then 9007199254740994 else 0 in
  let billCounts := getCounts (countState (num := Binary64.b64) typed)
                      denominations_bills in
  let coinCounts := getCounts (countState (num := Binary64.b64) typed)
                      denominations_coins in
  let a := fakelosAllocate billCounts coinCounts
             (literal (num := Binary64.b64) 152 0) in
  billCounts !! bill_100 = Some 9007199254740994
  /\ usedBills a !! bill_100 = Some 1
  /\ leftOf (num := Binary64.b64) billCounts (usedBills a) bill_100
     = 9007199254740992
  /\ orZeroZ (usedBills a !! bill_100)
     + leftOf (num := Binary64.b64) billCounts (usedBills a) bill_100
     <> 9007199254740994
  /\ match calculateFakelos (countState typed)
             (outputsWithCash (literal 152 0)) with
     | Breakdown put keep _ _ _ =>
         option_map fst put = Some [(bill_100, 1)]
         /\ keep !! 0%nat = Some (bill_100, 9007199254740992)
     | NoCash => False
     end.
Proof.
  cbv zeta. split; [ | split; [ | split; [ | split ] ] ].
  - vm_compute. reflexivity.
  - vm_compute. reflexivity.
  - vm_compute. reflexivity.
  - vm_compute. discriminate.
  - vm_compute. split; reflexivity.
Qed.

Section TypedText.

Lemma split_cons (sep c : ascii) (rest : text) :
  split sep (c :: rest)
  = if Ascii.eqb c sep then [] :: split sep rest
    else (c :: hd [] (split sep rest)) :: tl (split sep rest).
Proof.
  simpl. destruct (Ascii.eqb c sep); [ reflexivity | ].
  destruct (split sep rest); reflexivity.
Qed.

Lemma split_length (sep : ascii) (value : text) :
  length (split sep value)
  = S (length (List.filter (fun c => Ascii.eqb c sep) value)).
Proof.
  induction value as [ | c rest IH ]; [ reflexivity | ].
  rewrite split_cons. cbn [List.filter].
  destruct (Ascii.eqb c sep); cbn [length].
  - now rewrite IH.
  - destruct (split sep rest); [ discriminate IH | ]. exact IH.
Qed.

Lemma split_join (sep : ascii) (value : text) :
  join (split sep value)
  = List.filter (fun c => negb (Ascii.eqb c sep)) value.
Proof.
  induction value as [ | c rest IH ]; [ reflexivity | ].
  rewrite split_cons. cbn [List.filter].
  destruct (Ascii.eqb c sep); cbn [negb].
  - exact IH.
  - unfold join in *. rewrite <- IH.
    destruct (split sep rest); reflexivity.
Qed.

(** Up to the first separator [split] copies the text. *)
Lemma split_app (sep : ascii) (a b : text) :
  forallb (fun c => negb (Ascii.eqb c sep)) a = true ->
  split sep (a ++ sep :: b) = a :: split sep b.
Proof.
  induction a as [ | c a IH ]; intros Ha.
  - cbn [app]. rewrite split_cons, Ascii.eqb_refl. reflexivity.
  - cbn [forallb] in Ha. apply andb_true_iff in Ha as [Hc Ha].
    cbn [app]. rewrite split_cons. apply negb_true_iff in Hc. rewrite Hc.
    rewrite (IH Ha). reflexivity.
Qed.

Lemma split_none (sep : ascii) (a : text) :
  forallb (fun c => negb (Ascii.eqb c sep)) a = true ->
  split sep a = [a].
Proof.
  induction a as [ | c a IH ]; intros Ha; [ reflexivity | ].
  cbn [forallb] in Ha. apply andb_true_iff in Ha as [Hc Ha].
  rewrite split_cons. apply negb_true_iff in Hc. rewrite Hc.
  rewrite (IH Ha). reflexivity.
Qed.

Lemma keepNumeric_app (a b : text) :
  keepNumeric (a ++ b) = keepNumeric a ++ keepNumeric b.
Proof. apply List.filter_app. Qed.

Lemma replaceCommas_app (a b : text) :
  replaceCommas (a ++ b) = replaceCommas a ++ replaceCommas b.
Proof. apply fmap_app. Qed.

Lemma keepNumeric_cons (c : ascii) (a : text) :
  keepNumeric (replaceCommas (c :: a))
  = if Ascii.eqb c "," then "."%char :: keepNumeric (replaceCommas a)
    else if isNumeric c then c :: keepNumeric (replaceCommas a)
         else keepNumeric (replaceCommas a).
Proof.
  unfold keepNumeric, replaceCommas. cbn [fmap list_fmap List.filter].
  destruct (Ascii.eqb c ","); reflexivity.
Qed.

Lemma digitsAndMinus_cons (c : ascii) (a : text) :
  digitsAndMinus (c :: a)
  = if isDigit c || Ascii.eqb c "-" then c :: digitsAndMinus a
    else digitsAndMinus a.
Proof. reflexivity. Qed.

(** Without a separator, what is kept is the digits and the minus signs. *)
Lemma keepNumeric_no_separator (a : text) :
  forallb (fun c => negb (isSeparator c)) a = true ->
  keepNumeric (replaceCommas a) = digitsAndMinus a
  /\ forallb (fun c => negb (Ascii.eqb c ".")) (digitsAndMinus a) = true.
Proof.
  induction a as [ | c a IH ]; intros Ha; [ split; reflexivity | ].
  cbn [forallb] in Ha. apply andb_true_iff in Ha as [Hc Ha].
  destruct (IH Ha) as [IH1 IH2].
  unfold isSeparator in Hc. apply negb_true_iff, orb_false_iff in Hc as [Hc1 Hc2].
  rewrite keepNumeric_cons, digitsAndMinus_cons, Hc1, IH1.
  unfold isNumeric. rewrite Hc2, orb_false_r.
  destruct (isDigit c || Ascii.eqb c "-") eqn:Hk; [ | split; [ reflexivity | exact IH2 ] ].
  split; [ reflexivity | ].
  cbn [forallb]. rewrite Hc2. exact IH2.
Qed.

(** After the first separator, the dots that are left are removed. *)
Lemma keepNumeric_without_dots (b : text) :
  List.filter (fun c => negb (Ascii.eqb c ".")) (keepNumeric (replaceCommas b))
  = digitsAndMinus b.
Proof.
  induction b as [ | c b IH ]; [ reflexivity | ].
  rewrite keepNumeric_cons, digitsAndMinus_cons.
  destruct (Ascii.eqb_spec c ",") as [-> | Hcomma]; [ exact IH | ].
  unfold isNumeric.
  destruct (Ascii.eqb c ".") eqn:Hdot.
  - rewrite orb_true_r. apply Ascii.eqb_eq in Hdot. subst c. exact IH.
  - rewrite orb_false_r.
    destruct (isDigit c || Ascii.eqb c "-") eqn:Hk; [ | exact IH ].
    cbn [List.filter]. rewrite Hdot. cbn [negb]. now rewrite IH.
Qed.

Lemma filter_all {A} (f : A -> bool) (l : list A) :
  forallb f l = true -> List.filter f l = l.
Proof.
  induction l as [ | x l IH ]; [ reflexivity | ].
  cbn. intros [Hx Hl]%andb_true_iff. rewrite Hx, (IH Hl). reflexivity.
Qed.

Lemma filter_none_length {A} (f : A -> bool) (l : list A) :
  length (List.filter f l) = 0%nat -> forallb (fun x => negb (f x)) l = true.
Proof.
  induction l as [ | x l IH ]; [ reflexivity | ].
  cbn. destruct (f x); [ discriminate | ]. exact IH.
Qed.

(** What [handleCommaInput] makes of a text with a separator: the first
    one stays, as a dot, between the digits and minus signs around it. *)
Lemma handleCommaInput_separator (a b : text) (s : ascii) :
  forallb (fun c => negb (isSeparator c)) a = true ->
  isSeparator s = true ->
  handleCommaInput (a ++ s :: b)
  = digitsAndMinus a ++ "."%char :: digitsAndMinus b.
Proof.
  intros Ha Hs.
  destruct (keepNumeric_no_separator a Ha) as [Hka Hnodot].
  unfold handleCommaInput. cbv zeta.
  rewrite replaceCommas_app, keepNumeric_app, Hka.
  assert (Hsep : keepNumeric (replaceCommas (s :: b))
                 = "."%char :: keepNumeric (replaceCommas b)).
  { unfold isSeparator in Hs. apply orb_true_iff in Hs as [Hs | Hs];
      apply Ascii.eqb_eq in Hs; subst s; reflexivity. }
  rewrite Hsep, (split_app _ _ _ Hnodot).
  cbn [length hd tl].
  rewrite split_join, keepNumeric_without_dots.
  destruct (2 <? S (length (split "." (keepNumeric (replaceCommas b)))))%nat eqn:Hlen;
    [ reflexivity | ].
  apply Nat.ltb_ge in Hlen. rewrite split_length in Hlen.
  assert (Hnone : length (List.filter (fun c => Ascii.eqb c ".")
                            (keepNumeric (replaceCommas b))) = 0%nat) by lia.
  apply filter_none_length in Hnone.
  rewrite <- (keepNumeric_without_dots b), (filter_all _ _ Hnone). reflexivity.
Qed.

(** ... and of a text without one. *)
Lemma handleCommaInput_no_separator (a : text) :
  forallb (fun c => negb (isSeparator c)) a = true ->
  handleCommaInput a = digitsAndMinus a.
Proof.
  intros Ha. destruct (keepNumeric_no_separator a Ha) as [Hka Hnodot].
  unfold handleCommaInput. cbv zeta.
  rewrite Hka, (split_none _ _ Hnodot). reflexivity.
Qed.

(** Every text is of one of the two forms. *)
Lemma first_separator (value : text) :
  forallb (fun c => negb (isSeparator c)) value = true
  \/ exists a s b,
       value = a ++ s :: b
       /\ forallb (fun c => negb (isSeparator c)) a = true
       /\ isSeparator s = true.
Proof.
  induction value as [ | c value IH ]; [ left; reflexivity | ].
  destruct (isSeparator c) eqn:Hc.
  - right. exists [], c, value. exact (conj eq_refl (conj eq_refl Hc)).
  - destruct IH as [IH | (a & s & b & -> & Ha & Hs)].
    + left. cbn [forallb]. rewrite Hc. exact IH.
    + right. exists (c :: a), s, b. refine (conj eq_refl (conj _ Hs)).
      cbn [forallb]. rewrite Hc. exact Ha.
Qed.

Lemma digitsAndMinus_numeric (a : text) :
  forallb isNumeric (digitsAndMinus a) = true
  /\ dots (digitsAndMinus a) = 0%nat.
Proof.
  unfold digitsAndMinus, dots.
  induction a as [ | c a [IH1 IH2] ]; [ split; reflexivity | ].
  cbn [List.filter].
  destruct (isDigit c || Ascii.eqb c "-") eqn:Hk; [ | split; assumption ].
  cbn [forallb List.filter]. split.
  - rewrite IH1, andb_true_r. unfold isNumeric.
    apply orb_true_iff in Hk as [-> | ->]; [ reflexivity | apply orb_true_r ].
  - destruct (Ascii.eqb_spec c ".") as [-> | ]; [ discriminate Hk | exact IH2 ].
Qed.

Lemma dots_app (a b : text) : dots (a ++ b) = (dots a + dots b)%nat.
Proof. unfold dots. now rewrite List.filter_app, length_app. Qed.

Lemma digitsAndMinus_clean (a : text) :
  forallb isNumeric a = true -> dots a = 0%nat -> digitsAndMinus a = a.
Proof.
  unfold digitsAndMinus, dots.
  induction a as [ | c a IH ]; [ reflexivity | ].
  cbn [forallb List.filter]. intros [Hc Ha]%andb_true_iff.
  destruct (Ascii.eqb c ".") eqn:Hdot; [ discriminate | ].
  intros Hd. rewrite (IH Ha Hd).
  unfold isNumeric in Hc. rewrite Hdot, orb_false_r in Hc. now rewrite Hc.
Qed.

Lemma numeric_not_separator (a : text) :
  forallb isNumeric a = true -> dots a = 0%nat ->
  forallb (fun c => negb (isSeparator c)) a = true.
Proof.
  unfold dots.
  induction a as [ | c a IH ]; [ reflexivity | ].
  cbn [forallb List.filter]. intros [Hc Ha]%andb_true_iff.
  destruct (Ascii.eqb c ".") eqn:Hdot; [ discriminate | ].
  intros Hd. rewrite (IH Ha Hd), andb_true_r.
  unfold isSeparator. rewrite Hdot, orb_false_r.
  destruct (Ascii.eqb_spec c ",") as [-> | ]; [ discriminate Hc | reflexivity ].
Qed.

Lemma handleCommaInput_clean (value : text) :
  forallb isNumeric (handleCommaInput value) = true
  /\ (dots (handleCommaInput value) <= 1)%nat.
Proof.
  destruct (first_separator value) as [Hv | (a & s & b & -> & Ha & Hs)].
  - rewrite (handleCommaInput_no_separator _ Hv).
    destruct (digitsAndMinus_numeric value) as [-> ->]. split; [ reflexivity | lia ].
  - rewrite (handleCommaInput_separator _ _ _ Ha Hs).
    destruct (digitsAndMinus_numeric a) as [Ha1 Ha2].
    destruct (digitsAndMinus_numeric b) as [Hb1 Hb2].
    split.
    + rewrite forallb_app. cbn [forallb]. now rewrite Ha1, Hb1.
    + change ("."%char :: digitsAndMinus b) with (["."%char] ++ digitsAndMinus b).
      rewrite !dots_app, Ha2, Hb2. cbn. lia.
Qed.

End TypedText.

(** X1.  Whatever is typed, the text [handleCommaInput] leaves in the input
    consists of digits, dots and minus signs only, and has at most one
    dot. *)
Theorem handleCommaInput_numeric_one_dot (value : text) :
  forallb isNumeric (handleCommaInput value) = true
  /\ (dots (handleCommaInput value) <= 1)%nat.
Proof. exact (handleCommaInput_clean value). Qed.

(** X2.  [handleCommaInput] leaves a text as it is exactly when the text
    is made of digits, dots and minus signs and has at most one dot; so a
    second pass never changes the result of a first. *)
Theorem handleCommaInput_fixed_points (value : text) :
  (handleCommaInput value = value
   <-> forallb isNumeric value = true /\ (dots value <= 1)%nat)
  /\ handleCommaInput (handleCommaInput value) = handleCommaInput value.
Proof.
  assert (Hfixed : forall v,
            forallb isNumeric v = true -> (dots v <= 1)%nat ->
            handleCommaInput v = v).
  { intros v Hn Hd.
    destruct (first_separator v) as [Hv | (a & s & b & -> & Ha & Hs)].
    - rewrite (handleCommaInput_no_separator _ Hv).
      apply digitsAndMinus_clean; [ exact Hn | ].
      unfold dots. apply Nat.le_antisymm; [ | lia ].
      assert (Hnone : forallb (fun c => negb (Ascii.eqb c ".")) v = true).
      { clear Hn Hd. induction v as [ | c v IH ]; [ reflexivity | ].
        cbn [forallb] in *. apply andb_true_iff in Hv as [Hc Hv].
        rewrite (IH Hv), andb_true_r.
        unfold isSeparator in Hc. apply negb_true_iff, orb_false_iff in Hc as [_ ->].
        reflexivity. }
      clear - Hnone. induction v as [ | c v IH ]; [ cbn; lia | ].
      cbn [forallb List.filter] in *. apply andb_true_iff in Hnone as [Hc Hv].
      apply negb_true_iff in Hc. rewrite Hc. exact (IH Hv).
    - rewrite (handleCommaInput_separator _ _ _ Ha Hs).
      rewrite forallb_app in Hn. apply andb_true_iff in Hn as [Hna Hnb].
      cbn [forallb] in Hnb. apply andb_true_iff in Hnb as [Hns Hnb].
      assert (Hsdot : s = "."%char).
      { unfold isSeparator in Hs. apply orb_true_iff in Hs as [Hs | Hs];
          apply Ascii.eqb_eq in Hs; subst s; [ discriminate Hns | reflexivity ]. }
      subst s.
      change ("."%char :: b) with (["."%char] ++ b) in Hd.
      rewrite !dots_app in Hd. change (dots ["."%char]) with 1%nat in Hd.
      rewrite (digitsAndMinus_clean a), (digitsAndMinus_clean b);
        [ reflexivity | exact Hnb | lia | exact Hna | lia ]. }
  split; [ split | ].
  - intros <-. apply handleCommaInput_clean.
  - intros [Hn Hd]. now apply Hfixed.
  - apply Hfixed; apply handleCommaInput_clean.
Qed.

(** X3.  The first comma or dot that was typed stays, as a dot, where it
    is among the digits and minus signs; every later comma or dot and every
    other character is dropped.  Minus signs are kept wherever they stand,
    not only at the beginning. *)
Theorem handleCommaInput_keeps_first_separator :
  (forall (a b : text) (s : ascii),
     forallb (fun c => negb (isSeparator c)) a = true ->
     isSeparator s = true ->
     handleCommaInput (a ++ s :: b)
     = digitsAndMinus a ++ "."%char :: digitsAndMinus b)
  /\ (forall a : text,
        forallb (fun c => negb (isSeparator c)) a = true ->
        handleCommaInput a = digitsAndMinus a).
Proof.
  split.
  - exact handleCommaInput_separator.
  - exact handleCommaInput_no_separator.
Qed.

Lemma handleCommaInput_keeps_first_separator_witness :
  handleCommaInput (list_ascii_of_string "1-2,50.7 x,")
  = list_ascii_of_string "1-2.507"
  /\ handleCommaInput (list_ascii_of_string "-12a") = list_ascii_of_string "-12".
Proof.
  split.
  - exact (proj1 handleCommaInput_keeps_first_separator
             (list_ascii_of_string "1-2") (list_ascii_of_string "50.7 x,") ","%char
             eq_refl eq_refl).
  - exact (proj2 handleCommaInput_keeps_first_separator
             (list_ascii_of_string "-12a") eq_refl).
Defined.

Section StorageFacts.

Context {num : Type} `{JsNumber num}.

Lemma allFields_NoDup : NoDup allFields.
Proof. compute_done. Qed.

(** What a fold that keeps the non-blank entries of [source] holds. *)
Lemma kept_lookup {J K} `{Countable K} {A} (key : J -> K) `{!Inj (=) (=) key}
    `{EqDecision J} (skip : A -> bool) (source : J -> option A)
    (keys : list J) (values : gmap K A) (j0 : J) :
  foldl (fun (values : gmap K A) j =>
           match source j with
           | Some value => if skip value then values else <[key j := value]> values
           | None => values
           end) values keys !! key j0
  = if decide (j0 ∈ keys)
    then match source j0 with
         | Some value => if skip value then values !! key j0 else Some value
         | None => values !! key j0
         end
    else values !! key j0.
Proof.
  revert values. induction keys as [ | j keys IH ]; intros values.
  - cbn. destruct (decide (j0 ∈ [])) as [Hin | _]; [ | reflexivity ].
    now apply elem_of_nil in Hin.
  - cbn [foldl]. rewrite IH. clear IH.
    destruct (decide (j0 = j)) as [-> | Hne].
    + destruct (decide (j ∈ j :: keys)) as [_ | Hnin];
        [ | exfalso; apply Hnin, list_elem_of_here ].
      destruct (source j) as [value | ]; [ | now destruct (decide (j ∈ keys)) ].
      destruct (skip value) eqn:Hskip; [ now destruct (decide (j ∈ keys)) | ].
      rewrite lookup_insert_eq. now destruct (decide (j ∈ keys)).
    + assert (Hsame : forall m : gmap K A,
                 (match source j with
                  | Some value => if skip value then m else <[key j := value]> m
                  | None => m
                  end) !! key j0 = m !! key j0).
      { intros m. destruct (source j) as [value | ]; [ | reflexivity ].
        destruct (skip value); [ reflexivity | ].
        rewrite lookup_insert_ne; [ reflexivity | ].
        intros Heq. apply Hne. symmetry. now apply (inj key). }
      rewrite Hsame.
      destruct (decide (j0 ∈ keys)) as [Hin | Hnin];
        destruct (decide (j0 ∈ j :: keys)) as [Hin' | Hnin']; try reflexivity.
      * exfalso. apply Hnin'. now apply list_elem_of_further.
      * exfalso. apply elem_of_cons in Hin' as [ | ]; contradiction.
Qed.

(** ... and what it leaves alone. *)
Lemma kept_lookup_other {J K} `{Countable K} {A} (key : J -> K)
    (skip : A -> bool) (source : J -> option A)
    (keys : list J) (values : gmap K A) (k : K) :
  (forall j, key j <> k) ->
  foldl (fun (values : gmap K A) j =>
           match source j with
           | Some value => if skip value then values else <[key j := value]> values
           | None => values
           end) values keys !! k
  = values !! k.
Proof.
  intros Hk. revert values. induction keys as [ | j keys IH ]; intros values;
    [ reflexivity | ].
  cbn [foldl]. rewrite IH.
  destruct (source j) as [value | ]; [ | reflexivity ].
  destruct (skip value); [ reflexivity | ].
  now rewrite lookup_insert_ne.
Qed.

Lemma Exoda_not_main (i : nat) : Exoda i ∉ allFields.
Proof.
  intros Hin. apply list_elem_of_In in Hin. cbv in Hin.
  repeat (destruct Hin as [Hin | Hin]; [ discriminate Hin | ]). exact Hin.
Qed.

#[local] Instance Exoda_inj : Inj (=) (=) Exoda.
Proof. intros i j Heq. now injection Heq. Qed.

(** The object that [saveAllValues] stores: the non-empty fixed inputs and
    the non-empty exoda inputs up to the current count. *)
Lemma saved_main_field (s : state num) (id : field) :
  id ∈ allFields ->
  saveExodaFields s (saveMainFields s ∅) !! id
  = if isBlank (cachedInputs s id) then None else Some (cachedInputs s id).
Proof.
  intros Hid. unfold saveExodaFields.
  rewrite (kept_lookup_other Exoda isBlank (fun i => exodaInputs s !! i)).
  - pose proof (kept_lookup (fun id : field => id) isBlank
                  (fun id => Some (cachedInputs s id)) allFields ∅ id) as Hk.
    cbn beta iota in Hk. unfold saveMainFields. rewrite Hk.
    rewrite decide_True by exact Hid. rewrite lookup_empty. reflexivity.
  - intros j <-. exact (Exoda_not_main j Hid).
Qed.

Lemma saved_exoda_field (s : state num) (i : nat) :
  saveExodaFields s (saveMainFields s ∅) !! Exoda i
  = if decide (1 <= i <= currentExodaCount s)%nat
    then match exodaInputs s !! i with
         | Some value => if isBlank value then None else Some value
         | None => None
         end
    else None.
Proof.
  assert (Hmain : saveMainFields s ∅ !! Exoda i = None).
  { pose proof (kept_lookup (fun id : field => id) isBlank
                  (fun id => Some (cachedInputs s id)) allFields ∅ (Exoda i)) as Hk.
    cbn beta iota in Hk. unfold saveMainFields. rewrite Hk.
    rewrite decide_False; [ apply lookup_empty | apply Exoda_not_main ]. }
  unfold saveExodaFields.
  rewrite (kept_lookup Exoda isBlank (fun i => exodaInputs s !! i)), Hmain.
  unfold from1.
  destruct (decide (i ∈ seq 1 (currentExodaCount s))) as [Hin | Hnin];
    destruct (decide (1 <= i <= currentExodaCount s)%nat) as [Hr | Hnr].
  - now destruct (exodaInputs s !! i) as [ [ | ] | ].
  - exfalso. apply elem_of_seq in Hin. lia.
  - exfalso. apply Hnin, elem_of_seq. lia.
  - reflexivity.
Qed.

(** What [restoreAllValues] writes into the fixed inputs. *)
Lemma restoreMainFields_lookup (values : gmap field (inputValue num))
    (inputs : field -> inputValue num) (id : field) :
  restoreMainFields values inputs id
  = if decide (id ∈ allFields)
    then match values !! id with
         | Some value => if isBlank value then inputs id else value
         | None => inputs id
         end
    else inputs id.
Proof.
  unfold restoreMainFields. generalize allFields as keys. intros keys.
  revert inputs. induction keys as [ | j keys IH ]; intros inputs.
  - cbn. destruct (decide (id ∈ [])) as [Hin | _]; [ | reflexivity ].
    now apply elem_of_nil in Hin.
  - cbn [foldl]. rewrite IH. clear IH.
    destruct (decide (id = j)) as [-> | Hne].
    + destruct (decide (j ∈ j :: keys)) as [_ | Hnin];
        [ | exfalso; apply Hnin, list_elem_of_here ].
      destruct (values !! j) as [value | ]; [ | now destruct (decide (j ∈ keys)) ].
      destruct (isBlank value) eqn:Hblank; [ now destruct (decide (j ∈ keys)) | ].
      rewrite fn_lookup_insert. now destruct (decide (j ∈ keys)).
    + assert (Hsame : forall f : field -> inputValue num,
                 (match values !! j with
                  | Some value => if isBlank value then f else <[j := value]> f
                  | None => f
                  end) id = f id).
      { intros f. destruct (values !! j) as [value | ]; [ | reflexivity ].
        destruct (isBlank value); [ reflexivity | ].
        now rewrite fn_lookup_insert_ne. }
      rewrite Hsame.
      destruct (decide (id ∈ keys)) as [Hin | Hnin];
        destruct (decide (id ∈ j :: keys)) as [Hin' | Hnin']; try reflexivity.
      * exfalso. apply Hnin'. now apply list_elem_of_further.
      * exfalso. apply elem_of_cons in Hin' as [ | ]; contradiction.
Qed.

(** What a fold that writes the saved entries into the inputs that exist
    leaves in them. *)
Lemma restored_lookup {A} (skip : A -> bool) (source : nat -> option A)
    (count : nat) (inputs : gmap nat A) (i : nat) :
  foldl (fun (inputs : gmap nat A) j =>
           match inputs !! j, source j with
           | Some _, Some value =>
               if skip value then inputs else <[j := value]> inputs
           | _, _ => inputs
           end) inputs (from1 count) !! i
  = match inputs !! i with
    | Some old =>
        if decide (1 <= i <= count)%nat
        then match source i with
             | Some value => if skip value then Some old else Some value
             | None => Some old
             end
        else Some old
    | None => None
    end.
Proof.
  induction count as [ | n IH ].
  - cbn. destruct (inputs !! i); [ | reflexivity ].
    destruct (decide (1 <= i <= 0)%nat); [ lia | reflexivity ].
  - rewrite from1_succ, foldl_app. cbn [foldl].
    set (before := foldl _ inputs (from1 n)) in *.
    destruct (decide (i = S n)) as [-> | Hne].
    + destruct (inputs !! S n) as [old | ] eqn:Hold.
      * rewrite decide_False in IH by lia. rewrite decide_True by lia.
        rewrite IH.
        destruct (source (S n)) as [value | ]; [ | exact IH ].
        destruct (skip value); [ exact IH | apply lookup_insert_eq ].
      * rewrite IH. exact IH.
    + assert (Hsame : match before !! S n with
                      | Some _ =>
                          match source (S n) with
                          | Some value =>
                              if skip value then before
                              else <[S n := value]> before
                          | None => before
                          end
                      | None => before
                      end !! i = before !! i).
      { destruct (before !! S n); [ | reflexivity ].
        destruct (source (S n)) as [value | ]; [ | reflexivity ].
        destruct (skip value); [ reflexivity | ].
        now rewrite lookup_insert_ne. }
      rewrite Hsame, IH.
      destruct (inputs !! i); [ | reflexivity ].
      destruct (decide (1 <= i <= n)%nat); destruct (decide (1 <= i <= S n)%nat);
        try reflexivity; lia.
Qed.

(** What [restoreAllValues] writes into the exoda inputs: only inputs that
    exist are written to. *)
Lemma restoreExodaFields_lookup (values : gmap field (inputValue num))
    (count : nat) (inputs : gmap nat (inputValue num)) (i : nat) :
  restoreExodaFields values count inputs !! i
  = match inputs !! i with
    | Some old =>
        if decide (1 <= i <= count)%nat
        then match values !! Exoda i with
             | Some value => if isBlank value then Some old else Some value
             | None => Some old
             end
        else Some old
    | None => None
    end.
Proof. exact (restored_lookup isBlank (fun i => values !! Exoda i) count inputs i). Qed.

Lemma restoreExodaDescs_lookup (descs : gmap nat string)
    (count : nat) (inputs : gmap nat string) (i : nat) :
  restoreExodaDescs descs count inputs !! i
  = match inputs !! i with
    | Some old =>
        if decide (1 <= i <= count)%nat
        then match descs !! i with
             | Some value => if String.eqb value "" then Some old else Some value
             | None => Some old
             end
        else Some old
    | None => None
    end.
Proof.
  exact (restored_lookup (fun value => String.eqb value "") (fun i => descs !! i)
           count inputs i).
Qed.

(** The totals read the mode, the sixteen fixed inputs, the exoda inputs
    and their count, and nothing else. *)
Lemma foldl_ext_in {A B} (f g : A -> B -> A) (l : list B) (a : A) :
  (forall acc x, x ∈ l -> f acc x = g acc x) -> foldl f a l = foldl g a l.
Proof.
  revert a. induction l as [ | x l IH ]; intros a Hfg; [ reflexivity | ].
  cbn [foldl]. rewrite (Hfg a x) by apply list_elem_of_here.
  apply IH. intros acc y Hy. apply Hfg. now apply list_elem_of_further.
Qed.

Lemma getTotalExoda_ext (a b : state num) :
  currentExodaCount a = currentExodaCount b ->
  (forall i, (1 <= i <= currentExodaCount b)%nat ->
             exodaInputs a !! i = exodaInputs b !! i) ->
  getTotalExoda a = getTotalExoda b.
Proof.
  intros Hcount Hexoda. unfold getTotalExoda. rewrite Hcount.
  apply foldl_ext_in. intros total i Hi.
  rewrite Hexoda; [ reflexivity | ].
  unfold from1 in Hi. apply elem_of_seq in Hi. lia.
Qed.

Lemma deductions_main (id : other) : Other id ∈ allFields.
Proof. destruct id; compute_done. Qed.

Lemma updateTotals_ext (a b : state num) :
  isCountMode a = isCountMode b ->
  currentExodaCount a = currentExodaCount b ->
  (forall id, id ∈ allFields -> cachedInputs a id = cachedInputs b id) ->
  (forall i, (1 <= i <= currentExodaCount b)%nat ->
             exodaInputs a !! i = exodaInputs b !! i) ->
  updateTotals a = updateTotals b.
Proof.
  intros Hmode Hcount Hfields Hexoda.
  pose proof (getTotalExoda_ext a b Hcount Hexoda) as Htotal.
  assert (Hgrand : grandTotal a = grandTotal b).
  { unfold grandTotal. rewrite Htotal. f_equal.
    apply foldl_ext_in. intros acc id Hid.
    unfold addField. rewrite Hmode, (Hfields id Hid). reflexivity. }
  assert (Hded : deductionsTotal a = deductionsTotal b).
  { unfold deductionsTotal. rewrite Htotal.
    apply foldl_ext_in. intros acc id _.
    rewrite (Hfields (Other id) (deductions_main id)). reflexivity. }
  assert (Hcash : cashTotal a = cashTotal b).
  { unfold cashTotal. now rewrite Hgrand, Hded. }
  unfold updateTotals, cashLimTotal, incomeLimTotal.
  rewrite Hgrand, Htotal, Hcash,
    (Hfields (Other mypos) (deductions_main mypos)),
    (Hfields (Other eurobank) (deductions_main eurobank)).
  reflexivity.
Qed.

(** [createExodaFields] leaves the inputs 1..count, all of them, and -- on
    a page that had none outside 1..currentExodaCount -- no other. *)
Lemma createExodaFields_created (count : nat) (s : state num) :
  (forall i, is_Some (exodaInputs s !! i) -> (1 <= i <= currentExodaCount s)%nat) ->
  exodaFieldsCreated (createExodaFields count s)
  /\ exodaFieldsCreated (createExodaFieldsDesc count s).
Proof.
  intros Hdom.
  assert (Hboth : forall i,
            is_Some (createInputs Blank (existingValues s) count
                       (removeCached (currentExodaCount s) (exodaInputs s)) !! i)
            <-> (1 <= i <= count)%nat).
  { intros i. rewrite createInputs_lookup, removeCached_lookup.
    destruct (decide (1 <= i <= count)%nat) as [Hi | Hi].
    - split; [ intros _; exact Hi | intros _; eauto ].
    - destruct (decide (1 <= i <= currentExodaCount s)%nat) as [Hold | Hold].
      + split; [ intros [? Hnone]; discriminate Hnone | intros; contradiction ].
      + split; [ intros Hsome; exfalso; apply Hold, Hdom, Hsome
               | intros; contradiction ]. }
  split; exact Hboth.
Qed.

Lemma isBlank_Blank (value : inputValue num) : isBlank value = true -> value = Blank.
Proof. destruct value; [ reflexivity | discriminate ]. Qed.

(** The page that [init] builds before it restores the values: [count]
    empty exoda inputs. *)
Lemma emptyPage_exoda (count i : nat) :
  exodaInputs (createExodaFields count (emptyPage (num := num))) !! i
  = if decide (1 <= i <= count)%nat then Some Blank else None.
Proof.
  cbn [createExodaFields exodaInputs emptyPage currentExodaCount].
  rewrite createInputs_lookup, removeCached_lookup.
  destruct (decide (1 <= i <= count)%nat); [ | now destruct (decide (1 <= i <= 1)%nat) ].
  unfold existingValues.
  rewrite (saved_lookup isBlank).
  cbn [exodaInputs emptyPage currentExodaCount].
  rewrite lookup_empty. now destruct (decide (1 <= i <= 1)%nat).
Qed.

(** X4.  Values saved by [saveAllValues] and restored within the hour into
    a freshly built page with the same number of exoda inputs come back as
    they were: the mode, the sixteen fixed inputs, the exoda inputs, and
    with them the totals shown.  The hour itself is still within. *)
Theorem saved_values_come_back (savedAt now : Z) (s : state num)
    (ls : localStorage num) :
  now - savedAt <= 3600000 ->
  exodaFieldsCreated s ->
  let page := createExodaFields (currentExodaCount s) emptyPage in
  let r := restoreAllValues now (saveAllValues savedAt s ls) page in
  r.1 = saveAllValues savedAt s ls
  /\ isCountMode r.2 = isCountMode s
  /\ currentExodaCount r.2 = currentExodaCount s
  /\ (forall id, id ∈ allFields -> cachedInputs r.2 id = cachedInputs s id)
  /\ exodaInputs r.2 = exodaInputs s
  /\ updateTotals r.2 = updateTotals s.
Proof.
  intros Hnow Hcreated page r.
  assert (Hr : r = (saveAllValues savedAt s ls,
                    {| isCountMode := isCountMode s;
                       currentExodaCount := currentExodaCount s;
                       cachedInputs :=
                         restoreMainFields
                           (saveExodaFields s (saveMainFields s ∅))
                           (cachedInputs page);
                       exodaInputs :=
                         restoreExodaFields
                           (saveExodaFields s (saveMainFields s ∅))
                           (currentExodaCount s) (exodaInputs page);
                       exodaDescInputs := exodaDescInputs page |})).
  { subst r. unfold restoreAllValues.
    cbn [saveAllValues allValuesSavedAt allValues countMode fieldValues].
    replace (3600000 <? now - savedAt) with false by (symmetry; apply Z.ltb_ge; lia).
    cbn [isCountMode currentExodaCount page createExodaFields emptyPage].
    now destruct (isCountMode s). }
  assert (Hfields : forall id, id ∈ allFields -> cachedInputs r.2 id = cachedInputs s id).
  { intros id Hid. rewrite Hr. cbn [snd cachedInputs].
    rewrite restoreMainFields_lookup, decide_True by exact Hid.
    rewrite (saved_main_field s id Hid).
    destruct (isBlank (cachedInputs s id)) eqn:Hblank.
    - apply isBlank_Blank in Hblank. rewrite Hblank. reflexivity.
    - rewrite Hblank. reflexivity. }
  assert (Hexoda : exodaInputs r.2 = exodaInputs s).
  { rewrite Hr. cbn [snd exodaInputs]. apply map_eq. intros i.
    rewrite restoreExodaFields_lookup. subst page. rewrite emptyPage_exoda.
    rewrite saved_exoda_field.
    destruct (decide (1 <= i <= currentExodaCount s)%nat) as [Hi | Hi].
    - destruct (proj2 (Hcreated i) Hi) as [value Hvalue]. rewrite Hvalue.
      destruct (isBlank value) eqn:Hblank.
      + apply isBlank_Blank in Hblank. now rewrite Hblank.
      + now rewrite Hblank.
    - destruct (exodaInputs s !! i) as [value | ] eqn:Hvalue; [ | reflexivity ].
      exfalso. apply Hi, Hcreated. eauto. }
  assert (Hmode : isCountMode r.2 = isCountMode s) by now rewrite Hr.
  assert (Hcount : currentExodaCount r.2 = currentExodaCount s) by now rewrite Hr.
  refine (conj _ (conj Hmode (conj Hcount (conj Hfields (conj Hexoda _))))).
  - now rewrite Hr.
  - apply updateTotals_ext; [ exact Hmode | exact Hcount | exact Hfields | ].
    intros i _. now rewrite Hexoda.
Qed.

(** X5.  Values older than one hour are not restored: the page stays as it
    is and the items ['allValues'], ['allValuesSavedAt'] and ['exodaCount']
    are removed.  The item ['countMode'] stays, so the next load, which
    finds no time stamp, switches to the saved count mode although no value
    is left to restore. *)
Theorem saved_values_expire (savedAt now : Z) (s page : state num)
    (ls : localStorage num) :
  3600000 < now - savedAt ->
  let r := restoreAllValues now (saveAllValues savedAt s ls) page in
  r.2 = page
  /\ r.1 = {| allValues := None;
              allValuesSavedAt := None;
              exodaCount := None;
              countMode := Some (isCountMode s);
              darkMode := darkMode ls |}
  /\ forall (later : Z) (next : state num),
       restoreAllValues later r.1 next
       = (r.1, {| isCountMode := isCountMode s || isCountMode next;
                  currentExodaCount := currentExodaCount next;
                  cachedInputs := cachedInputs next;
                  exodaInputs := exodaInputs next;
                  exodaDescInputs := exodaDescInputs next |}).
Proof.
  intros Hnow r.
  assert (Hr : r = ({| allValues := None;
                       allValuesSavedAt := None;
                       exodaCount := None;
                       countMode := Some (isCountMode s);
                       darkMode := darkMode ls |}, page)).
  { subst r. unfold restoreAllValues.
    cbn [saveAllValues allValuesSavedAt allValues countMode darkMode].
    replace (3600000 <? now - savedAt) with true by (symmetry; apply Z.ltb_lt; lia).
    reflexivity. }
  rewrite Hr. cbn [fst snd]. refine (conj eq_refl (conj eq_refl _)).
  intros later next. unfold restoreAllValues.
  cbn [allValuesSavedAt allValues countMode]. now destruct (isCountMode s).
Qed.

(** X6.  Whatever the age, the flags, the count and the saved texts of a
    storage whose items are what [saveAllValues] writes (the saved object
    holds a text for an input), [restoreAllValues] never empties an input
    that has a value, never adds or removes an exoda input, never changes
    their count and never leaves count mode. *)
Theorem restore_never_clears (now : Z) (ls : localStorage num) (page : state num) :
  let r := (restoreAllValues now ls page).2 in
  (forall id, isBlank (cachedInputs page id) = false ->
              isBlank (cachedInputs r id) = false)
  /\ (forall i value,
        exodaInputs page !! i = Some value ->
        exists value', exodaInputs r !! i = Some value'
                       /\ (isBlank value = false -> isBlank value' = false))
  /\ (forall i, exodaInputs page !! i = None -> exodaInputs r !! i = None)
  /\ currentExodaCount r = currentExodaCount page
  /\ (isCountMode page = true -> isCountMode r = true).
Proof.
  intros r. subst r. unfold restoreAllValues.
  destruct (match allValuesSavedAt ls with
            | Some savedAt => 3600000 <? now - savedAt
            | None => false
            end).
  { cbn [snd]. refine (conj _ (conj _ (conj _ (conj eq_refl _)))); eauto. }
  assert (Hmode : isCountMode page = true ->
                  match countMode ls with
                  | Some true => true
                  | _ => isCountMode page
                  end = true).
  { intros ->. now destruct (countMode ls) as [ [ | ] | ]. }
  destruct (allValues ls) as [values | ]; cbn [snd cachedInputs exodaInputs
    currentExodaCount isCountMode].
  - refine (conj _ (conj _ (conj _ (conj eq_refl Hmode)))).
    + intros id Hid. rewrite restoreMainFields_lookup.
      destruct (decide (id ∈ allFields)); [ | exact Hid ].
      destruct (fieldValues values !! id) as [value | ]; [ | exact Hid ].
      destruct (isBlank value) eqn:Hblank; [ exact Hid | exact Hblank ].
    + intros i value Hvalue. rewrite restoreExodaFields_lookup, Hvalue.
      destruct (decide (1 <= i <= currentExodaCount page)%nat); [ | eauto ].
      destruct (fieldValues values !! Exoda i) as [saved | ]; [ | eauto ].
      destruct (isBlank saved) eqn:Hblank; eauto.
    + intros i Hnone. now rewrite restoreExodaFields_lookup, Hnone.
  - refine (conj _ (conj _ (conj _ (conj eq_refl Hmode)))); eauto.
Qed.

End StorageFacts.

Section ResetFacts.

Context {num : Type} `{JsNumber num}.

Local Open Scope js_scope.

(** The exoda total of a page whose exoda inputs are all empty. *)
Lemma getTotalExoda_blank (s : state num) :
  literal 0 0 + literal 0 0 = literal 0 0 ->
  (forall i value, exodaInputs s !! i = Some value -> value = Blank) ->
  getTotalExoda s = literal 0 0.
Proof.
  intros Hzero Hblank. unfold getTotalExoda.
  induction (currentExodaCount s) as [ | n IH ]; [ reflexivity | ].
  rewrite from1_succ, foldl_app. cbn [foldl]. rewrite IH.
  destruct (exodaInputs s !! S n) as [value | ] eqn:Hvalue; [ | reflexivity ].
  rewrite (Hblank _ _ Hvalue). exact Hzero.
Qed.

(** The totals read the exoda inputs through their total only. *)
Lemma updateTotals_ext_total (a b : state num) :
  isCountMode a = isCountMode b ->
  (forall id, id ∈ allFields -> cachedInputs a id = cachedInputs b id) ->
  getTotalExoda a = getTotalExoda b ->
  updateTotals a = updateTotals b.
Proof.
  intros Hmode Hfields Htotal.
  assert (Hgrand : grandTotal a = grandTotal b).
  { unfold grandTotal. rewrite Htotal. f_equal.
    apply foldl_ext_in. intros acc id Hid.
    unfold addField. rewrite Hmode, (Hfields id Hid). reflexivity. }
  assert (Hded : deductionsTotal a = deductionsTotal b).
  { unfold deductionsTotal. rewrite Htotal.
    apply foldl_ext_in. intros acc id _.
    rewrite (Hfields (Other id) (deductions_main id)). reflexivity. }
  assert (Hcash : cashTotal a = cashTotal b).
  { unfold cashTotal. now rewrite Hgrand, Hded. }
  unfold updateTotals, cashLimTotal, incomeLimTotal.
  rewrite Hgrand, Htotal, Hcash,
    (Hfields (Other mypos) (deductions_main mypos)),
    (Hfields (Other eurobank) (deductions_main eurobank)).
  reflexivity.
Qed.

Lemma resetAll_totals (isTextInput : field -> bool) (ls : localStorage num)
    (s : state num) :
  literal 0 0 + literal 0 0 = literal 0 0 ->
  (forall id, id ∈ allFields -> isTextInput id = true) ->
  updateTotals (resetAll isTextInput true ls s).2 = updateTotals blankState.
Proof.
  intros Hzero Htext. apply updateTotals_ext_total.
  - reflexivity.
  - intros id Hid. cbn [resetAll snd cachedInputs blankState].
    now rewrite (Htext id Hid).
  - rewrite !getTotalExoda_blank; [ reflexivity | exact Hzero | | exact Hzero | ].
    + intros i value. cbn [blankState exodaInputs].
      intros Hvalue. apply lookup_singleton_Some in Hvalue as [_ <-]. reflexivity.
    + intros i value. cbn [resetAll snd exodaInputs].
      rewrite lookup_fmap. destruct (exodaInputs s !! i); [ | discriminate ].
      cbn. now intros [= <-].
Qed.

End ResetFacts.

(** X7.  [resetAll], once confirmed, empties every text input, returns to
    amount mode and removes the four saved items, the theme apart; the
    exoda inputs and their count stay.  With the sixteen fixed inputs among
    the text inputs, the totals then read 0.00, 0.00, -1000.00, -1000.00
    and -1000.00, and a later [restoreAllValues] finds nothing to restore.
    Not confirmed, it changes nothing. *)
Theorem resetAll_clears :
  (forall (num : Type) (H : JsNumber num) (isTextInput : field -> bool)
          (ls : localStorage num) (s : state num),
     resetAll isTextInput false ls s = (ls, s)
     /\ (resetAll isTextInput true ls s).1
        = {| allValues := None; allValuesSavedAt := None; exodaCount := None;
             countMode := None; darkMode := darkMode ls |}
     /\ isCountMode (resetAll isTextInput true ls s).2 = false
     /\ currentExodaCount (resetAll isTextInput true ls s).2 = currentExodaCount s
     /\ (forall id, isTextInput id = true ->
                    cachedInputs (resetAll isTextInput true ls s).2 id = Blank)
     /\ (forall i,
           exodaInputs (resetAll isTextInput true ls s).2 !! i
           = match exodaInputs s !! i with Some _ => Some Blank | None => None end)
     /\ (forall (now : Z) (page : state num),
           restoreAllValues now (resetAll isTextInput true ls s).1 page
           = ((resetAll isTextInput true ls s).1, page))
     /\ ((literal 0 0 + literal 0 0)%js = literal 0 0 ->
         (forall id, id ∈ allFields -> isTextInput id = true) ->
         updateTotals (resetAll isTextInput true ls s).2 = updateTotals blankState))
  /\ updateTotals (blankState (num := Binary64.b64))
     = {| grandTotalText := literal 0 0; totalExodaText := literal 0 0;
          cashTotalText := literal (-1000) 0;
          cashLimTotalText := literal (-1000) 0;
          incomeLimTotalText := literal (-1000) 0 |}
  /\ updateTotals (blankState (num := Exact.exact))
     = {| grandTotalText := literal 0 0; totalExodaText := literal 0 0;
          cashTotalText := literal (-1000) 0;
          cashLimTotalText := literal (-1000) 0;
          incomeLimTotalText := literal (-1000) 0 |}.
Proof.
  split; [ | split; vm_compute; reflexivity ].
  intros num H isTextInput ls s.
  refine (conj eq_refl (conj eq_refl (conj eq_refl (conj eq_refl
            (conj _ (conj _ (conj _ _))))))).
  - intros id Hid. cbn [resetAll snd cachedInputs]. now rewrite Hid.
  - intros i. cbn [resetAll snd exodaInputs]. rewrite lookup_fmap.
    now destruct (exodaInputs s !! i).
  - intros now page. unfold restoreAllValues. cbn. now destruct page.
  - apply resetAll_totals.
Qed.

Lemma resetAll_clears_witness :
  updateTotals
    (resetAll (fun _ => true) true
       {| allValues := None; allValuesSavedAt := None; exodaCount := Some 3%nat;
          countMode := Some true; darkMode := Some true |}
       (threeExoda (num := Binary64.b64))).2
  = updateTotals blankState.
Proof.
  refine (proj2 (proj2 (proj2 (proj2 (proj2 (proj2 (proj2
            (proj1 resetAll_clears Binary64.b64 _ (fun _ => true) _ _)))))))
            eq_refl _).
  intros id _. reflexivity.
Defined.

(** X8.  The theme survives a reload: after [toggleTheme], [loadTheme] on
    a page that starts light, with the moon, shows the theme and the icon
    that the toggle left; the toggle keeps the icon in step with the theme
    and touches no other saved item. *)
Theorem theme_survives_reload (num : Type) (H : JsNumber num) (page initial : theme)
    (ls : localStorage num) :
  initial = {| darkModeClass := false; themeIcon := Moon |} ->
  loadTheme (toggleTheme page ls).2 initial = (toggleTheme page ls).1
  /\ darkModeClass (toggleTheme page ls).1 = negb (darkModeClass page)
  /\ (themeIcon (toggleTheme page ls).1 = Sun
      <-> darkModeClass (toggleTheme page ls).1 = true)
  /\ allValues (toggleTheme page ls).2 = allValues ls
  /\ allValuesSavedAt (toggleTheme page ls).2 = allValuesSavedAt ls
  /\ exodaCount (toggleTheme page ls).2 = exodaCount ls
  /\ countMode (toggleTheme page ls).2 = countMode ls.
Proof.
  intros ->. unfold loadTheme, toggleTheme. cbn.
  destruct (darkModeClass page); cbn; repeat split; intros; congruence.
Qed.

Lemma theme_survives_reload_witness :
  loadTheme (num := Binary64.b64)
    (toggleTheme {| darkModeClass := false; themeIcon := Moon |}
       {| allValues := None; allValuesSavedAt := None; exodaCount := None;
          countMode := None; darkMode := None |}).2
    {| darkModeClass := false; themeIcon := Moon |}
  = {| darkModeClass := true; themeIcon := Sun |}.
Proof.
  exact (proj1 (theme_survives_reload Binary64.b64 _
                  {| darkModeClass := false; themeIcon := Moon |}
                  {| darkModeClass := false; themeIcon := Moon |}
                  {| allValues := None; allValuesSavedAt := None;
                     exodaCount := None; countMode := None; darkMode := None |}
                  eq_refl)).
Defined.

Lemma threeExoda_created (num : Type) (H : JsNumber num) :
  exodaFieldsCreated (threeExoda (num := num)).
Proof.
  intros i. cbn [threeExoda exodaInputs currentExodaCount].
  destruct (decide (i = 1%nat)) as [-> | H1].
  { rewrite lookup_insert_eq. split; [ lia | eauto ]. }
  rewrite lookup_insert_ne by congruence.
  destruct (decide (i = 2%nat)) as [-> | H2].
  { rewrite lookup_insert_eq. split; [ lia | eauto ]. }
  rewrite lookup_insert_ne by congruence.
  destruct (decide (i = 3%nat)) as [-> | H3].
  { rewrite lookup_singleton_eq. split; [ lia | eauto ]. }
  rewrite lookup_singleton_ne by congruence.
  split; [ intros [? Hnone]; discriminate Hnone | lia ].
Qed.

Lemma saved_values_come_back_witness :
  updateTotals
    (restoreAllValues 3600000
       (saveAllValues 0 (threeExoda (num := Binary64.b64))
          {| allValues := None; allValuesSavedAt := None; exodaCount := None;
             countMode := None; darkMode := None |})
       (createExodaFields 3 emptyPage)).2
  = updateTotals (threeExoda (num := Binary64.b64)).
Proof.
  refine (proj2 (proj2 (proj2 (proj2 (proj2
            (saved_values_come_back 0 3600000 threeExoda _ _ _)))))).
  - lia.
  - apply threeExoda_created.
Defined.

Lemma saved_values_expire_witness :
  (restoreAllValues 3600001
     (saveAllValues 0 (threeExoda (num := Binary64.b64))
        {| allValues := None; allValuesSavedAt := None; exodaCount := Some 3%nat;
           countMode := None; darkMode := None |})
     blankState).2
  = blankState.
Proof.
  refine (proj1 (saved_values_expire 0 3600001 threeExoda blankState _ _)).
  lia.
Defined.

Section StorageDescFacts.

Context {num : Type} `{JsNumber num}.

Lemma emptyPage_descs (count i : nat) :
  exodaDescInputs (createExodaFieldsDesc count (emptyPage (num := num))) !! i
  = if decide (1 <= i <= count)%nat then Some ""%string else None.
Proof.
  cbn [createExodaFieldsDesc exodaDescInputs emptyPage currentExodaCount].
  rewrite createInputs_lookup, removeCached_lookup.
  destruct (decide (1 <= i <= count)%nat); [ | now destruct (decide (1 <= i <= 1)%nat) ].
  unfold existingDescs.
  rewrite (saved_lookup (fun value => String.eqb value "")).
  cbn [exodaDescInputs emptyPage currentExodaCount].
  rewrite lookup_empty. now destruct (decide (1 <= i <= 1)%nat).
Qed.

(** The saved texts, written back into the empty inputs of a page with as
    many exoda inputs, are the texts of the inputs they were saved from. *)
Lemma restored_main (s : state num) (id : field) :
  id ∈ allFields ->
  restoreMainFields (saveExodaFields s (saveMainFields s ∅)) (fun _ => Blank) id
  = cachedInputs s id.
Proof.
  intros Hid.
  rewrite restoreMainFields_lookup, decide_True by exact Hid.
  rewrite (saved_main_field s id Hid).
  destruct (isBlank (cachedInputs s id)) eqn:Hblank.
  - apply isBlank_Blank in Hblank. now rewrite Hblank.
  - now rewrite Hblank.
Qed.

Lemma restored_exoda (s : state num) :
  exodaFieldsCreated s ->
  restoreExodaFields (saveExodaFields s (saveMainFields s ∅)) (currentExodaCount s)
    (exodaInputs (createExodaFieldsDesc (currentExodaCount s) (emptyPage (num := num))))
  = exodaInputs s.
Proof.
  intros Hcreated. apply map_eq. intros i.
  rewrite restoreExodaFields_lookup.
  change (exodaInputs (createExodaFieldsDesc (currentExodaCount s) emptyPage))
    with (exodaInputs (createExodaFields (currentExodaCount s)
                         (emptyPage (num := num)))).
  rewrite emptyPage_exoda, saved_exoda_field.
  destruct (decide (1 <= i <= currentExodaCount s)%nat) as [Hi | Hi].
  - destruct (proj2 (Hcreated i) Hi) as [value Hvalue]. rewrite Hvalue.
    destruct (isBlank value) eqn:Hblank.
    + apply isBlank_Blank in Hblank. now rewrite Hblank.
    + now rewrite Hblank.
  - destruct (exodaInputs s !! i) as [value | ] eqn:Hvalue; [ | reflexivity ].
    exfalso. apply Hi, Hcreated. eauto.
Qed.

Lemma restored_descs (s : state num) :
  exodaDescsCreated s ->
  restoreExodaDescs (saveExodaDescs s ∅) (currentExodaCount s)
    (exodaDescInputs
       (createExodaFieldsDesc (currentExodaCount s) (emptyPage (num := num))))
  = exodaDescInputs s.
Proof.
  intros Hcreated. apply map_eq. intros i.
  rewrite restoreExodaDescs_lookup, emptyPage_descs.
  unfold saveExodaDescs. rewrite (saved_lookup (fun value => String.eqb value "")).
  destruct (decide (1 <= i <= currentExodaCount s)%nat) as [Hi | Hi].
  - destruct (proj2 (Hcreated i) Hi) as [value Hvalue]. rewrite Hvalue.
    destruct (String.eqb value "") eqn:Hempty.
    + apply String.eqb_eq in Hempty. now rewrite Hempty.
    + now rewrite Hempty.
  - destruct (exodaDescInputs s !! i) as [value | ] eqn:Hvalue; [ | reflexivity ].
    exfalso. apply Hi, Hcreated. eauto.
Qed.

(** X21.  In the version with description inputs, values saved by
    [saveAllValues] and restored within the hour into a freshly built page
    with the same number of exoda inputs come back as they were: the mode,
    the sixteen fixed inputs, the exoda amounts and their descriptions, the
    name, and with them the totals.  The date is not restored: it stays
    what the page set it to on load. *)
Theorem saved_descriptions_come_back (savedAt now : Z) (p : stateWithName num)
    (ls : localStorage num) (today : string) :
  now - savedAt <= 3600000 ->
  exodaFieldsCreated (inputsOf p) ->
  exodaDescsCreated (inputsOf p) ->
  let page :=
    {| inputsOf := createExodaFieldsDesc (currentExodaCount (inputsOf p)) emptyPage;
       userName := "";
       userDate := today |} in
  let r := restoreAllValuesDesc now (saveAllValuesDesc savedAt p ls) page in
  r.1 = saveAllValuesDesc savedAt p ls
  /\ isCountMode (inputsOf r.2) = isCountMode (inputsOf p)
  /\ currentExodaCount (inputsOf r.2) = currentExodaCount (inputsOf p)
  /\ (forall id, id ∈ allFields ->
                 cachedInputs (inputsOf r.2) id = cachedInputs (inputsOf p) id)
  /\ exodaInputs (inputsOf r.2) = exodaInputs (inputsOf p)
  /\ exodaDescInputs (inputsOf r.2) = exodaDescInputs (inputsOf p)
  /\ userName r.2 = userName p
  /\ userDate r.2 = today
  /\ updateTotals (inputsOf r.2) = updateTotals (inputsOf p).
Proof.
  intros Hnow Hcreated Hdescs page r.
  set (s := inputsOf p) in *.
  assert (Hr : r = (saveAllValuesDesc savedAt p ls,
                    {| inputsOf :=
                         {| isCountMode := isCountMode s;
                            currentExodaCount := currentExodaCount s;
                            cachedInputs :=
                              restoreMainFields
                                (saveExodaFields s (saveMainFields s ∅))
                                (fun _ => Blank);
                            exodaInputs :=
                              restoreExodaFields
                                (saveExodaFields s (saveMainFields s ∅))
                                (currentExodaCount s)
                                (exodaInputs
                                   (createExodaFieldsDesc (currentExodaCount s)
                                      (emptyPage (num := num))));
                            exodaDescInputs :=
                              restoreExodaDescs (saveExodaDescs s ∅)
                                (currentExodaCount s)
                                (exodaDescInputs
                                   (createExodaFieldsDesc (currentExodaCount s)
                                      (emptyPage (num := num)))) |};
                       userName := userName p;
                       userDate := today |})).
  { subst r. unfold restoreAllValuesDesc.
    cbn [saveAllValuesDesc allValuesSavedAt allValues countMode fieldValues
           descValues nameValue].
    replace (3600000 <? now - savedAt) with false by (symmetry; apply Z.ltb_ge; lia).
    cbn [inputsOf userName userDate page isCountMode currentExodaCount
           cachedInputs createExodaFieldsDesc emptyPage].
    fold s.
    assert (Hname : match (if String.eqb (userName p) "" then None
                           else Some (userName p)) with
                    | Some name => if String.eqb name "" then ""%string else name
                    | None => ""%string
                    end = userName p).
    { destruct (String.eqb (userName p) "") eqn:Hempty.
      - apply String.eqb_eq in Hempty. now rewrite Hempty.
      - now rewrite Hempty. }
    rewrite Hname. now destruct (isCountMode s). }
  rewrite Hr. cbn [fst snd inputsOf userName userDate isCountMode
    currentExodaCount cachedInputs exodaInputs exodaDescInputs].
  assert (Hfields : forall id, id ∈ allFields ->
            restoreMainFields (saveExodaFields s (saveMainFields s ∅))
              (fun _ => Blank) id = cachedInputs s id)
    by exact (restored_main s).
  refine (conj eq_refl (conj eq_refl (conj eq_refl (conj Hfields
            (conj (restored_exoda s Hcreated) (conj (restored_descs s Hdescs)
               (conj eq_refl (conj eq_refl _)))))))).
  apply updateTotals_ext; try reflexivity.
  - exact Hfields.
  - intros i _. cbn [exodaInputs]. now rewrite (restored_exoda s Hcreated).
Qed.

End StorageDescFacts.

Lemma threeExoda_descs_created (num : Type) (H : JsNumber num) :
  exodaDescsCreated (threeExoda (num := num)).
Proof.
  intros i. cbn [threeExoda exodaDescInputs currentExodaCount].
  destruct (decide (i = 1%nat)) as [-> | H1].
  { rewrite lookup_insert_eq. split; [ lia | eauto ]. }
  rewrite lookup_insert_ne by congruence.
  destruct (decide (i = 2%nat)) as [-> | H2].
  { rewrite lookup_insert_eq. split; [ lia | eauto ]. }
  rewrite lookup_insert_ne by congruence.
  destruct (decide (i = 3%nat)) as [-> | H3].
  { rewrite lookup_singleton_eq. split; [ lia | eauto ]. }
  rewrite lookup_singleton_ne by congruence.
  split; [ intros [? Hnone]; discriminate Hnone | lia ].
Qed.

Lemma saved_descriptions_come_back_witness :
  exodaDescInputs
    (inputsOf
       (restoreAllValuesDesc 1000
          (saveAllValuesDesc 0
             {| inputsOf := threeExoda (num := Binary64.b64);
                userName := "Maria"; userDate := "01/11/2026" |}
             {| allValues := None; allValuesSavedAt := None; exodaCount := None;
                countMode := None; darkMode := None |})
          {| inputsOf := createExodaFieldsDesc 3 emptyPage;
             userName := ""; userDate := "02/11/2026" |}).2)
  = exodaDescInputs (threeExoda (num := Binary64.b64)).
Proof.
  refine (proj1 (proj2 (proj2 (proj2 (proj2 (proj2
            (saved_descriptions_come_back 0 1000
               {| inputsOf := threeExoda (num := Binary64.b64);
                  userName := "Maria"; userDate := "01/11/2026" |}
               _ "02/11/2026" _ _ _))))))).
  - lia.
  - apply threeExoda_created.
  - apply threeExoda_descs_created.
Defined.

Section TotalsExact.

Import Exact.

Local Open Scope Q_scope.

(** In exact arithmetic the operations are those of the rationals, and
    equal numbers are equal terms. *)
Lemma exact_add_eq (x x' y y' : exact) :
  x == x' -> y == y' -> num_add x y = num_add x' y'.
Proof.
  intros Hx Hy. cbn [num_add exact_number]. apply Qred_complete.
  now rewrite Hx, Hy.
Qed.

Lemma exact_mul_eq (x x' y y' : exact) :
  x == x' -> y == y' -> num_mul x y = num_mul x' y'.
Proof.
  intros Hx Hy. cbn [num_mul exact_number]. apply Qred_complete.
  now rewrite Hx, Hy.
Qed.

Lemma exact_div_eq (x x' y y' : exact) :
  x == x' -> y == y' -> num_div x y = num_div x' y'.
Proof.
  intros Hx Hy. cbn [num_div exact_number]. apply Qred_complete.
  now rewrite Hx, Hy.
Qed.

Lemma exact_orZero (x : option exact) :
  orZero x == match x with Some v => v | None => 0 end.
Proof.
  destruct x as [v | ]; [ | reflexivity ].
  unfold orZero. cbn [num_eqb exact_number].
  destruct (Qeq_bool v (literal 0 0)) eqn:Hzero; [ | reflexivity ].
  apply Qeq_bool_iff in Hzero. rewrite Hzero. reflexivity.
Qed.

(** The sum that [updateTotals] builds over a list of fields. *)
Lemma exact_grand_fold (s : state exact) (ids : list field) (acc : exact) :
  foldl (addField s) acc ids
  == acc + fold_right Qplus 0 ((fun id => addField s 0 id) <$> ids).
Proof.
  revert acc. induction ids as [ | id ids IH ]; intros acc.
  - cbn. ring.
  - cbn [foldl fmap list_fmap fold_right]. rewrite IH.
    assert (Hstep : addField s acc id == acc + addField s 0 id).
    { unfold addField.
      destruct (hasDenomination id) as [d | ];
        [ destruct (isCountMode s) | ]; rewrite !exact_add; ring. }
    rewrite Hstep. ring.
Qed.

Lemma exact_deductions_fold (s : state exact) (ids : list other) (acc : exact) :
  foldl (fun deductionsTotal id =>
           num_add deductionsTotal
             (orZero (parseFloat (cachedInputs s (Other id))))) acc ids
  == acc + fold_right Qplus 0
             ((fun id => orZero (parseFloat (cachedInputs s (Other id)))) <$> ids).
Proof.
  revert acc. induction ids as [ | id ids IH ]; intros acc.
  - cbn. ring.
  - cbn [foldl fmap list_fmap fold_right]. rewrite IH, exact_add. ring.
Qed.

Lemma exact_addField_denomination (s : state exact) (d : denom) :
  addField s 0 (Denomination d) == amountOf s d.
Proof.
  unfold addField, amountOf. cbn [hasDenomination].
  destruct (isCountMode s); rewrite exact_add; ring.
Qed.

Lemma exact_addField_other (s : state exact) (o : other) :
  addField s 0 (Other o) == orZero (parseFloat (cachedInputs s (Other o))).
Proof.
  unfold addField. cbn [hasDenomination]. rewrite exact_add. ring.
Qed.

End TotalsExact.

(** In exact arithmetic the cash total is the amount of the bills and
    coins plus the safe (ΚΕΡΜΑΤΑ) minus 1000: the exoda, WOLT, EFOOD, myPos
    and Eurobank amounts, added to the grand total and deducted again,
    cancel out.  On doubles the sums are rounded, and the cash total can
    show a cent more or less. *)
Theorem exact_cash_is_drawer_minus_float (s : state Exact.exact) :
  (cashTotal s
   == fold_right Qplus 0 (amountOf s <$> denominationFields)
      + orZero (parseFloat (cachedInputs s (Other kermata)))
      - 1000)%Q.
Proof.
  unfold cashTotal, grandTotal, deductionsTotal.
  rewrite exact_sub, exact_add, exact_grand_fold.
  pose proof (exact_deductions_fold s deductions) as Hded.
  cbv beta in Hded. rewrite Hded. clear Hded.
  rewrite exact_add.
  unfold allFields, denominationFields, deductions, denominations_bills,
    denominations_coins, denominations_other.
  cbn [fmap list_fmap app fold_right].
  rewrite !exact_addField_denomination, !exact_addField_other.
  change (literal (num := Exact.exact) 0 0) with 0%Q.
  change (literal (num := Exact.exact) 1000 0) with 1000%Q.
  ring.
Qed.

Section ModeFacts.

Context {num : Type} `{JsNumber num}.

(** [toggleInputMode] converts the denomination inputs and leaves every
    other input, and the exoda inputs, alone. *)
Lemma toggleInputMode_other (countMode : bool) (s : state num) (o : other) :
  cachedInputs (toggleInputMode countMode s) (Other o) = cachedInputs s (Other o).
Proof.
  unfold toggleInputMode. destruct (Bool.eqb (isCountMode s) countMode);
    [ reflexivity | ].
  cbn [cachedInputs]. destruct o; reflexivity.
Qed.

Lemma toggleInputMode_exoda (countMode : bool) (s : state num) :
  exodaInputs (toggleInputMode countMode s) = exodaInputs s
  /\ currentExodaCount (toggleInputMode countMode s) = currentExodaCount s.
Proof.
  unfold toggleInputMode. now destruct (Bool.eqb (isCountMode s) countMode).
Qed.

Lemma toggleInputMode_mode (countMode : bool) (s : state num) :
  isCountMode (toggleInputMode countMode s) = countMode.
Proof.
  unfold toggleInputMode.
  destruct (Bool.eqb (isCountMode s) countMode) eqn:Hsame; [ | reflexivity ].
  now apply eqb_prop in Hsame.
Qed.

(** The totals, from what each fixed input adds and from the exoda
    total. *)
Lemma updateTotals_ext_addField (a b : state num) :
  (forall acc id, id ∈ allFields -> addField a acc id = addField b acc id) ->
  (forall o, cachedInputs a (Other o) = cachedInputs b (Other o)) ->
  getTotalExoda a = getTotalExoda b ->
  updateTotals a = updateTotals b.
Proof.
  intros Hfields Hother Htotal.
  assert (Hgrand : grandTotal a = grandTotal b).
  { unfold grandTotal. rewrite Htotal. f_equal. now apply foldl_ext_in. }
  assert (Hded : deductionsTotal a = deductionsTotal b).
  { unfold deductionsTotal. rewrite Htotal.
    apply foldl_ext_in. intros acc id _. now rewrite Hother. }
  assert (Hcash : cashTotal a = cashTotal b).
  { unfold cashTotal. now rewrite Hgrand, Hded. }
  unfold updateTotals, cashLimTotal, incomeLimTotal.
  now rewrite Hgrand, Htotal, Hcash, !Hother.
Qed.

(** The counts that the two breakdowns start from. *)
Lemma getCounts_ext (a b : state num) (ids : list denom) :
  (forall d, countOf a d = countOf b d) -> getCounts a ids = getCounts b ids.
Proof.
  intros Hcount. unfold getCounts. apply foldl_ext_in.
  intros counts id _. now rewrite Hcount.
Qed.

Lemma breakdowns_ext (a b : state num) (out : cachedOutputs num) :
  (forall d, countOf a d = countOf b d) ->
  cachedInputs a (Other kermata) = cachedInputs b (Other kermata) ->
  calculateFakelos a out = calculateFakelos b out
  /\ showStelno a out = showStelno b out.
Proof.
  intros Hcount Hkermata. unfold calculateFakelos, showStelno.
  rewrite !(getCounts_ext a b _ Hcount), Hkermata. split; reflexivity.
Qed.

End ModeFacts.

Section ModeExact.

Import Exact.

Local Open Scope Q_scope.

Lemma exact_isInteger (v : exact) :
  Number_isInteger v = true -> v == inject_Z (Qfloor v).
Proof. cbn [Number_isInteger exact_number]. unfold isInteger. apply Qeq_bool_iff. Qed.

Lemma exact_face_nonzero (d : denom) : ~ denominationValues (num := exact) d == 0.
Proof. destruct d; discriminate. Qed.

(** Count to amount, on one input that holds a valid count. *)
Lemma exact_amount_from_count (d : denom) (value : inputValue exact) :
  validateInput true (Denomination d) value = true ->
  orZero (parseFloat (convertField false d value))
  == orZero (parseFloat value) * denominationValues d.
Proof.
  intros Hvalid. destruct value as [ | [v | ] ].
  - cbn [convertField isBlank parseFloat]. rewrite !exact_orZero. ring.
  - cbn [validateInput isBlank hasDenomination parseFloat] in Hvalid.
    apply andb_true_iff in Hvalid as [Hint Hsign].
    apply exact_isInteger in Hint.
    apply Qle_bool_iff in Hsign. rewrite exact_zero in Hsign.
    set (c := Qfloor v) in *.
    assert (Hc : (0 <= c)%Z).
    { rewrite Hint in Hsign. unfold Qle, inject_Z in Hsign. simpl in Hsign. lia. }
    cbn [convertField isBlank parseFloat].
    destruct (num_eqb v (literal 0 0)) eqn:Hzero.
    + cbn [parseFloat]. unfold orZero. rewrite Hzero. rewrite exact_zero. ring.
    + cbn [parseFloat]. rewrite !exact_orZero, exact_written.
      rewrite (exact_mul_eq v (ofZ c) _ (denominationValues d));
        [ | now rewrite exact_ofZ | reflexivity ].
      rewrite (exact_amount_of_count d c Hc), Hint, (exact_face d).
      unfold Qeq, Qmult, inject_Z. simpl. lia.
  - discriminate Hvalid.
Qed.

(** Amount to count, on one input that holds whole pieces. *)
Lemma exact_count_from_amount (d : denom) (value : inputValue exact) :
  wholeMultiple d value = true ->
  orZero (parseFloat (convertField true d value)) * denominationValues d
  == orZero (parseFloat value).
Proof.
  intros Hwhole. destruct value as [ | [v | ] ].
  - cbn [convertField isBlank parseFloat]. rewrite !exact_orZero. ring.
  - cbn [wholeMultiple parseFloat] in Hwhole.
    apply exact_isInteger in Hwhole.
    cbn [convertField isBlank parseFloat].
    destruct (num_eqb v (literal 0 0)) eqn:Hzero.
    + cbn [parseFloat]. unfold orZero. rewrite Hzero. rewrite exact_zero. ring.
    + cbn [parseFloat]. rewrite !exact_orZero, exact_ofZ.
      rewrite (exact_round_whole _ _ Hwhole), <- Hwhole, exact_div.
      field. apply exact_face_nonzero.
  - cbn [convertField isBlank parseFloat]. rewrite !exact_orZero. ring.
Qed.

End ModeExact.

Section ModeTotalsExact.

Import Exact.

Local Open Scope Q_scope.

Lemma exact_round_eq (x y : exact) : x == y -> Math_round x = Math_round y.
Proof.
  intros Hxy. cbn [Math_round exact_number]. unfold round. now rewrite Hxy.
Qed.

(** What the switch to the other mode needs of each denomination input for
    the totals and the breakdowns to stay: the amount it stands for. *)
Lemma exact_mode_switch (countMode : bool) (s : state exact) :
  isCountMode s = negb countMode ->
  (forall d, amountOf (toggleInputMode countMode s) d == amountOf s d) ->
  updateTotals (toggleInputMode countMode s) = updateTotals s
  /\ forall out,
       calculateFakelos (toggleInputMode countMode s) out = calculateFakelos s out
       /\ showStelno (toggleInputMode countMode s) out = showStelno s out.
Proof.
  intros Hmode Hamount. split.
  - apply updateTotals_ext_addField.
    + intros acc id Hid. destruct id as [d | o | i].
      * specialize (Hamount d). unfold amountOf in Hamount. unfold addField.
        cbn [hasDenomination]. rewrite toggleInputMode_mode in *. rewrite Hmode in *.
        destruct countMode; cbn [negb] in *; cbv zeta in *;
          apply exact_add_eq; try reflexivity; exact Hamount.
      * unfold addField. cbn [hasDenomination].
        now rewrite toggleInputMode_other.
      * exfalso. exact (Exoda_not_main i Hid).
    + intros o. apply toggleInputMode_other.
    + unfold getTotalExoda.
      destruct (toggleInputMode_exoda countMode s) as [-> ->]. reflexivity.
  - intros out. apply breakdowns_ext; [ | apply toggleInputMode_other ].
    intros d. specialize (Hamount d). unfold amountOf in Hamount. unfold countOf.
    rewrite toggleInputMode_mode in *. rewrite Hmode in *.
    destruct countMode; cbn [negb] in *; cbv zeta in *; apply exact_round_eq.
    + rewrite exact_div, <- Hamount, exact_mul. field. apply exact_face_nonzero.
    + rewrite exact_div, Hamount, exact_mul. field. apply exact_face_nonzero.
Qed.

End ModeTotalsExact.

(** In exact arithmetic, a switch from count mode to amount mode changes
    neither the totals nor the two breakdowns, when every denomination
    input is empty or a valid count. *)
Theorem exact_count_to_amount_keeps_totals (s : state Exact.exact) :
  isCountMode s = true ->
  (forall d,
     validateInput true (Denomination d) (cachedInputs s (Denomination d)) = true) ->
  updateTotals (toggleInputMode false s) = updateTotals s
  /\ forall out,
       calculateFakelos (toggleInputMode false s) out = calculateFakelos s out
       /\ showStelno (toggleInputMode false s) out = showStelno s out.
Proof.
  intros Hmode Hvalid. apply exact_mode_switch; [ exact Hmode | ].
  intros d. unfold amountOf.
  rewrite toggleInputMode_mode, Hmode, (toggleInputMode_field false s d Hmode).
  cbv zeta. rewrite exact_mul. apply exact_amount_from_count, Hvalid.
Qed.

(** In exact arithmetic, a switch from amount mode to count mode changes
    neither the totals nor the two breakdowns, when every denomination
    input is empty, not a number, or an amount of whole pieces. *)
Theorem exact_amount_to_count_keeps_totals (s : state Exact.exact) :
  isCountMode s = false ->
  (forall d, wholeMultiple d (cachedInputs s (Denomination d)) = true) ->
  updateTotals (toggleInputMode true s) = updateTotals s
  /\ forall out,
       calculateFakelos (toggleInputMode true s) out = calculateFakelos s out
       /\ showStelno (toggleInputMode true s) out = showStelno s out.
Proof.
  intros Hmode Hwhole. apply exact_mode_switch; [ exact Hmode | ].
  intros d. unfold amountOf.
  rewrite toggleInputMode_mode, Hmode, (toggleInputMode_field true s d Hmode).
  cbv zeta. rewrite exact_mul. apply exact_count_from_amount, Hwhole.
Qed.

Lemma exact_count_to_amount_keeps_totals_witness :
  updateTotals (toggleInputMode false (countState (num := Exact.exact) someCoinsTyped))
  = updateTotals (countState someCoinsTyped).
Proof.
  refine (proj1 (exact_count_to_amount_keeps_totals (countState someCoinsTyped)
                   eq_refl _)).
  intros d. destruct d; reflexivity.
Defined.

Lemma exact_amount_to_count_keeps_totals_witness :
  updateTotals
    (toggleInputMode true
       (toggleInputMode false (countState (num := Exact.exact) someCoinsTyped)))
  = updateTotals (toggleInputMode false (countState someCoinsTyped)).
Proof.
  refine (proj1 (exact_amount_to_count_keeps_totals
                   (toggleInputMode false (countState someCoinsTyped)) eq_refl _)).
  intros d. destruct d; reflexivity.
Defined.

Section ModeOnDoubles.

Import Binary64.

(** [Math.round] finds a whole number below 2^53 again. *)
Lemma round_ofZ (w : Z) :
  0 <= w < 2 ^ 53 -> Math_round (ofZ (num := b64) w) = w.
Proof.
  intros Hw. destruct (Z.eq_dec w 0) as [-> | Hne]; [ reflexivity | ].
  rewrite ofZ_whole by lia. cbn [Math_round b64_number round cond_Zopp].
  pose proof (Zdigits2_le w 53 ltac:(lia) ltac:(lia) ltac:(lia)) as Hd.
  pose proof (Z.pow_pos_nonneg 2 (53 - Zdigits2 w) ltac:(lia) ltac:(lia)) as HP.
  rewrite Z2Pos.id by nia.
  unfold round_half_up.
  destruct (Z.leb_spec 0 (Zdigits2 w - 53)) as [He | He].
  - replace (Zdigits2 w) with 53 by lia. change (2 ^ (53 - 53)) with 1. lia.
  - replace (- (Zdigits2 w - 53)) with (53 - Zdigits2 w) by lia.
    set (j := 53 - Zdigits2 w) in *.
    assert (Hj : 2 ^ j = 2 * 2 ^ (j - 1)).
    { rewrite <- Z.pow_succ_r by lia. f_equal. lia. }
    replace (- (Zdigits2 w - 53) - 1) with (j - 1) by lia.
    pose proof (Z.pow_pos_nonneg 2 (j - 1) ltac:(lia) ltac:(lia)) as Hh.
    symmetry. apply Z.div_unique with (r := 2 ^ (j - 1)); lia.
Qed.

(** [x || 0] rounds as [x] does. *)
Lemma round_orZero (x : b64) :
  Math_round (orZero (Some x)) = Math_round x.
Proof.
  unfold orZero. destruct (num_eqb x (literal 0 0)) eqn:Hzero; [ | reflexivity ].
  destruct x as [s | s | | s m e]; try discriminate Hzero; try reflexivity.
  destruct s; discriminate Hzero.
Qed.

(** Nothing is nothing in both modes. *)
Lemma zero_pieces (d : denom) :
  Math_round (num := b64) (num_div (literal 0 0) (denominationValues d)) = 0.
Proof. destruct d; reflexivity. Qed.

(** The count that amount mode reads in the amount written for a count. *)
Lemma count_of_converted_count (d : denom) (value : inputValue b64) :
  value = Blank \/ value = Text None
  \/ (exists c, 0 <= c <= roundTripCount /\ value = Text (Some (ofZ c))) ->
  Math_round
    (num_div (orZero (parseFloat (convertField false d value)))
       (denominationValues d))
  = Math_round (orZero (parseFloat value)).
Proof.
  intros [-> | [-> | (c & Hc & ->)]].
  - cbn [convertField isBlank parseFloat orZero]. apply zero_pieces.
  - cbn [convertField isBlank parseFloat orZero]. apply zero_pieces.
  - destruct (Z.eq_dec c 0) as [-> | Hne].
    { destruct d; reflexivity. }
    destruct (amount_of_count d c ltac:(lia)) as (Mv & Ev & Hamount & Hcount).
    rewrite Hamount. cbn [parseFloat]. rewrite round_orZero.
    unfold orZero.
    change (num_eqb (S754_finite false Mv Ev) (literal 0 0)) with false.
    cbn iota. rewrite Hcount. symmetry. apply round_ofZ.
    unfold roundTripCount in Hc. lia.
Qed.

(** The count that count mode reads in the count written for an amount. *)
Lemma count_of_converted_amount (d : denom) (value : inputValue b64) :
  0 <= Math_round
         (num_div (orZero (parseFloat value)) (denominationValues d))
    <= maxSafeInteger ->
  Math_round (orZero (parseFloat (convertField true d value)))
  = Math_round
      (num_div (orZero (parseFloat value)) (denominationValues d)).
Proof.
  intros Hk. destruct value as [ | [v | ] ].
  - cbn [convertField isBlank parseFloat orZero]. symmetry. apply zero_pieces.
  - cbn [convertField isBlank parseFloat] in *.
    destruct (num_eqb v (literal 0 0)) eqn:Hzero.
    + cbn [parseFloat]. unfold orZero. rewrite Hzero.
      symmetry. apply zero_pieces.
    + cbn [parseFloat].
      assert (Hv : orZero (Some v) = v).
      { unfold orZero. rewrite Hzero. reflexivity. }
      rewrite Hv in Hk |- *. rewrite round_orZero. apply round_ofZ.
      unfold maxSafeInteger in Hk. lia.
  - cbn [convertField isBlank parseFloat orZero]. symmetry. apply zero_pieces.
Qed.

End ModeOnDoubles.

(** X10.  On doubles a switch from count mode to amount mode leaves the
    counts that the two breakdowns allocate from as they are, and with
    them the breakdowns of a cash total, when every denomination input is
    empty, not a number or a count from 0 to [roundTripCount]. *)
Theorem count_to_amount_keeps_counts (s : state Binary64.b64) :
  isCountMode s = true ->
  (forall d,
     cachedInputs s (Denomination d) = Blank
     \/ cachedInputs s (Denomination d) = Text None
     \/ exists c, 0 <= c <= roundTripCount
                  /\ cachedInputs s (Denomination d) = Text (Some (ofZ c))) ->
  (forall d, countOf (toggleInputMode false s) d = countOf s d)
  /\ forall out,
       calculateFakelos (toggleInputMode false s) out = calculateFakelos s out
       /\ showStelno (toggleInputMode false s) out = showStelno s out.
Proof.
  intros Hmode Hfields.
  assert (Hcount : forall d, countOf (toggleInputMode false s) d = countOf s d).
  { intros d. unfold countOf.
    rewrite toggleInputMode_mode, Hmode,
      (toggleInputMode_field false s d Hmode).
    cbv zeta. apply count_of_converted_count, Hfields. }
  split; [ exact Hcount | ].
  intros out. apply breakdowns_ext; [ exact Hcount | ].
  apply toggleInputMode_other.
Qed.

Lemma count_to_amount_keeps_counts_witness :
  countOf (toggleInputMode false
             (countState (num := Binary64.b64) someCoinsTyped)) coin_0_2
  = countOf (countState someCoinsTyped) coin_0_2.
Proof.
  refine (proj1 (count_to_amount_keeps_counts (countState someCoinsTyped)
                   eq_refl _) coin_0_2).
  intros d. right. right. exists (someCoinsTyped d).
  split; [ unfold roundTripCount; destruct d; cbn; lia | reflexivity ].
Defined.

(** X11.  On doubles a switch from amount mode to count mode leaves the
    counts that the two breakdowns allocate from as they are, and with
    them the breakdowns of a cash total, when the amount of every
    denomination input stands for 0 to [maxSafeInteger] pieces. *)
Theorem amount_to_count_keeps_counts (s : state Binary64.b64) :
  isCountMode s = false ->
  (forall d, 0 <= countOf s d <= maxSafeInteger) ->
  (forall d, countOf (toggleInputMode true s) d = countOf s d)
  /\ forall out,
       calculateFakelos (toggleInputMode true s) out = calculateFakelos s out
       /\ showStelno (toggleInputMode true s) out = showStelno s out.
Proof.
  intros Hmode Hpieces.
  assert (Hcount : forall d, countOf (toggleInputMode true s) d = countOf s d).
  { intros d. specialize (Hpieces d). unfold countOf in *.
    rewrite toggleInputMode_mode, (toggleInputMode_field true s d Hmode).
    rewrite Hmode in *. cbv zeta in *.
    apply count_of_converted_amount, Hpieces. }
  split; [ exact Hcount | ].
  intros out. apply breakdowns_ext; [ exact Hcount | ].
  apply toggleInputMode_other.
Qed.

Lemma amount_to_count_keeps_counts_witness :
  countOf (toggleInputMode true
             (toggleInputMode false
                (countState (num := Binary64.b64) someCoinsTyped))) coin_0_2
  = countOf (toggleInputMode false (countState someCoinsTyped)) coin_0_2.
Proof.
  refine (proj1 (amount_to_count_keeps_counts
                   (toggleInputMode false (countState someCoinsTyped))
                   eq_refl _) coin_0_2).
  intros d. unfold maxSafeInteger. destruct d; vm_compute; split; discriminate.
Defined.

Section ConvertedValid.

Import Exact.

Local Open Scope Q_scope.

(** The remainder of whole pieces is 0. *)
Lemma exact_rem_whole (x : exact) (d : denom) (c : Z) :
  (0 <= c)%Z -> x == inject_Z c * denominationValues d ->
  num_rem x (denominationValues d) == 0.
Proof.
  intros Hc Hx. cbn [num_rem exact_number]. unfold rem, trunc.
  assert (Hq : x / denominationValues d == inject_Z c).
  { rewrite Hx. field. apply exact_face_nonzero. }
  assert (Hsign : Qle_bool 0 (x / denominationValues d) = true).
  { apply Qle_bool_iff. rewrite Hq. unfold Qle, inject_Z. simpl. lia. }
  rewrite Hsign, Qred_correct, Hq, Qfloor_Z, Hx. ring.
Qed.

Lemma exact_whole_amount_valid (x : exact) (d : denom) (c : Z) :
  (0 <= c)%Z -> x == inject_Z c * denominationValues d ->
  validateInput false (Denomination d) (Text (Some x)) = true.
Proof.
  intros Hc Hx. cbn [validateInput isBlank hasDenomination parseFloat].
  cbv zeta. apply orb_true_iff. left. apply exact_ltb_true.
  rewrite (exact_rem_whole x d c Hc Hx). reflexivity.
Qed.

(** Count to amount: a valid count becomes a valid amount. *)
Lemma exact_amount_of_valid_count (d : denom) (value : inputValue exact) :
  validateInput true (Denomination d) value = true ->
  validateInput false (Denomination d) (convertField false d value) = true.
Proof.
  intros Hvalid. destruct value as [ | [v | ] ]; [ reflexivity | | discriminate ].
  cbn [validateInput isBlank hasDenomination parseFloat] in Hvalid.
  apply andb_true_iff in Hvalid as [Hint Hsign].
  apply exact_isInteger in Hint.
  apply Qle_bool_iff in Hsign. rewrite exact_zero in Hsign.
  set (c := Qfloor v) in *.
  assert (Hc : (0 <= c)%Z).
  { rewrite Hint in Hsign. unfold Qle, inject_Z in Hsign. simpl in Hsign. lia. }
  cbn [convertField isBlank parseFloat].
  destruct (num_eqb v (literal 0 0)) eqn:Hzero.
  - apply (exact_whole_amount_valid v d 0); [ lia | ].
    apply Qeq_bool_iff in Hzero. rewrite Hzero, exact_zero. ring.
  - apply (exact_whole_amount_valid _ d c Hc).
    rewrite exact_written.
    rewrite (exact_mul_eq v (ofZ c) _ (denominationValues d));
      [ | now rewrite exact_ofZ | reflexivity ].
    rewrite (exact_amount_of_count d c Hc), (exact_face d).
    unfold Qeq, Qmult, inject_Z. simpl. lia.
Qed.

(** Amount to count: an amount that is not negative becomes a valid
    count. *)
Lemma exact_count_of_amount_valid (d : denom) (v : exact) :
  0 <= v ->
  validateInput true (Denomination d) (convertField true d (Text (Some v))) = true.
Proof.
  intros Hv. cbn [convertField isBlank parseFloat].
  assert (Hwhole : forall n : Z,
            (0 <= n)%Z ->
            validateInput true (Denomination d) (Text (Some (ofZ (num := exact) n)))
            = true).
  { intros n Hn. cbn [validateInput isBlank hasDenomination parseFloat].
    apply andb_true_iff. split.
    - cbn [Number_isInteger exact_number]. unfold isInteger.
      apply Qeq_bool_iff. rewrite exact_ofZ, Qfloor_Z. reflexivity.
    - apply Qle_bool_iff. rewrite exact_zero, exact_ofZ.
      unfold Qle, inject_Z. simpl. lia. }
  destruct (num_eqb v (literal 0 0)) eqn:Hzero.
  - apply Qeq_bool_iff in Hzero. rewrite exact_zero in Hzero.
    cbn [validateInput isBlank hasDenomination parseFloat].
    apply andb_true_iff. split.
    + cbn [Number_isInteger exact_number]. unfold isInteger.
      apply Qeq_bool_iff. rewrite Hzero. reflexivity.
    + apply Qle_bool_iff. rewrite exact_zero. exact Hv.
  - apply Hwhole. cbn [Math_round exact_number]. unfold round.
    assert (Hq : 0 <= num_div v (denominationValues d) + (1 # 2)).
    { rewrite exact_div.
      pose proof (faceCents_pos d) as Hface.
      assert (Hpos : 0 < denominationValues (num := exact) d).
      { rewrite (exact_face d). unfold Qlt. simpl. lia. }
      assert (Hdiv : 0 <= v / denominationValues d).
      { apply Qle_shift_div_l; [ exact Hpos | ]. now rewrite Qmult_0_l. }
      apply Qle_trans with (v / denominationValues d); [ exact Hdiv | ].
      rewrite <- (Qplus_0_r (v / denominationValues d)) at 1.
      apply Qplus_le_r. discriminate. }
    apply Qfloor_resp_le in Hq. exact Hq.
Qed.

End ConvertedValid.

Section ConvertedValidOnDoubles.

Import Binary64.

Lemma amountsOfCountsValid_each (d : denom) (n : nat) :
  forall c, amountsOfCountsValid d c n = true ->
  forall c', c <= c' < c + Z.of_nat n -> amountOfCountValid d c' = true.
Proof.
  induction n as [ | n IH ]; intros c Hall c' Hrange; [ lia | ].
  cbn [amountsOfCountsValid] in Hall. apply andb_true_iff in Hall as [Hc Hrest].
  destruct (Z.eq_dec c' c) as [-> | Hne]; [ exact Hc | ].
  apply (IH (c + 1)); [ exact Hrest | lia ].
Qed.

(** Every count up to [convertedCount], of every denomination, by running
    the converter and the validation. *)
Lemma amountsOfCounts_checked :
  forallb (fun d => amountsOfCountsValid d 0 (Z.to_nat convertedCount + 1))
    denominationFields = true.
Proof. vm_cast_no_check (eq_refl true). Qed.

End ConvertedValidOnDoubles.

(** X12.  The mode converter leaves valid inputs.  From count mode, a
    valid count becomes an amount that is valid in amount mode: on doubles
    for every count up to [convertedCount] (the tolerance of 0.001 is what
    makes 3 pieces of 0.1 valid), in exact arithmetic for every valid
    input.  From amount mode, in exact arithmetic, an amount that is not
    negative becomes a valid count. *)
Theorem converted_inputs_are_valid :
  (forall (d : denom) (c : Z),
     0 <= c <= convertedCount ->
     validateInput (num := Binary64.b64) false (Denomination d)
       (convertField false d (Text (Some (ofZ c)))) = true)
  /\ (forall (d : denom) (value : inputValue Exact.exact),
        validateInput true (Denomination d) value = true ->
        validateInput false (Denomination d) (convertField false d value) = true)
  /\ (forall (d : denom) (v : Exact.exact),
        (0 <= v)%Q ->
        validateInput true (Denomination d) (convertField true d (Text (Some v)))
        = true).
Proof.
  refine (conj _ (conj exact_amount_of_valid_count exact_count_of_amount_valid)).
  intros d c Hrange.
  pose proof amountsOfCounts_checked as Hall.
  rewrite forallb_forall in Hall.
  apply (amountsOfCountsValid_each d (Z.to_nat convertedCount + 1) 0).
  - apply Hall. unfold denominationFields. destruct d; simpl; tauto.
  - unfold convertedCount in *. lia.
Qed.

Lemma converted_inputs_are_valid_witness :
  validateInput (num := Binary64.b64) false (Denomination coin_0_1)
    (convertField false coin_0_1 (Text (Some (ofZ 3)))) = true.
Proof.
  refine (proj1 converted_inputs_are_valid coin_0_1 3 _).
  unfold convertedCount. lia.
Defined.

Section AllocateKeys.

Context {num : Type} `{JsNumber num}.

Local Open Scope js_scope.

(** A pass records uses for the denominations of its order only. *)
Lemma allocate_lookup_notin available order used (r : num) (d : denom) :
  d ∉ order.*2 -> (allocate available order used r).1 !! d = used !! d.
Proof.
  revert used r. induction order as [ | [c d'] rest IH ]; intros used r Hd;
    [ reflexivity | ].
  cbn [fmap list_fmap snd] in Hd. apply not_elem_of_cons in Hd as [Hne Hd].
  cbn [allocate]. destruct (r <=? literal 0 0); [ reflexivity | ].
  destruct (0 <? Z.min _ _)%Z.
  - rewrite IH by exact Hd. now rewrite lookup_insert_ne.
  - now apply IH.
Qed.

Lemma allocate_keys available order used (r : num) (d : denom) (n : Z) :
  (allocate available order used r).1 !! d = Some n ->
  used !! d = Some n \/ d ∈ order.*2.
Proof.
  intros Hn. destruct (decide (d ∈ order.*2)) as [Hin | Hnotin]; [ now right | ].
  left. now rewrite <- (allocate_lookup_notin available order used r d Hnotin).
Qed.

End AllocateKeys.

Section MaximalExact.

Import Exact.

Local Open Scope Q_scope.

Lemma exact_leb_cents (r : exact) (k : Z) :
  r == k # 100 -> num_leb r (literal 0 0) = true <-> (k <= 0)%Z.
Proof.
  intros Hr. cbn [num_leb exact_number]. rewrite Qle_bool_iff, Hr, exact_zero.
  unfold Qle. simpl. lia.
Qed.

(** One pass on whole cents takes as many pieces of each denomination as
    fit: the rest does not grow, and it is below the face value of every
    denomination of the pass that is not used up. *)
Lemma exact_allocate_maximal available order used (r : exact) (k : Z) :
  NoDup (order.*2) ->
  (forall c d, (c, d) ∈ order -> used !! d = None) ->
  r == k # 100 ->
  exists k', (k' <= k)%Z
    /\ (allocate available order used r).2 == k' # 100
    /\ forall c d, (c, d) ∈ order ->
         (orZeroZ ((allocate available order used r).1 !! d) < available d)%Z ->
         (k' < faceCents d)%Z.
Proof.
  revert used r k.
  induction order as [ | [c d] rest IH ]; intros used r k Hnodup Hfresh Hr.
  - exists k. cbn. split; [ lia | ]. split; [ exact Hr | ].
    intros c d Hin. now apply elem_of_nil in Hin.
  - cbn [fmap list_fmap snd] in Hnodup.
    apply list.NoDup_cons in Hnodup as [Hd Hnodup].
    assert (Hrest : forall c' d', (c', d') ∈ rest -> used !! d' = None).
    { intros c' d' Hin. apply (Hfresh c'). now apply list_elem_of_further. }
    pose proof (faceCents_pos d) as Hface.
    cbn [allocate].
    destruct (num_leb r (literal 0 0)) eqn:Hstop.
    + apply (exact_leb_cents r k Hr) in Hstop.
      exists k. cbn [fst snd]. split; [ lia | ]. split; [ exact Hr | ].
      intros c' d' _ _. pose proof (faceCents_pos d'). lia.
    + assert (Hk : (0 < k)%Z).
      { destruct (Z_lt_le_dec 0 k) as [ | Hle ]; [ assumption | ].
        apply (exact_leb_cents r k Hr) in Hle. congruence. }
      rewrite (exact_needed c r k d Hr).
      set (n := Z.min (k / faceCents d) (available d)).
      destruct (0 <? n)%Z eqn:Hpos.
      * apply Z.ltb_lt in Hpos.
        destruct (IH (<[d := n]> used)
                    (round2 (num_sub r (num_mul (ofZ n) (denominationValues d))))
                    (k - n * faceCents d)%Z) as (k' & Hle & Hr' & Hmax).
        -- exact Hnodup.
        -- intros c' d' Hin. rewrite lookup_insert_ne; [ now apply (Hrest c') | ].
           intros ->. apply Hd. apply list_elem_of_fmap. exists (c', d'). auto.
        -- apply exact_round2_cents.
           rewrite exact_sub, exact_mul, exact_ofZ, (exact_face d), Hr.
           unfold Qeq, Qminus, Qplus, Qopp, Qmult, inject_Z. simpl. lia.
        -- exists k'. split; [ nia | ]. split; [ exact Hr' | ].
           intros c' d' Hin Hleft.
           apply elem_of_cons in Hin as [[= -> ->] | Hin]; [ | now apply (Hmax c') ].
           rewrite allocate_lookup_notin in Hleft by exact Hd.
           rewrite lookup_insert_eq, orZeroZ_Some in Hleft.
           assert (Hn : n = (k / faceCents d)%Z) by (subst n; lia).
           pose proof (Z.mod_pos_bound k (faceCents d) Hface) as Hmod.
           pose proof (Z.div_mod k (faceCents d)) as Hdiv.
           rewrite Hn in Hle. lia.
      * apply Z.ltb_ge in Hpos.
        destruct (IH used r k Hnodup Hrest Hr) as (k' & Hle & Hr' & Hmax).
        exists k'. split; [ exact Hle | ]. split; [ exact Hr' | ].
        intros c' d' Hin Hleft.
        apply elem_of_cons in Hin as [[= -> ->] | Hin]; [ | now apply (Hmax c') ].
        rewrite allocate_lookup_notin in Hleft by exact Hd.
        rewrite (Hfresh c d) in Hleft by apply list_elem_of_here.
        cbn [orZeroZ] in Hleft.
        assert (Hq : (k / faceCents d <= 0)%Z) by (subst n; lia).
        destruct (Z_lt_le_dec k (faceCents d)) as [Hlt | Hge]; [ lia | ].
        pose proof (Z.div_le_mono _ _ _ Hface Hge) as Hone.
        rewrite Z.div_same in Hone by lia. lia.
Qed.

Lemma leftOf_positive (counts used : gmap denom Z) (d : denom) :
  (0 < leftOf (num := exact) counts used d)%Z ->
  (orZeroZ (used !! d) < availableIn counts d)%Z.
Proof. rewrite exact_leftOf. unfold availableIn. lia. Qed.

(** Two passes in a row, the second from the rest of the first. *)
Lemma exact_two_passes_maximal (forBills forCoins : denom -> Z)
    (bills coins : list denom) (r0 r1 r2 : exact) (k0 : Z)
    (usedB usedC : gmap denom Z) :
  NoDup bills -> NoDup coins ->
  r0 == k0 # 100 ->
  allocate forBills (pair Bill <$> bills) ∅ r0 = (usedB, r1) ->
  allocate forCoins (pair Coin <$> coins) ∅ r1 = (usedC, r2) ->
  (forall d, d ∈ bills -> (orZeroZ (usedB !! d) < forBills d)%Z ->
             r2 < denominationValues d)
  /\ (forall d, d ∈ coins -> (orZeroZ (usedC !! d) < forCoins d)%Z ->
                r2 < denominationValues d).
Proof.
  intros Hbills Hcoins Hr0 Hb Hc.
  destruct (exact_allocate_maximal forBills (pair Bill <$> bills) ∅ r0 k0)
    as (k1 & Hle1 & Hr1 & Hmax1).
  { now rewrite pass_denominations. }
  { intros c d _. apply lookup_empty. }
  { exact Hr0. }
  rewrite Hb in Hr1, Hmax1. cbn [fst snd] in Hr1, Hmax1.
  destruct (exact_allocate_maximal forCoins (pair Coin <$> coins) ∅ r1 k1)
    as (k2 & Hle2 & Hr2 & Hmax2).
  { now rewrite pass_denominations. }
  { intros c d _. apply lookup_empty. }
  { exact Hr1. }
  rewrite Hc in Hr2, Hmax2. cbn [fst snd] in Hr2, Hmax2.
  assert (Hbelow : forall d k, (k2 <= k)%Z -> (k < faceCents d)%Z ->
                     r2 < denominationValues d).
  { intros d k Hk Hd. rewrite Hr2, (exact_face d). unfold Qlt. simpl. lia. }
  split; intros d Hd Hleft.
  - apply (Hbelow d k1 Hle2). apply (Hmax1 Bill); [ | exact Hleft ].
    apply list_elem_of_fmap. now exists d.
  - apply (Hbelow d k2); [ lia | ]. apply (Hmax2 Coin); [ | exact Hleft ].
    apply list_elem_of_fmap. now exists d.
Qed.

End MaximalExact.

(** X13.  In exact arithmetic the envelope takes every piece that fits: of
    a denomination of which something is left, not one more piece fits
    into the amount that stays uncovered. *)
Theorem exact_allocation_is_maximal
    (billCounts coinCounts : gmap denom Z) (cashTotal : Exact.exact) :
  let a := fakelosAllocate billCounts coinCounts cashTotal in
  (forall d, d ∈ billDenominations ->
             0 < leftOf (num := Exact.exact) billCounts (usedBills a) d ->
             (remaining a < denominationValues d)%Q)
  /\ (forall d, d ∈ coinDenominations ->
                0 < leftOf (num := Exact.exact) coinCounts (usedCoins a) d ->
                (remaining a < denominationValues d)%Q).
Proof.
  intros a.
  pose proof (fakelosAllocate_passes billCounts coinCounts cashTotal) as Hpass.
  cbv zeta in Hpass. destruct Hpass as [Hb Hc].
  destruct (exact_two_passes_maximal _ _ _ _ _ _ _ _ _ _
              billDenominations_NoDup coinDenominations_NoDup
              (exact_round2_is_cents cashTotal) Hb Hc) as [Hbills Hcoins].
  split; intros d Hd Hleft.
  - apply (Hbills d Hd). now apply leftOf_positive.
  - apply (Hcoins d Hd). now apply leftOf_positive.
Qed.

Section AccountsExact.

Import Exact.

Local Open Scope Q_scope.

(** The totals that the two loops of [calculateFakelos] add up are the
    amounts of the pieces they record. *)
Lemma exact_fakelosBills_total (billCounts : gmap denom Z) (denoms L : list denom)
    (used : gmap denom Z) (r total : exact) :
  NoDup denoms -> NoDup L ->
  (forall d, d ∈ denoms -> d ∈ L /\ used !! d = None) ->
  (fakelosBills billCounts denoms used r total).2
  == total
     + ((usedCents (fakelosBills billCounts denoms used r total).1.1 L
         - usedCents used L)%Z # 100).
Proof.
  revert used r total.
  induction denoms as [ | d rest IH ]; intros used r total Hnodup HL Hfresh.
  - cbn [fakelosBills fst snd]. rewrite Z.sub_diag. unfold Qeq, Qplus. simpl. lia.
  - apply list.NoDup_cons in Hnodup as [Hd Hnodup].
    destruct (Hfresh d) as [HdL Hnone]; [ apply list_elem_of_here | ].
    assert (Hrest : forall d', d' ∈ rest -> d' ∈ L /\ used !! d' = None).
    { intros d' Hin. apply Hfresh. now apply list_elem_of_further. }
    cbn [fakelosBills].
    destruct (num_leb r (literal 0 0)).
    { cbn [fst snd]. rewrite Z.sub_diag. unfold Qeq, Qplus. simpl. lia. }
    destruct (billCounts !! d) as [available | ]; [ | now apply IH ].
    destruct (0 <? Z.min _ available)%Z; [ | now apply IH ].
    set (n := Z.min _ available).
    rewrite IH; [ | exact Hnodup | exact HL | ].
    + generalize (usedCents
                    (fakelosBills billCounts rest (<[d := n]> used)
                       (round2 (num_sub r (num_mul (ofZ n) (denominationValues d))))
                       (num_add total (num_mul (ofZ n) (denominationValues d)))).1.1
                    L).
      intros z.
      rewrite exact_add, exact_mul, exact_ofZ, (exact_face d).
      rewrite (usedCents_insert_in used L d n HL HdL Hnone).
      unfold Qeq, Qplus, Qmult, inject_Z. simpl. lia.
    + intros d' Hin. destruct (Hrest d' Hin) as [HL' Hnone'].
      split; [ exact HL' | ].
      rewrite lookup_insert_ne; [ exact Hnone' | ]. now intros ->.
Qed.

Lemma exact_fakelosCoins_total (coinCounts : gmap denom Z) (denoms L : list denom)
    (used : gmap denom Z) (r total : exact) :
  NoDup denoms -> NoDup L ->
  (forall d, d ∈ denoms -> d ∈ L /\ used !! d = None) ->
  (fakelosCoins coinCounts denoms used r total).2
  == total
     + ((usedCents (fakelosCoins coinCounts denoms used r total).1.1 L
         - usedCents used L)%Z # 100).
Proof.
  revert used r total.
  induction denoms as [ | d rest IH ]; intros used r total Hnodup HL Hfresh.
  - cbn [fakelosCoins fst snd]. rewrite Z.sub_diag. unfold Qeq, Qplus. simpl. lia.
  - apply list.NoDup_cons in Hnodup as [Hd Hnodup].
    destruct (Hfresh d) as [HdL Hnone]; [ apply list_elem_of_here | ].
    assert (Hrest : forall d', d' ∈ rest -> d' ∈ L /\ used !! d' = None).
    { intros d' Hin. apply Hfresh. now apply list_elem_of_further. }
    cbn [fakelosCoins].
    destruct (num_leb r (literal 0 0)).
    { cbn [fst snd]. rewrite Z.sub_diag. unfold Qeq, Qplus. simpl. lia. }
    destruct (coinCounts !! d) as [available | ]; [ | now apply IH ].
    destruct (0 <? Z.min _ available)%Z; [ | now apply IH ].
    set (n := Z.min _ available).
    rewrite IH; [ | exact Hnodup | exact HL | ].
    + generalize (usedCents
                    (fakelosCoins coinCounts rest (<[d := n]> used)
                       (round2 (num_sub r (num_mul (ofZ n) (denominationValues d))))
                       (num_add total (num_mul (ofZ n) (denominationValues d)))).1.1
                    L).
      intros z.
      rewrite exact_add, exact_mul, exact_ofZ, (exact_face d).
      rewrite (usedCents_insert_in used L d n HL HdL Hnone).
      unfold Qeq, Qplus, Qmult, inject_Z. simpl. lia.
    + intros d' Hin. destruct (Hrest d' Hin) as [HL' Hnone'].
      split; [ exact HL' | ].
      rewrite lookup_insert_ne; [ exact Hnone' | ]. now intros ->.
Qed.

(** What is left of a stock that is not negative, in cents: the stock
    less what is used. *)
Lemma exact_addLeft_fold (counts used : gmap denom Z) (L : list denom)
    (acc : exact) :
  (forall d, d ∈ L ->
     (orZeroZ (used !! d) + leftOf (num := exact) counts used d
      = orZeroZ (counts !! d))%Z) ->
  foldl (addLeft counts used) acc L
  == acc + ((usedCents counts L - usedCents used L)%Z # 100).
Proof.
  revert acc. induction L as [ | d L IH ]; intros acc Hleft.
  - cbn. unfold Qeq, Qplus. simpl. lia.
  - cbn [foldl]. rewrite IH.
    + unfold addLeft. rewrite exact_add, exact_mul, exact_ofZ, (exact_face d).
      pose proof (Hleft d (list_elem_of_here _ _)) as Hd.
      change (usedCents counts (d :: L))
        with (orZeroZ (counts !! d) * faceCents d + usedCents counts L)%Z.
      change (usedCents used (d :: L))
        with (orZeroZ (used !! d) * faceCents d + usedCents used L)%Z.
      rewrite <- Hd. unfold Qeq, Qplus, Qmult, inject_Z. simpl. lia.
    + intros d' Hin. apply Hleft. now apply list_elem_of_further.
Qed.

End AccountsExact.

Section UsedWithinStock.

(** Of a stock that is not negative, what a pass uses and what is left add
    up to the stock, whether or not the denomination is counted. *)
Lemma used_and_left (counts : gmap denom Z) order (r : Exact.exact) (d : denom) :
  (forall c, counts !! d = Some c -> 0 <= c) ->
  orZeroZ ((allocate (availableIn counts) order ∅ r).1 !! d)
  + leftOf (num := Exact.exact) counts
      (allocate (availableIn counts) order ∅ r).1 d
  = orZeroZ (counts !! d).
Proof.
  intros Hstock.
  pose proof (allocate_used_bound (availableIn counts) order ∅ r) as Hbound.
  assert (Hused : forall n,
            (allocate (availableIn counts) order ∅ r).1 !! d = Some n ->
            0 < n <= availableIn counts d).
  { apply Hbound. intros d' n Hn. rewrite lookup_empty in Hn. discriminate. }
  rewrite exact_leftOf. unfold availableIn in *.
  destruct ((allocate _ order ∅ r).1 !! d) as [n | ].
  - specialize (Hused n eq_refl). rewrite orZeroZ_Some. lia.
  - cbn [orZeroZ]. destruct (counts !! d) as [c | ] eqn:Hc.
    + specialize (Hstock c eq_refl). rewrite orZeroZ_Some. lia.
    + cbn [orZeroZ]. lia.
Qed.

End UsedWithinStock.

Section EnvelopeAccounts.

Import Exact.

Local Open Scope Q_scope.

(** The two loops of [calculateFakelos] and the total of what is left,
    over any two lists of denominations. *)
Lemma exact_accounts (billCounts coinCounts : gmap denom Z)
    (bills coins : list denom) (r0 : exact)
    (ub uc : gmap denom Z) (r1 r2 bt ct : exact) :
  NoDup bills -> NoDup coins ->
  (forall d c, billCounts !! d = Some c -> (0 <= c)%Z) ->
  (forall d c, coinCounts !! d = Some c -> (0 <= c)%Z) ->
  fakelosBills billCounts bills ∅ r0 (literal 0 0) = (ub, r1, bt) ->
  fakelosCoins coinCounts coins ∅ r1 (literal 0 0) = (uc, r2, ct) ->
  bt == usedAmount ub bills
  /\ ct == usedAmount uc coins
  /\ bt + ct
     + foldl (addLeft coinCounts uc)
         (foldl (addLeft billCounts ub) (literal 0 0) bills) coins
     == usedAmount billCounts bills + usedAmount coinCounts coins.
Proof.
  intros Hbills Hcoins Hstock Hstock' Hb Hc.
  pose proof (exact_fakelosBills_total billCounts bills bills ∅ r0 (literal 0 0)
                Hbills Hbills) as Hbt.
  pose proof (exact_fakelosCoins_total coinCounts coins coins ∅ r1 (literal 0 0)
                Hcoins Hcoins) as Hct.
  pose proof (fakelosBills_allocate billCounts bills ∅ r0 (literal 0 0)) as Hba.
  pose proof (fakelosCoins_allocate coinCounts coins ∅ r1 (literal 0 0)) as Hca.
  rewrite Hb in Hbt, Hba. rewrite Hc in Hct, Hca. cbn [fst snd] in *.
  rewrite usedCents_empty, Z.sub_0_r, exact_zero, Qplus_0_l in Hbt, Hct.
  specialize (Hbt (fun d Hd => conj Hd (lookup_empty d))).
  specialize (Hct (fun d Hd => conj Hd (lookup_empty d))).
  assert (Hleft : forall d,
            (orZeroZ (ub !! d) + leftOf (num := exact) billCounts ub d
             = orZeroZ (billCounts !! d))%Z).
  { intros d.
    pose proof (used_and_left billCounts (pair Bill <$> bills) r0 d (Hstock d)) as Hd.
    now rewrite Hba in Hd. }
  assert (Hleft' : forall d,
            (orZeroZ (uc !! d) + leftOf (num := exact) coinCounts uc d
             = orZeroZ (coinCounts !! d))%Z).
  { intros d.
    pose proof (used_and_left coinCounts (pair Coin <$> coins) r1 d (Hstock' d)) as Hd.
    now rewrite Hca in Hd. }
  rewrite !exact_usedAmount.
  rewrite (exact_addLeft_fold coinCounts uc coins _ (fun d _ => Hleft' d)).
  rewrite (exact_addLeft_fold billCounts ub bills _ (fun d _ => Hleft d)).
  rewrite Hbt, Hct, exact_zero.
  split; [ reflexivity | ]. split; [ reflexivity | ].
  unfold Qeq, Qplus. simpl. lia.
Qed.

End EnvelopeAccounts.

(** X14.  In exact arithmetic, with counts that are not negative, the
    total shown for the envelope is the amount of the pieces put into it,
    and together with the total of what stays it is the amount of all the
    pieces counted. *)
Theorem exact_envelope_and_rest_add_up
    (billCounts coinCounts : gmap denom Z) (cashTotal : Exact.exact) :
  (forall d c, billCounts !! d = Some c -> 0 <= c) ->
  (forall d c, coinCounts !! d = Some c -> 0 <= c) ->
  let a := fakelosAllocate billCounts coinCounts cashTotal in
  (billsTotal a == usedAmount (usedBills a) billDenominations
   /\ coinsTotal a == usedAmount (usedCoins a) coinDenominations
   /\ billsTotal a + coinsTotal a + remainingTotal billCounts coinCounts a
      == usedAmount billCounts billDenominations
         + usedAmount coinCounts coinDenominations)%Q.
Proof.
  intros Hstock Hstock'. unfold remainingTotal, fakelosAllocate.
  destruct (fakelosBills billCounts billDenominations ∅ (round2 cashTotal)
              (literal 0 0)) as [[ub r1] bt] eqn:Hb.
  destruct (fakelosCoins coinCounts coinDenominations ∅ r1 (literal 0 0))
    as [[uc r2] ct] eqn:Hc.
  cbn [usedBills usedCoins billsTotal coinsTotal].
  exact (exact_accounts billCounts coinCounts _ _ _ _ _ _ _ _ _
           billDenominations_NoDup coinDenominations_NoDup Hstock Hstock' Hb Hc).
Qed.

Lemma exact_envelope_and_rest_add_up_witness :
  (billsTotal (fakelosAllocate (num := Exact.exact) twoBills someCoins (literal 1735 2))
   + coinsTotal (fakelosAllocate (num := Exact.exact) twoBills someCoins (literal 1735 2))
   + remainingTotal twoBills someCoins
       (fakelosAllocate (num := Exact.exact) twoBills someCoins (literal 1735 2))
   == usedAmount twoBills billDenominations + usedAmount someCoins coinDenominations)%Q.
Proof.
  refine (proj2 (proj2 (exact_envelope_and_rest_add_up twoBills someCoins
                          (literal 1735 2) _ _))).
  - intros d c Hc. destruct d; vm_compute in Hc; try discriminate;
      injection Hc as <-; lia.
  - intros d c Hc. destruct d; vm_compute in Hc; try discriminate;
      injection Hc as <-; lia.
Defined.

Section PutItems.

Context {num : Type} `{JsNumber num}.

(** The items listed for the uses [used] recorded by a pass over
    [denoms]. *)
Lemma putItems_of_pass (available : denom -> Z) (c : category)
    (denoms : list denom) (r : num) (used : gmap denom Z) (r' : num) :
  allocate available (pair c <$> denoms) ∅ r = (used, r') ->
  (forall d n, (d, n) ∈ putItems used denoms <-> used !! d = Some n)
  /\ (forall d n, used !! d = Some n -> d ∈ denoms /\ 0 < n <= available d).
Proof.
  intros Hpass.
  assert (Hbound : forall d n, used !! d = Some n -> d ∈ denoms /\ 0 < n <= available d).
  { intros d n Hn. split.
    - pose proof (allocate_keys available (pair c <$> denoms) ∅ r d n) as Hkeys.
      rewrite Hpass, pass_denominations in Hkeys.
      destruct (Hkeys Hn) as [Hempty | Hin]; [ | exact Hin ].
      rewrite lookup_empty in Hempty. discriminate.
    - pose proof (allocate_used_bound available (pair c <$> denoms) ∅ r) as Hb.
      rewrite Hpass in Hb. apply Hb; [ | exact Hn ].
      intros d' n' Hn'. rewrite lookup_empty in Hn'. discriminate. }
  split; [ | exact Hbound ].
  intros d n. unfold putItems. rewrite list_elem_of_omap. split.
  - intros (d' & _ & Hitem).
    destruct (used !! d') as [n' | ] eqn:Hn'; [ | discriminate ].
    destruct (0 <? n'); [ | discriminate ].
    injection Hitem as <- <-. exact Hn'.
  - intros Hn. destruct (Hbound d n Hn) as [Hin Hpos].
    exists d. split; [ exact Hin | ]. rewrite Hn.
    replace (0 <? n) with true by (symmetry; apply Z.ltb_lt; lia). reflexivity.
Qed.

(** X15.  What [calculateFakelos] lists under "ΒΑΖΕΙΣ" is what the
    allocation recorded, no more and no less: a denomination is listed with
    the count [n] exactly when [n] pieces of it are used; what is used of
    a bill is recorded with the bills and what is used of a coin with the
    coins, always at least one piece and at most the pieces counted. *)
Theorem put_items_are_the_used_pieces
    (billCounts coinCounts : gmap denom Z) (cashTotal : num) :
  let a := fakelosAllocate billCounts coinCounts cashTotal in
  (forall d n, (d, n) ∈ putItems (usedBills a) billDenominations
               <-> usedBills a !! d = Some n)
  /\ (forall d n, (d, n) ∈ putItems (usedCoins a) coinDenominations
                  <-> usedCoins a !! d = Some n)
  /\ (forall d n, usedBills a !! d = Some n ->
                  d ∈ billDenominations /\ 0 < n <= availableIn billCounts d)
  /\ (forall d n, usedCoins a !! d = Some n ->
                  d ∈ coinDenominations /\ 0 < n <= availableIn coinCounts d).
Proof.
  intros a.
  pose proof (fakelosAllocate_passes billCounts coinCounts cashTotal) as Hpass.
  cbv zeta in Hpass. destruct Hpass as [Hb Hc].
  destruct (putItems_of_pass _ _ _ _ _ _ Hb) as [Hb1 Hb2].
  destruct (putItems_of_pass _ _ _ _ _ _ Hc) as [Hc1 Hc2].
  exact (conj Hb1 (conj Hc1 (conj Hb2 Hc2))).
Qed.

End PutItems.

Section DebounceFacts.

Context {A : Type}.

Lemma executedFunction_awaiting (wait now : Z) (args : A)
    (last : option (Z * A)) (st : debounced A) :
  awaiting wait last st ->
  awaiting wait (Some (now, args)) (executedFunction wait now args st).
Proof.
  intros Hst. unfold executedFunction, setTimeout. cbn [awaiting timeout page pending].
  exists (nextId (clearTimeout (timeout st) (page st))). split; [ reflexivity | ].
  assert (Hcleared : pending (clearTimeout (timeout st) (page st)) = ∅).
  { destruct last as [[called args'] | ]; cbn [awaiting] in Hst.
    - destruct Hst as (id & -> & Hpending). cbn [clearTimeout pending].
      rewrite Hpending. apply delete_singleton_eq.
    - destruct (timeout st) as [id | ]; cbn [clearTimeout pending];
        rewrite Hst; [ apply delete_empty | reflexivity ]. }
  rewrite Hcleared. reflexivity.
Qed.

Lemma fire_awaiting (wait now : Z) (id : nat) (last : option (Z * A))
    (st st' : debounced A) (args : A) :
  awaiting wait last st ->
  fire now id st = Some (args, st') ->
  exists called,
    last = Some (called, args) /\ called + wait <= now
    /\ timeout st = Some id /\ awaiting wait None st'.
Proof.
  intros Hst Hfire. unfold fire in Hfire.
  destruct last as [[called args'] | ]; cbn [awaiting] in Hst.
  - destruct Hst as (id' & Htimeout & Hpending). rewrite Hpending in Hfire.
    destruct (decide (id = id')) as [-> | Hne].
    + rewrite lookup_singleton_eq in Hfire.
      destruct (called + wait <=? now) eqn:Hdue; [ | discriminate ].
      apply Z.leb_le in Hdue. unfold later in Hfire.
      injection Hfire as <- <-. exists called.
      refine (conj eq_refl (conj Hdue (conj Htimeout _))).
      cbn [awaiting page pending]. rewrite Htimeout. cbn [clearTimeout pending].
      rewrite delete_singleton_eq. apply delete_empty.
    + rewrite lookup_singleton_ne in Hfire by congruence. discriminate.
  - rewrite Hst, lookup_empty in Hfire. discriminate.
Qed.

(** From a closure that holds what a call left, or nothing. *)
Lemma run_settled (wait : Z) (trace : list (event A)) :
  forall (last : option (Z * A)) (st st' : debounced A) (calls : list A),
    awaiting wait last st ->
    run wait trace st = Some (calls, st') ->
    calls = settled (snd <$> last) trace
    /\ inTime wait (fst <$> last) trace = true.
Proof.
  induction trace as [ | [now args | now id] rest IH ];
    intros last st st' calls Hst Hrun.
  - cbn in Hrun. injection Hrun as <- <-. split; reflexivity.
  - cbn [run settled inTime] in *.
    exact (IH (Some (now, args)) _ _ _
             (executedFunction_awaiting wait now args last st Hst) Hrun).
  - cbn [run] in Hrun.
    destruct (fire now id st) as [[args st1] | ] eqn:Hfire; [ | discriminate ].
    destruct (run wait rest st1) as [[calls1 st2] | ] eqn:Hrest; [ | discriminate ].
    injection Hrun as <- <-.
    destruct (fire_awaiting wait now id last st st1 args Hst Hfire)
      as (called & -> & Hdue & _ & Hst1).
    destruct (IH None st1 st2 calls1 Hst1 Hrest) as [-> Htime].
    cbn [settled inTime fmap option_fmap option_map fst snd].
    split; [ reflexivity | ].
    apply andb_true_iff. split; [ now apply Z.leb_le | exact Htime ].
Qed.

(** The closure after [n] calls and no timer, the last call at [called]
    with [args]: the timer of that call has the id [n]. *)
Lemma calls_awaiting (wait : Z) (calls : list (Z * A)) :
  forall (st : debounced A) (called : Z) (args : A) (rest : list (event A)),
    (exists last, awaiting wait last st) ->
    exists st',
      run wait ((uncurry Call <$> calls) ++ Call called args :: rest) st
      = run wait rest st'
      /\ timeout st' = Some (length calls + nextId (page st))%nat
      /\ pending (page st')
         = {[ (length calls + nextId (page st))%nat := (called + wait, args) ]}
      /\ nextId (page st') = S (length calls + nextId (page st)).
Proof.
  induction calls as [ | [now args'] calls IH ]; intros st called args rest [last Hst].
  - exists (executedFunction wait called args st). cbn [fmap list_fmap app run length].
    split; [ reflexivity | ].
    assert (Hnext : nextId (clearTimeout (timeout st) (page st)) = nextId (page st)).
    { now destruct (timeout st). }
    destruct (executedFunction_awaiting wait called args last st Hst)
      as (id & Htimeout & Hpending).
    unfold executedFunction, setTimeout in *. cbn [timeout page pending nextId] in *.
    rewrite Hnext in *. injection Htimeout as <-.
    rewrite Hpending. cbn [Nat.add]. auto.
  - cbn [fmap list_fmap app run length uncurry].
    destruct (IH (executedFunction wait now args' st) called args rest) as
      (st' & Hrun & Htimeout & Hpending & Hnext).
    { exists (Some (now, args')). now apply (executedFunction_awaiting _ _ _ last). }
    assert (Hid : nextId (page (executedFunction wait now args' st))
                  = S (nextId (page st))).
    { unfold executedFunction, setTimeout. cbn [page nextId].
      now destruct (timeout st). }
    rewrite Hid in *.
    exists st'. split; [ exact Hrun | ].
    replace (S (length calls) + nextId (page st))%nat
      with (length calls + S (nextId (page st)))%nat by lia.
    auto.
Qed.

End DebounceFacts.

(** X16.  A function made by [debounce] passes a call on only when the
    browser runs the timer of that call: [func] is called with the
    arguments of the call that the timer event follows directly, once, and
    no earlier than [wait] after that call.  A call that another call
    follows before its timer has run is never passed on. *)
Theorem debounce_passes_on_settled_calls (A : Type) (wait : Z)
    (trace : list (event A)) (calls : list A) (st : debounced A) :
  run wait trace debounce = Some (calls, st) ->
  calls = settled None trace /\ inTime wait None trace = true.
Proof.
  intros Hrun.
  exact (run_settled wait trace None debounce st calls eq_refl Hrun).
Qed.

(** X17.  However many calls come before the browser runs a timer, once
    [wait] has passed since the last of them [func] is called exactly once,
    with the arguments of the last call. *)
Theorem debounce_burst_runs_last_call_once (A : Type) (wait : Z)
    (calls : list (Z * A)) (called now : Z) (args : A) :
  called + wait <= now ->
  exists st,
    run wait ((uncurry Call <$> calls)
              ++ [Call called args; Timer now (S (length calls))]) debounce
    = Some ([args], st)
    /\ pending (page st) = ∅.
Proof.
  intros Hdue.
  destruct (calls_awaiting wait calls debounce called args
              [Timer now (S (length calls))]) as (st' & Hrun & Htimeout & Hpending & _).
  { exists None. reflexivity. }
  cbn [debounce page nextId] in *.
  replace (length calls + 1)%nat with (S (length calls)) in * by lia.
  rewrite Hrun. cbn [run]. unfold fire. rewrite Hpending, lookup_singleton_eq.
  replace (called + wait <=? now) with true by (symmetry; now apply Z.leb_le).
  unfold later. cbn [timeout page pending nextId clearTimeout].
  rewrite Htimeout. cbn [clearTimeout pending].
  eexists. split; [ reflexivity | ].
  cbn [page pending]. rewrite delete_singleton_eq. apply delete_empty.
Qed.

Lemma debounce_passes_on_settled_calls_witness :
  ["c"%string; "d"%string]
  = settled None
      [Call 0 "a"%string; Call 10 "b"%string; Call 20 "c"%string; Timer 70 3%nat;
       Call 100 "d"%string; Timer 150 4%nat]
  /\ inTime 50 None
       [Call 0 "a"%string; Call 10 "b"%string; Call 20 "c"%string; Timer 70 3%nat;
        Call 100 "d"%string; Timer 150 4%nat] = true.
Proof.
  refine (debounce_passes_on_settled_calls string 50 _ _ _ _).
  vm_compute. reflexivity.
Defined.

Lemma debounce_burst_runs_last_call_once_witness :
  exists st,
    run 300 ((uncurry Call <$> [(0, "a"%string); (100, "b"%string)])
             ++ [Call 250 "c"%string; Timer 550 3%nat]) debounce
    = Some (["c"%string], st)
    /\ pending (page st) = ∅.
Proof.
  refine (debounce_burst_runs_last_call_once string 300
            [(0, "a"%string); (100, "b"%string)] 250 550 "c"%string _).
  lia.
Defined.

Section DateFacts.

(** Numbers from 0 to 99 are padded to the two digits that read them. *)
Lemma padStart2_twoDigits (n : Z) :
  0 <= n <= 99 -> twoDigits n (padStart2 (String_ofZ n)) = true.
Proof.
  intros Hn.
  assert (Hall : forallb (fun k => twoDigits k (padStart2 (String_ofZ k)))
                   (seqZ 0 100) = true) by (vm_compute; reflexivity).
  rewrite forallb_forall in Hall. apply Hall.
  apply list_elem_of_In, elem_of_seqZ. lia.
Qed.

Lemma twoDigits_inj (n m : Z) (s : string) :
  twoDigits n s = true -> twoDigits m s = true -> n = m.
Proof.
  destruct s as [ | a [ | b [ | ] ] ]; try discriminate. cbn [twoDigits].
  intros Hn Hm.
  apply andb_true_iff in Hn as [_ Hn]. apply andb_true_iff in Hm as [_ Hm].
  apply Z.eqb_eq in Hn, Hm. lia.
Qed.

Lemma twoDigits_length (n : Z) (s : string) :
  twoDigits n s = true -> exists a b, s = String a (String b EmptyString).
Proof.
  destruct s as [ | a [ | b [ | ] ] ]; try discriminate. eauto.
Qed.

Lemma String_ofZ_inj (n m : Z) : String_ofZ n = String_ofZ m -> n = m.
Proof.
  unfold String_ofZ. intros Heq.
  assert (Hnorm : forall z, Z.to_int z <> Decimal.Pos Decimal.Nil
                            /\ Z.to_int z <> Decimal.Neg Decimal.Nil).
  { intros z. split; intros Hz; pose proof (f_equal Z.of_int Hz) as Hzero;
      rewrite DecimalZ.of_to in Hzero; cbn in Hzero; subst z; discriminate Hz. }
  apply DecimalZ.to_int_inj.
  assert (Hsome : Some (Z.to_int n) = Some (Z.to_int m)).
  { rewrite <- (NilZero.isi (Z.to_int n)), <- (NilZero.isi (Z.to_int m));
      try apply Hnorm. now rewrite Heq. }
  now injection Hsome.
Qed.

End DateFacts.

(** X18.  For a date with a day from 1 to 31 and a month from January (0)
    to December (11), [formatDateDMY] writes two digits that read the day,
    a slash, two digits that read the month counted from 1, a slash and
    the year; so two dates with the same text are the same date. *)
Theorem formatDateDMY_layout :
  (forall d : date,
     1 <= getDate d <= 31 -> 0 <= getMonth d <= 11 ->
     exists dd mm : string,
       formatDateDMY d = (dd ++ "/" ++ mm ++ "/" ++ String_ofZ (getFullYear d))%string
       /\ twoDigits (getDate d) dd = true
       /\ twoDigits (getMonth d + 1) mm = true)
  /\ (forall d d' : date,
        1 <= getDate d <= 31 -> 0 <= getMonth d <= 11 ->
        1 <= getDate d' <= 31 -> 0 <= getMonth d' <= 11 ->
        formatDateDMY d = formatDateDMY d' -> d = d').
Proof.
  assert (Hlayout : forall d : date,
            1 <= getDate d <= 31 -> 0 <= getMonth d <= 11 ->
            twoDigits (getDate d) (padStart2 (String_ofZ (getDate d))) = true
            /\ twoDigits (getMonth d + 1)
                 (padStart2 (String_ofZ (getMonth d + 1))) = true).
  { intros d Hday Hmonth. split; apply padStart2_twoDigits; lia. }
  split.
  - intros d Hday Hmonth. destruct (Hlayout d Hday Hmonth) as [Hdd Hmm].
    eexists _, _. split; [ reflexivity | ]. split; assumption.
  - intros d d' Hday Hmonth Hday' Hmonth' Heq.
    destruct (Hlayout d Hday Hmonth) as [Hdd Hmm].
    destruct (Hlayout d' Hday' Hmonth') as [Hdd' Hmm'].
    unfold formatDateDMY in Heq. cbv zeta in Heq.
    destruct (twoDigits_length _ _ Hdd) as (a & b & Ha).
    destruct (twoDigits_length _ _ Hmm) as (e & f & He).
    destruct (twoDigits_length _ _ Hdd') as (a' & b' & Ha').
    destruct (twoDigits_length _ _ Hmm') as (e' & f' & He').
    rewrite Ha, He, Ha', He' in *. cbn [String.append] in Heq.
    injection Heq as <- <- <- <- Hyear.
    pose proof (twoDigits_inj _ _ _ Hdd Hdd') as Hd1.
    pose proof (twoDigits_inj _ _ _ Hmm Hmm') as Hd2.
    apply String_ofZ_inj in Hyear.
    destruct d, d'. cbn [getDate getMonth getFullYear] in *.
    f_equal; lia.
Qed.

Lemma formatDateDMY_layout_witness :
  exists dd mm : string,
    formatDateDMY {| getDate := 1; getMonth := 10; getFullYear := 2026 |}
    = (dd ++ "/" ++ mm ++ "/" ++ String_ofZ 2026)%string
    /\ twoDigits 1 dd = true
    /\ twoDigits 11 mm = true.
Proof.
  refine (proj1 formatDateDMY_layout
            {| getDate := 1; getMonth := 10; getFullYear := 2026 |} _ _);
    cbn [getDate getMonth]; lia.
Defined.

Section CalendarFacts.

Lemma month_step (m : Z) :
  0 <= m <= 11 ->
  ((m + 1) mod 12 = if m =? 11 then 0 else m + 1)
  /\ ((m + 1) / 12 = if m =? 11 then 1 else 0)
  /\ ((m - 1) mod 12 = if m =? 0 then 11 else m - 1)
  /\ ((m - 1) / 12 = if m =? 0 then -1 else 0).
Proof.
  intros Hm.
  destruct (Z.eqb_spec m 11) as [H11 | H11];
    destruct (Z.eqb_spec m 0) as [H0 | H0];
    repeat split; Z.div_mod_to_equations; lia.
Qed.

End CalendarFacts.

(** X22.  The arrows of the calendar move the month in view by one and
    carry into the year: after December comes January of the next year,
    before January December of the year before; the month stays between 0
    and 11, and one arrow undoes the other.  The selected date is not
    touched. *)
Theorem calendar_arrows (c : calendar) :
  0 <= getMonth (calendarViewDate c) <= 11 ->
  calendarViewDate (calendarNext c)
  = {| getDate := getDate (calendarViewDate c);
       getMonth := if getMonth (calendarViewDate c) =? 11 then 0
                   else getMonth (calendarViewDate c) + 1;
       getFullYear := if getMonth (calendarViewDate c) =? 11
                      then getFullYear (calendarViewDate c) + 1
                      else getFullYear (calendarViewDate c) |}
  /\ calendarViewDate (calendarPrev c)
     = {| getDate := getDate (calendarViewDate c);
          getMonth := if getMonth (calendarViewDate c) =? 0 then 11
                      else getMonth (calendarViewDate c) - 1;
          getFullYear := if getMonth (calendarViewDate c) =? 0
                         then getFullYear (calendarViewDate c) - 1
                         else getFullYear (calendarViewDate c) |}
  /\ calendarPrev (calendarNext c) = c
  /\ calendarNext (calendarPrev c) = c
  /\ calendarSelectedDate (calendarNext c) = calendarSelectedDate c
  /\ calendarSelectedDate (calendarPrev c) = calendarSelectedDate c.
Proof.
  destruct c as [[day month year] selected].
  cbn [calendarViewDate getMonth getDate getFullYear]. intros Hm.
  destruct (month_step month Hm) as (Hn1 & Hn2 & Hp1 & Hp2).
  unfold calendarNext, calendarPrev, setMonth.
  cbn [calendarViewDate calendarSelectedDate getMonth getDate getFullYear].
  rewrite Hn1, Hn2, Hp1, Hp2.
  assert (Hnext : 0 <= (if month =? 11 then 0 else month + 1) <= 11).
  { destruct (month =? 11) eqn:H11; [ lia | apply Z.eqb_neq in H11; lia ]. }
  assert (Hprev : 0 <= (if month =? 0 then 11 else month - 1) <= 11).
  { destruct (month =? 0) eqn:H0; [ lia | apply Z.eqb_neq in H0; lia ]. }
  destruct (month_step _ Hnext) as (_ & _ & Hq1 & Hq2).
  destruct (month_step _ Hprev) as (Hr1 & Hr2 & _ & _).
  rewrite Hq1, Hq2, Hr1, Hr2.
  refine (conj _ (conj _ (conj _ (conj _ (conj eq_refl eq_refl))))).
  - f_equal. destruct (month =? 11); lia.
  - f_equal. destruct (month =? 0); lia.
  - destruct (month =? 11) eqn:H11.
    + apply Z.eqb_eq in H11. subst month. cbn. do 2 f_equal. lia.
    + apply Z.eqb_neq in H11.
      replace (month + 1 =? 0) with false by (symmetry; apply Z.eqb_neq; lia).
      do 2 f_equal; lia.
  - destruct (month =? 0) eqn:H0.
    + apply Z.eqb_eq in H0. subst month. cbn. do 2 f_equal. lia.
    + apply Z.eqb_neq in H0.
      replace (month - 1 =? 11) with false by (symmetry; apply Z.eqb_neq; lia).
      do 2 f_equal; lia.
Qed.

Lemma calendar_arrows_witness :
  calendarViewDate
    (calendarNext
       {| calendarViewDate := {| getDate := 1; getMonth := 11; getFullYear := 2026 |};
          calendarSelectedDate :=
            {| getDate := 24; getMonth := 11; getFullYear := 2026 |} |})
  = {| getDate := 1; getMonth := 0; getFullYear := 2027 |}.
Proof.
  refine (proj1 (calendar_arrows
                   {| calendarViewDate :=
                        {| getDate := 1; getMonth := 11; getFullYear := 2026 |};
                      calendarSelectedDate :=
                        {| getDate := 24; getMonth := 11; getFullYear := 2026 |} |}
                   _)).
  cbn. lia.
Defined.

Section GridFacts.

Variable getDay : date -> Z.
Variable daysOfMonth : Z -> Z -> Z.

Lemma newDate_in_view (year month day : Z) :
  100 <= year -> 0 <= month <= 11 ->
  newDate year month day
  = {| getDate := day; getMonth := month; getFullYear := year |}.
Proof.
  intros Hyear Hmonth. unfold newDate.
  replace ((0 <=? year) && (year <=? 99)) with false
    by (symmetry; apply andb_false_iff; right; apply Z.leb_gt; lia).
  cbv zeta. rewrite Z.mod_small, Z.div_small by lia. f_equal. lia.
Qed.

(** X23.  The grid of [renderCalendar] starts the week on Monday: before
    the days 1 to the last of the month, in their order, come as many
    empty cells as there are days from Monday to the day of the week of
    the first -- none for a Monday, six for a Sunday -- so that day [d] is
    the cell number [startDay + d]. *)
Theorem calendar_grid (today : date) (c : calendar) :
  0 <= getDay (newDate (getFullYear (calendarViewDate c))
                 (getMonth (calendarViewDate c)) 1) <= 6 ->
  0 <= daysOfMonth (getFullYear (calendarViewDate c))
         (getMonth (calendarViewDate c)) ->
  let first := newDate (getFullYear (calendarViewDate c))
                 (getMonth (calendarViewDate c)) 1 in
  let days := daysOfMonth (getFullYear (calendarViewDate c))
                (getMonth (calendarViewDate c)) in
  let startDay := (getDay first + 6) mod 7 in
  Z.of_nat (length (renderCalendar getDay daysOfMonth today c)) = startDay + days
  /\ (forall i, 0 <= i < startDay ->
        renderCalendar getDay daysOfMonth today c !! Z.to_nat i = Some EmptyCell)
  /\ (forall d, 1 <= d <= days ->
        exists isToday isSelected,
          renderCalendar getDay daysOfMonth today c !! Z.to_nat (startDay + d - 1)
          = Some (DayCell d isToday isSelected)).
Proof.
  intros Hday Hdays first days startDay.
  unfold renderCalendar. cbv zeta. fold first. fold days.
  assert (Hstart : (if getDay first - 1 <? 0 then 6 else getDay first - 1)
                   = startDay).
  { subst startDay. fold first in Hday.
    destruct (getDay first - 1 <? 0) eqn:Hneg.
    - apply Z.ltb_lt in Hneg. replace (getDay first) with 0 by lia. reflexivity.
    - apply Z.ltb_ge in Hneg.
      replace (getDay first + 6) with (getDay first - 1 + 1 * 7) by lia.
      rewrite Z.mod_add, Z.mod_small by lia. reflexivity. }
  rewrite Hstart.
  assert (Hrange : 0 <= startDay <= 6).
  { subst startDay. pose proof (Z.mod_pos_bound (getDay first + 6) 7). lia. }
  refine (conj _ (conj _ _)).
  - rewrite length_app, !length_fmap, !length_seqZ. lia.
  - intros i Hi. rewrite lookup_app_l by (rewrite length_fmap, length_seqZ; lia).
    rewrite list_lookup_fmap, lookup_seqZ_lt by lia. reflexivity.
  - intros d Hd.
    rewrite lookup_app_r by (rewrite length_fmap, length_seqZ; lia).
    rewrite length_fmap, length_seqZ, list_lookup_fmap.
    replace (Z.to_nat (startDay + d - 1) - Z.to_nat startDay)%nat
      with (Z.to_nat (d - 1)) by lia.
    rewrite lookup_seqZ_lt by lia.
    replace (1 + Z.of_nat (Z.to_nat (d - 1))) with d by lia.
    cbn [fmap option_fmap option_map]. eauto.
Qed.

(** X24.  A click on a day of the month in view selects that day: the
    date input reads this day of the month and the year in view, and when
    the calendar is drawn again with that month in view, the button of
    this day, and no other, has the class ['cal-selected']. *)
Theorem calendar_pick (today : date) (c : calendar) (d : Z) :
  100 <= getFullYear (calendarViewDate c) ->
  0 <= getMonth (calendarViewDate c) <= 11 ->
  let picked := {| getDate := d;
                   getMonth := getMonth (calendarViewDate c);
                   getFullYear := getFullYear (calendarViewDate c) |} in
  (calendarPick d c).2 = formatDateDMY picked
  /\ calendarSelectedDate (calendarPick d c).1 = picked
  /\ calendarViewDate (calendarPick d c).1 = calendarViewDate c
  /\ forall day isToday isSelected,
       DayCell day isToday isSelected
         ∈ renderCalendar getDay daysOfMonth today (calendarPick d c).1 ->
       isSelected = (day =? d).
Proof.
  intros Hyear Hmonth picked.
  assert (Hpicked : forall day,
            newDate (getFullYear (calendarViewDate c))
              (getMonth (calendarViewDate c)) day
            = {| getDate := day;
                 getMonth := getMonth (calendarViewDate c);
                 getFullYear := getFullYear (calendarViewDate c) |})
    by (intros day; now apply newDate_in_view).
  unfold calendarPick. cbv zeta. cbn [fst snd calendarSelectedDate calendarViewDate].
  rewrite Hpicked.
  refine (conj eq_refl (conj eq_refl (conj eq_refl _))).
  intros day isToday isSelected Hcell.
  unfold renderCalendar in Hcell. cbv zeta in Hcell.
  cbn [calendarSelectedDate calendarViewDate] in Hcell.
  apply elem_of_app in Hcell as [Hcell | Hcell].
  - apply list_elem_of_fmap in Hcell as (? & Hempty & _). discriminate Hempty.
  - apply list_elem_of_fmap in Hcell as (day' & Hday & _).
    rewrite Hpicked in Hday. cbn [getDate getMonth getFullYear] in Hday.
    injection Hday as <- _ ->.
    rewrite !Z.eqb_refl, !andb_true_r. reflexivity.
Qed.

End GridFacts.

Lemma calendar_grid_witness :
  Z.of_nat
    (length
       (renderCalendar (fun _ => 0) (fun _ _ => 30)
          {| getDate := 1; getMonth := 10; getFullYear := 2026 |}
          (initCalendar {| getDate := 1; getMonth := 10; getFullYear := 2026 |})))
  = 36.
Proof.
  refine (proj1 (calendar_grid (fun _ => 0) (fun _ _ => 30)
                   {| getDate := 1; getMonth := 10; getFullYear := 2026 |}
                   (initCalendar {| getDate := 1; getMonth := 10; getFullYear := 2026 |})
                   _ _)); cbv beta; lia.
Defined.

Lemma calendar_pick_witness :
  (calendarPick 5
     (initCalendar {| getDate := 1; getMonth := 10; getFullYear := 2026 |})).2
  = formatDateDMY {| getDate := 5; getMonth := 10; getFullYear := 2026 |}.
Proof.
  refine (proj1 (calendar_pick (fun _ => 0) (fun _ _ => 30)
                   {| getDate := 1; getMonth := 10; getFullYear := 2026 |}
                   (initCalendar {| getDate := 1; getMonth := 10; getFullYear := 2026 |})
                   5 _ _));
    vm_compute; repeat split; discriminate.
Defined.

(** X25.  In exact arithmetic [openCalendar] never puts the dropdown left
    of 8 pixels from the window's edge; when the window is at least 16
    pixels wider than the dropdown its right edge stays 8 pixels inside as
    well.  It is put 6 pixels below the date input when it fits above the
    lower margin, and otherwise 6 pixels above the input, however far up
    that is; it never covers the input. *)
Theorem calendar_position (rectLeft rectTop rectBottom dw dh
    innerWidth innerHeight : Q) :
  let top := (openCalendarPosition rectLeft rectTop rectBottom dw dh
                innerWidth innerHeight).1 in
  let left := (openCalendarPosition rectLeft rectTop rectBottom dw dh
                 innerWidth innerHeight).2 in
  (8 <= left)%Q
  /\ ((dw + 16 <= innerWidth)%Q -> (left + dw <= innerWidth - 8)%Q)
  /\ ((top == rectBottom + 6 /\ top + dh <= innerHeight - 8)
      \/ (top + dh == rectTop - 6 /\ ~ rectBottom + 6 + dh <= innerHeight - 8))%Q
  /\ (rectBottom + 6 <= top \/ top + dh <= rectTop - 6)%Q.
Proof.
  unfold openCalendarPosition, Exact.ltb. cbv zeta. cbn [fst snd].
  assert (Hleft : forall x : Q,
            (8 <= (if negb (Qle_bool 8 x) then 8 else x))%Q).
  { intros x. destruct (Qle_bool 8 x) eqn:Hx; cbn [negb].
    - now apply Qle_bool_iff.
    - apply Qle_refl. }
  refine (conj (Hleft _) (conj _ _)).
  - intros Hfits.
    assert (Hedge : (8 + dw <= innerWidth - 8)%Q).
    { apply (Qplus_le_l _ _ 8).
      assert (Hl : (8 + dw + 8 == dw + 16)%Q) by ring.
      assert (Hr : (innerWidth - 8 + 8 == innerWidth)%Q) by ring.
      rewrite Hl, Hr. exact Hfits. }
    destruct (Qle_bool (rectLeft + dw) (innerWidth - 8)) eqn:Hright; cbn [negb].
    + apply Qle_bool_iff in Hright.
      destruct (Qle_bool 8 rectLeft) eqn:Hx; cbn [negb]; assumption.
    + destruct (Qle_bool 8 (innerWidth - dw - 8)) eqn:Hx; cbn [negb];
        [ | exact Hedge ].
      assert (Hl : (innerWidth - dw - 8 + dw == innerWidth - 8)%Q) by ring.
      rewrite Hl. apply Qle_refl.
  - destruct (Qle_bool (rectBottom + 6 + dh) (innerHeight - 8)) eqn:Hbelow;
      cbn [negb].
    + apply Qle_bool_iff in Hbelow. split.
      * left. split; [ reflexivity | exact Hbelow ].
      * left. apply Qle_refl.
    + split.
      * right. split; [ ring | ].
        intros Hle. apply Qle_bool_iff in Hle. congruence.
      * right.
        assert (Hl : (rectTop - dh - 6 + dh == rectTop - 6)%Q) by ring.
        rewrite Hl. apply Qle_refl.
Qed.

Lemma calendar_position_witness :
  ((openCalendarPosition 300 100 130 280 320 360 640).2 + 280 <= 360 - 8)%Q.
Proof.
  refine (proj1 (proj2 (calendar_position 300 100 130 280 320 360 640)) _).
  unfold Qle. simpl. lia.
Defined.

Section ExodaTotalFacts.

Context {num : Type} `{JsNumber num}.

(** X19.  After the number of exoda inputs is reduced, the entries that
    were dropped no longer count: the exoda total is the sum of the entries
    that are kept, whatever the dropped ones held.  (With them the totals
    that contain the exoda total change.) *)
Theorem dropped_exoda_leave_the_total (count : nat) (s : state num) :
  exodaFieldsCreated s ->
  (count <= currentExodaCount s)%nat ->
  getTotalExoda (createExodaFields count s) = totalOfFirst count s
  /\ getTotalExoda (createExodaFieldsDesc count s) = totalOfFirst count s
  /\ totalOfFirst (currentExodaCount s) s = getTotalExoda s.
Proof.
  intros Hcreated Hcount.
  assert (Hkept : forall i, (1 <= i <= count)%nat ->
            exists value,
              exodaInputs s !! i = Some value
              /\ exists value',
                   createInputs Blank (existingValues s) count
                     (removeCached (currentExodaCount s) (exodaInputs s)) !! i
                   = Some value'
                   /\ parseFloat value' = parseFloat value).
  { intros i Hi.
    destruct (proj2 (Hcreated i)) as [value Hvalue]; [ lia | ].
    exists value. split; [ exact Hvalue | ].
    rewrite createInputs_lookup, decide_True by exact Hi.
    unfold existingValues. rewrite (saved_lookup isBlank), decide_True by lia.
    rewrite Hvalue. eexists. split; [ reflexivity | ].
    destruct (isBlank value) eqn:Hblank; [ | reflexivity ].
    now destruct value. }
  assert (Hsum : foldl (fun total i =>
                          match createInputs Blank (existingValues s) count
                                  (removeCached (currentExodaCount s) (exodaInputs s))
                                  !! i with
                          | Some value => (total + orZero (parseFloat value))%js
                          | None => total
                          end) (literal 0 0) (from1 count)
                 = totalOfFirst count s).
  { unfold totalOfFirst. apply foldl_ext_in. intros total i Hi.
    unfold from1 in Hi. apply elem_of_seq in Hi.
    destruct (Hkept i) as (value & -> & value' & -> & ->); [ lia | reflexivity ]. }
  refine (conj Hsum (conj Hsum eq_refl)).
Qed.

(** X20.  [toggleInputMode] converts the inputs of the bills and coins and
    nothing else: the other amounts, the exoda inputs and their count stay
    as they are; it sets the mode it is called with, and called again with
    that mode it changes nothing. *)
Theorem toggleInputMode_touches_denominations_only (countMode : bool)
    (s : state num) :
  isCountMode (toggleInputMode countMode s) = countMode
  /\ (forall o, cachedInputs (toggleInputMode countMode s) (Other o)
                = cachedInputs s (Other o))
  /\ exodaInputs (toggleInputMode countMode s) = exodaInputs s
  /\ exodaDescInputs (toggleInputMode countMode s) = exodaDescInputs s
  /\ currentExodaCount (toggleInputMode countMode s) = currentExodaCount s
  /\ (forall d, cachedInputs (toggleInputMode countMode s) (Denomination d)
                = if Bool.eqb (isCountMode s) countMode
                  then cachedInputs s (Denomination d)
                  else convertField countMode d (cachedInputs s (Denomination d)))
  /\ toggleInputMode countMode (toggleInputMode countMode s)
     = toggleInputMode countMode s.
Proof.
  refine (conj (toggleInputMode_mode countMode s)
            (conj (toggleInputMode_other countMode s)
               (conj (proj1 (toggleInputMode_exoda countMode s)) (conj _
                  (conj (proj2 (toggleInputMode_exoda countMode s)) (conj _ _)))))).
  - unfold toggleInputMode. now destruct (Bool.eqb (isCountMode s) countMode).
  - intros d. destruct (Bool.eqb (isCountMode s) countMode) eqn:Hsame.
    + unfold toggleInputMode. now rewrite Hsame.
    + apply toggleInputMode_field.
      destruct (isCountMode s), countMode; try discriminate; reflexivity.
  - unfold toggleInputMode at 1.
    rewrite toggleInputMode_mode, Bool.eqb_reflx. reflexivity.
Qed.

End ExodaTotalFacts.

Lemma dropped_exoda_leave_the_total_witness :
  getTotalExoda (createExodaFields 1 (threeExoda (num := Binary64.b64)))
  = totalOfFirst 1 threeExoda.
Proof.
  refine (proj1 (dropped_exoda_leave_the_total 1 threeExoda
                   (threeExoda_created _ _) _)).
  cbn [threeExoda currentExodaCount]. lia.
Defined.
